(** * PR-Reviewer: reviewer assignment and reconciliation engine

    A shallow embedding of the use-case layer ([internal/usecase]) running on
    the in-memory storage backend ([internal/infrastructure/storage/memory]),
    of the static token authentication ([internal/infrastructure/auth]) and
    of the handlers and the middleware of the HTTP layer
    ([internal/infrastructure/http]), together with the properties the
    specification states about them and further properties of the code.

    Modelling conventions
    - Go [map[string]T] is a [gmap string T]; reading a missing key of a
      [map[string]bool] yields [false], written [default false (m !! k)].
    - Go slices are lists; [*time.Time] is an [option Time].
    - A [for k, v := range m] loop over a map visits the entries in an order
      the Go runtime picks afresh for every loop.  The order is taken from a
      tape of choices carried by the [World]; so are the draws of
      [math/rand].  Every order of the entries is the result of some tape.
    - A Go [error] return is the [Err] outcome; an index out of range or
      [rand.Intn] on a non-positive bound is the [Panic] outcome.
    - The [sync.RWMutex] of the repository is not modelled: operations are
      taken one at a time.  What a reader admitted between two calls of the
      repository could see is kept in the [history] of the [World]: the
      contents of the repository after each of its writes, oldest first.
      No operation reads the history.  [WithinTransaction] is the one the
      in-memory backend is run with, which calls its argument. *)

From stdpp Require Import base strings gmap list fin_maps.

Open Scope list_scope.
Open Scope nat_scope.

(** ** [internal/domain] *)

Module domain.

Definition ErrorCode := string.

Definition ErrCodeTeamExists  : ErrorCode := "TEAM_EXISTS".
Definition ErrCodePRExists    : ErrorCode := "PR_EXISTS".
Definition ErrCodePRMerged    : ErrorCode := "PR_MERGED".
Definition ErrCodeNotAssigned : ErrorCode := "NOT_ASSIGNED".
Definition ErrCodeNoCandidate : ErrorCode := "NO_CANDIDATE".
Definition ErrCodeNotFound    : ErrorCode := "NOT_FOUND".
Definition ErrCodeInternal    : ErrorCode := "INTERNAL_ERROR".
Definition ErrCodeBadRequest  : ErrorCode := "BAD_REQUEST".
Definition ErrCodeUnauth      : ErrorCode := "UNAUTHORIZED".

Record AppError := NewAppError { Code : ErrorCode; Message : string }.

Definition ErrTeamAlreadyExists   := NewAppError ErrCodeTeamExists "team_name already exists".
Definition ErrPRAlreadyExists     := NewAppError ErrCodePRExists "PR id already exists".
Definition ErrPRMerged            := NewAppError ErrCodePRMerged "cannot reassign on merged PR".
Definition ErrReviewerNotAssigned := NewAppError ErrCodeNotAssigned "reviewer is not assigned to this PR".
Definition ErrNoActiveCandidate   := NewAppError ErrCodeNoCandidate "no active replacement candidate in team".
Definition ErrTeamNotFound        := NewAppError ErrCodeNotFound "team not found".
Definition ErrUserNotFound        := NewAppError ErrCodeNotFound "user not found".
Definition ErrPRNotFound          := NewAppError ErrCodeNotFound "PR not found".

(** [time.Time], as a count of clock ticks. *)
Definition Time := Z.

Record User := {
  UserID   : string;
  Username : string;
  TeamName : string;
  IsActive : bool;
}.

Record Team := {
  team_TeamName : string;
  Members       : list User;
}.

Record TeamMember := {
  member_UserID   : string;
  member_Username : string;
  member_IsActive : bool;
}.

Record TeamResponse := {
  teamresp_TeamName : string;
  teamresp_Members  : list TeamMember;
}.

Definition PRStatus := string.
Definition PRStatusOpen   : PRStatus := "OPEN".
Definition PRStatusMerged : PRStatus := "MERGED".

Record PullRequest := {
  PullRequestID   : string;
  PullRequestName : string;
  AuthorID        : string;
  Status          : PRStatus;
  CreatedAt       : option Time;
  MergedAt        : option Time;
}.

Record PullRequestResponse := {
  resp_PullRequestID   : string;
  resp_PullRequestName : string;
  resp_AuthorID        : string;
  resp_Status          : PRStatus;
  AssignedReviewers    : list string;
  resp_CreatedAt       : option Time;
  resp_MergedAt        : option Time;
}.

Record CreateTeamRequest := {
  createteam_TeamName : string;
  createteam_Members  : list TeamMember;
}.

Record SetIsActiveRequest := {
  setactive_UserID   : string;
  setactive_IsActive : bool;
}.

Record CreatePRRequest := {
  createpr_PullRequestID   : string;
  createpr_PullRequestName : string;
  createpr_AuthorID        : string;
}.

Record ReassignRequest := {
  reassign_PullRequestID : string;
  OldUserID              : string;
}.

Record ReassignResponse := {
  PR         : PullRequestResponse;
  ReplacedBy : string;
}.

Record DeactivateTeamUsersRequest := {
  deactivate_TeamName : string;
  UserIDs             : list string;
}.

Record PRReassignmentSummary := {
  summary_PullRequestID : string;
  OldReviewers          : list string;
  NewReviewers          : list string;
}.

Record DeactivateTeamUsersResponse := {
  DeactivatedUsers : list string;
  ReassignedPRs    : list PRReassignmentSummary;
}.

Record PRReassignment := {
  reassignment_PullRequestID : string;
  OldReviewerID              : string;
  NewReviewerID              : string;
}.

Definition ErrUnauthorized := NewAppError ErrCodeUnauth "unauthorized".
Definition ErrInvalidToken := NewAppError ErrCodeUnauth "invalid token".

Record PullRequestShort := {
  short_PullRequestID   : string;
  short_PullRequestName : string;
  short_AuthorID        : string;
  short_Status          : PRStatus;
}.

Record MergePRRequest := {
  merge_PullRequestID : string;
}.

Record UserReviewsResponse := {
  reviews_UserID : string;
  PullRequests   : list PullRequestShort;
}.

End domain.

Import domain.

(** ** The runtime: outcomes, and the order of its choices *)

Module runtime.

Inductive Res (A : Type) : Type :=
| Ok (a : A)
| Err (e : AppError)
| Panic.
Arguments Ok {A} a.
Arguments Err {A} e.
Arguments Panic {A}.

(** [insert_at n x l] puts [x] in front of position [n] of [l]. *)
Definition insert_at {A} (n : nat) (x : A) (l : list A) : list A :=
  take n l ++ x :: drop n l.

(** [shuffle picks l] orders [l] by the choices [picks]: every element is
    inserted, at the position its pick names, into the shuffle of the
    elements after it.  A missing pick counts as [0]. *)
Fixpoint shuffle {A} (picks : list nat) (l : list A) : list A :=
  match l with
  | [] => []
  | x :: l' =>
      let s := shuffle (tail picks) l' in
      insert_at (hd 0 picks `mod` S (length s)) x s
  end.

End runtime.

Import runtime.

(** ** [internal/infrastructure/storage/memory]: the store and the world *)

Module memory.

Record MemoryRepository := {
  teams       : gmap string Team;
  users       : gmap string User;
  prs         : gmap string PullRequest;
  prReviewers : gmap string (list string);
}.

Definition NewMemoryRepository : MemoryRepository :=
  {| teams := ∅; users := ∅; prs := ∅; prReviewers := ∅ |}.

(** The world an operation runs in: the store, the tape of choices the Go
    runtime and [math/rand] will make, the wall clock, and the history of
    the store: its contents after each write, oldest first. *)
Record World := {
  store   : MemoryRepository;
  tape    : list nat;
  clock   : Time;
  history : list MemoryRepository;
}.

Definition M (A : Type) : Type := World → Res A * World.

Definition ret {A} (a : A) : M A := λ w, (Ok a, w).

Definition fail {A} (e : AppError) : M A := λ w, (Err e, w).

Definition panic {A} : M A := λ w, (Panic, w).

Definition bind {A B} (c : M A) (k : A → M B) : M B :=
  λ w, match c w with
       | (Ok a, w') => k a w'
       | (Err e, w') => (Err e, w')
       | (Panic, w') => (Panic, w')
       end.

(** [attempt c] is a call whose [error] the caller inspects instead of
    returning it. *)
Definition attempt {A} (c : M A) : M (option A) :=
  λ w, match c w with
       | (Ok a, w') => (Ok (Some a), w')
       | (Err e, w') => (Ok None, w')
       | (Panic, w') => (Panic, w')
       end.

Definition get_store : M MemoryRepository := λ w, (Ok (store w), w).

(** A method that writes leaves the repository as [r]. *)
Definition put_store (r : MemoryRepository) : M unit :=
  λ w, (Ok tt, {| store := r; tape := tape w; clock := clock w;
                  history := history w ++ [r] |}).

(** [for k, v := range m]: the entries of [m] in the order the tape picks. *)
Definition range_map {V} (m : gmap string V) : M (list (string * V)) :=
  λ w, (Ok (shuffle (tape w) (map_to_list m)),
        {| store := store w; tape := drop (size m) (tape w); clock := clock w;
           history := history w |}).

(** [rand.Intn(n)], which panics when [n <= 0]. *)
Definition rand_Intn (n : nat) : M nat :=
  λ w, match n with
       | 0 => (Panic, w)
       | S _ => (Ok (hd 0 (tape w) `mod` n),
                 {| store := store w; tape := tail (tape w); clock := clock w;
                    history := history w |})
       end.

(** [rand.Perm(n)]: a permutation of [0, n). *)
Definition rand_Perm (n : nat) : M (list nat) :=
  λ w, (Ok (shuffle (tape w) (seq 0 n)),
        {| store := store w; tape := drop n (tape w); clock := clock w;
           history := history w |}).

(** [time.Now()]. *)
Definition time_Now : M Time :=
  λ w, (Ok (clock w),
        {| store := store w; tape := tape w; clock := (clock w + 1)%Z;
           history := history w |}).

End memory.

Import memory.

Notation "'let*' x ':=' c 'in' k" := (bind c (λ x, k))
  (at level 10, x pattern, c at level 200, k at level 200).

(** ** [internal/infrastructure/storage/memory]: the methods of [*MemoryRepository] *)

Module repo.

Definition set_IsActive (u : User) (b : bool) : User :=
  {| UserID := UserID u; Username := Username u; TeamName := TeamName u; IsActive := b |}.

Definition set_TeamName (u : User) (t : string) : User :=
  {| UserID := UserID u; Username := Username u; TeamName := t; IsActive := IsActive u |}.

(** [pr.Status = PRStatusMerged; pr.MergedAt = &now] *)
Definition merged (pr : PullRequest) (now : Time) : PullRequest :=
  {| PullRequestID := PullRequestID pr; PullRequestName := PullRequestName pr;
     AuthorID := AuthorID pr; Status := PRStatusMerged;
     CreatedAt := CreatedAt pr; MergedAt := Some now |}.

Definition CreateTeam (team : Team) (members : list User) : M unit :=
  let* r := get_store in
  match teams r !! team_TeamName team with
  | Some _ => fail ErrTeamAlreadyExists
  | None =>
      put_store
        {| teams := <[team_TeamName team :=
                        {| team_TeamName := team_TeamName team; Members := [] |}]> (teams r);
           users := foldl (λ us m, <[UserID m := set_TeamName m (team_TeamName team)]> us)
                          (users r) members;
           prs := prs r;
           prReviewers := prReviewers r |}
  end.

Definition GetTeam (teamName : string) : M Team :=
  let* r := get_store in
  match teams r !! teamName with
  | None => fail ErrTeamNotFound
  | Some team =>
      let* entries := range_map (users r) in
      ret {| team_TeamName := team_TeamName team;
             Members := filter (λ user, TeamName user = teamName) entries.*2 |}
  end.

Definition TeamExists (teamName : string) : M bool :=
  let* r := get_store in
  ret (bool_decide (is_Some (teams r !! teamName))).

Definition CreateOrUpdateUser (user : User) : M unit :=
  let* r := get_store in
  put_store {| teams := teams r; users := <[UserID user := user]> (users r);
               prs := prs r; prReviewers := prReviewers r |}.

Definition GetUser (userID : string) : M User :=
  let* r := get_store in
  match users r !! userID with
  | None => fail ErrUserNotFound
  | Some user => ret user
  end.

Definition SetUserActive (userID : string) (isActive : bool) : M unit :=
  let* r := get_store in
  match users r !! userID with
  | None => fail ErrUserNotFound
  | Some user =>
      put_store {| teams := teams r;
                   users := <[userID := set_IsActive user isActive]> (users r);
                   prs := prs r; prReviewers := prReviewers r |}
  end.

Definition GetActiveTeamMembers (teamName excludeUserID : string) : M (list User) :=
  let* r := get_store in
  let* entries := range_map (users r) in
  ret (filter (λ user, TeamName user = teamName ∧ IsActive user = true
                       ∧ UserID user ≠ excludeUserID) entries.*2).

Definition CreatePR (pr : PullRequest) (reviewers : list string) : M unit :=
  let* r := get_store in
  match prs r !! PullRequestID pr with
  | Some _ => fail ErrPRAlreadyExists
  | None =>
      put_store {| teams := teams r; users := users r;
                   prs := <[PullRequestID pr := pr]> (prs r);
                   prReviewers := <[PullRequestID pr := reviewers]> (prReviewers r) |}
  end.

Definition GetPRWithReviewers (prID : string) : M (PullRequest * list string) :=
  let* r := get_store in
  match prs r !! prID with
  | None => fail ErrPRNotFound
  | Some pr => ret (pr, default [] (prReviewers r !! prID))
  end.

Definition PRExists (prID : string) : M bool :=
  let* r := get_store in
  ret (bool_decide (is_Some (prs r !! prID))).

Definition MergePR (prID : string) : M unit :=
  let* r := get_store in
  match prs r !! prID with
  | None => fail ErrPRNotFound
  | Some pr =>
      let* now := time_Now in
      put_store {| teams := teams r; users := users r;
                   prs := <[prID := merged pr now]> (prs r);
                   prReviewers := prReviewers r |}
  end.

Definition AddReviewer (prID userID : string) : M unit :=
  let* r := get_store in
  put_store {| teams := teams r; users := users r; prs := prs r;
               prReviewers := <[prID := (default [] (prReviewers r !! prID) ++ [userID])]>
                                (prReviewers r) |}.

(** [append(reviewers[:i], reviewers[i+1:]...)] at the first [i] holding
    [userID]. *)
Fixpoint remove_first (userID : string) (reviewers : list string) : list string :=
  match reviewers with
  | [] => []
  | id :: rest => if decide (id = userID) then rest else id :: remove_first userID rest
  end.

Definition RemoveReviewer (prID userID : string) : M unit :=
  let* r := get_store in
  let reviewers := default [] (prReviewers r !! prID) in
  if decide (userID ∈ reviewers) then
    put_store {| teams := teams r; users := users r; prs := prs r;
                 prReviewers := <[prID := remove_first userID reviewers]> (prReviewers r) |}
  else ret tt.

Definition IsReviewerAssigned (prID userID : string) : M bool :=
  let* r := get_store in
  match prReviewers r !! prID with
  | None => ret false
  | Some reviewers => ret (bool_decide (userID ∈ reviewers))
  end.

(** [if user, exists := r.users[userID]; exists { user.IsActive = false }] *)
Definition deactivate (us : gmap string User) (userID : string) : gmap string User :=
  match us !! userID with
  | Some user => <[userID := set_IsActive user false]> us
  | None => us
  end.

Definition DeactivateUsers (userIDs : list string) : M unit :=
  let* r := get_store in
  put_store {| teams := teams r;
               users := foldl deactivate (users r) userIDs;
               prs := prs r; prReviewers := prReviewers r |}.

(** [set[id] = true] for every [id] of a slice. *)
Definition id_set (ids : list string) : gmap string bool :=
  foldl (λ set id, <[id := true]> set) ∅ ids.

Definition GetOpenPRsWithReviewers (reviewerIDs : list string)
  : M (list PullRequest * gmap string (list string)) :=
  let* r := get_store in
  let reviewerSet := id_set reviewerIDs in
  let* entries := range_map (prs r) in
  ret (foldl (λ '(affectedPRs, reviewersMap) '(prID, pr),
                if decide (Status pr ≠ PRStatusOpen) then (affectedPRs, reviewersMap)
                else
                  let reviewers := default [] (prReviewers r !! prID) in
                  if existsb (λ revID, default false (reviewerSet !! revID)) reviewers
                  then (affectedPRs ++ [pr], <[prID := reviewers]> reviewersMap)
                  else (affectedPRs, reviewersMap))
             ([], ∅) entries).

(** The body of the loop of [BulkReassignReviewers]. *)
Definition reassign (revs : gmap string (list string)) (ra : PRReassignment)
  : gmap string (list string) :=
  let reviewers := default [] (revs !! reassignment_PullRequestID ra) in
  let newReviewers := filter (λ revID, revID ≠ OldReviewerID ra) reviewers in
  <[reassignment_PullRequestID ra :=
      if decide (NewReviewerID ra ≠ "")
      then newReviewers ++ [NewReviewerID ra]
      else newReviewers]> revs.

Definition BulkReassignReviewers (reassignments : list PRReassignment) : M unit :=
  let* r := get_store in
  put_store {| teams := teams r; users := users r; prs := prs r;
               prReviewers := foldl reassign (prReviewers r) reassignments |}.

Definition GetUsersByTeam (teamName : string) : M (list User) :=
  let* r := get_store in
  let* entries := range_map (users r) in
  ret (filter (λ user, TeamName user = teamName) entries.*2).

Definition GetPR (prID : string) : M PullRequest :=
  let* r := get_store in
  match prs r !! prID with
  | None => fail ErrPRNotFound
  | Some pr => ret pr
  end.

Definition GetPRReviewers (prID : string) : M (list string) :=
  let* r := get_store in
  match prReviewers r !! prID with
  | None => ret []
  | Some reviewers => ret reviewers
  end.

(** The body of the outer loop of [GetUserReviews]: the inner loop stops at
    the first reviewer equal to [userID], and appends the pull request if it
    is stored. *)
Definition review_of (ps : gmap string PullRequest) (userID : string)
    (found : list PullRequest) (entry : string * list string) : list PullRequest :=
  if decide (userID ∈ entry.2) then
    match ps !! entry.1 with
    | Some pr => found ++ [pr]
    | None => found
    end
  else found.

Definition GetUserReviews (userID : string) : M (list PullRequest) :=
  let* r := get_store in
  let* entries := range_map (prReviewers r) in
  ret (foldl (review_of (prs r) userID) [] entries).

(** [stats[reviewerID]++], on a counter that starts at zero.  A counter of
    entries held in memory is a [nat], as a length is. *)
Definition count_reviewer (stats : gmap string nat) (reviewerID : string) : gmap string nat :=
  <[reviewerID := S (default 0 (stats !! reviewerID))]> stats.

Definition GetAssignmentStats : M (gmap string nat) :=
  let* r := get_store in
  let* entries := range_map (prReviewers r) in
  ret (foldl (λ stats entry, foldl count_reviewer stats entry.2) ∅ entries).

End repo.

(** ** [internal/usecase] *)

(** The locals of [processPRReassignments]. *)
Record planning := {
  reassignments     : list PRReassignment;
  oldReviewers      : list string;
  newReviewers      : list string;
  assignedReviewers : gmap string bool;
}.

Module usecase.

(** *** [PRService] *)

(** [for i := 0; i < n; i++ { selected[i] = candidates[perm[i]] }] *)
Fixpoint selected_at (candidates : list User) (perm : list nat) (indices : list nat)
  : M (list User) :=
  match indices with
  | [] => ret []
  | i :: indices' =>
      match perm !! i with
      | None => panic
      | Some j =>
          match candidates !! j with
          | None => panic
          | Some c =>
              let* rest := selected_at candidates perm indices' in
              ret (c :: rest)
          end
      end
  end.

Definition selectReviewers (candidates : list User) (n : nat) : M (list User) :=
  if decide (length candidates = 0) then ret []
  else if decide (length candidates ≤ n) then ret candidates
  else
    let* perm := rand_Perm (length candidates) in
    selected_at candidates perm (seq 0 n).

Definition filterAvailableReviewers (candidates : list User) (pr : PullRequest)
    (reviewers : list string) : list User :=
  filter (λ c, ¬ (UserID c = AuthorID pr) ∧ ¬ (UserID c ∈ reviewers)) candidates.

Definition response (pr : PullRequest) (reviewers : list string) : PullRequestResponse :=
  {| resp_PullRequestID := PullRequestID pr;
     resp_PullRequestName := PullRequestName pr;
     resp_AuthorID := AuthorID pr;
     resp_Status := Status pr;
     AssignedReviewers := reviewers;
     resp_CreatedAt := CreatedAt pr;
     resp_MergedAt := MergedAt pr |}.

Definition CreatePR (req : CreatePRRequest) : M PullRequestResponse :=
  let* exists_ := repo.PRExists (createpr_PullRequestID req) in
  if (exists_ : bool) then fail ErrPRAlreadyExists
  else
    let* author := repo.GetUser (createpr_AuthorID req) in
    let* candidates := repo.GetActiveTeamMembers (TeamName author) (createpr_AuthorID req) in
    let* reviewers := selectReviewers candidates 2 in
    let reviewerIDs := UserID <$> reviewers in
    let* now := time_Now in
    let pr := {| PullRequestID := createpr_PullRequestID req;
                 PullRequestName := createpr_PullRequestName req;
                 AuthorID := createpr_AuthorID req;
                 Status := PRStatusOpen;
                 CreatedAt := Some now;
                 MergedAt := None |} in
    let* _ := repo.CreatePR pr reviewerIDs in
    ret (response pr reviewerIDs).

Definition MergePR (prID : string) : M PullRequestResponse :=
  let* (pr, reviewers) := repo.GetPRWithReviewers prID in
  if decide (Status pr = PRStatusMerged) then ret (response pr reviewers)
  else
    let* _ := repo.MergePR prID in
    let* (pr, reviewers) := repo.GetPRWithReviewers prID in
    ret (response pr reviewers).

Definition ReassignReviewer (req : ReassignRequest) : M ReassignResponse :=
  let* (pr, reviewers) := repo.GetPRWithReviewers (reassign_PullRequestID req) in
  if decide (Status pr = PRStatusMerged) then fail ErrPRMerged
  else
    let* isAssigned := repo.IsReviewerAssigned (reassign_PullRequestID req) (OldUserID req) in
    if negb isAssigned then fail ErrReviewerNotAssigned
    else
      let* oldReviewer := repo.GetUser (OldUserID req) in
      let* candidates := repo.GetActiveTeamMembers (TeamName oldReviewer) (OldUserID req) in
      let available := filterAvailableReviewers candidates pr reviewers in
      if decide (length available = 0) then fail ErrNoActiveCandidate
      else
        let* k := rand_Intn (length available) in
        match available !! k with
        | None => panic
        | Some newReviewer =>
            let* _ := repo.RemoveReviewer (reassign_PullRequestID req) (OldUserID req) in
            let* _ := repo.AddReviewer (reassign_PullRequestID req) (UserID newReviewer) in
            let* (updatedPR, revs) := repo.GetPRWithReviewers (reassign_PullRequestID req) in
            ret {| PR := response updatedPR revs; ReplacedBy := UserID newReviewer |}
        end.

(** *** [UserService] *)

Definition SetUserActive (req : SetIsActiveRequest) : M User :=
  let* _ := repo.GetUser (setactive_UserID req) in
  let* _ := repo.SetUserActive (setactive_UserID req) (setactive_IsActive req) in
  repo.GetUser (setactive_UserID req).

(** *** [TeamService] *)

Definition CreateTeam (req : CreateTeamRequest) : M TeamResponse :=
  let* exists_ := repo.TeamExists (createteam_TeamName req) in
  if (exists_ : bool) then fail ErrTeamAlreadyExists
  else
    let team := {| team_TeamName := createteam_TeamName req; Members := [] |} in
    let members :=
      (λ m, {| UserID := member_UserID m; Username := member_Username m;
               TeamName := createteam_TeamName req; IsActive := member_IsActive m |})
        <$> createteam_Members req in
    let* _ := repo.CreateTeam team members in
    ret {| teamresp_TeamName := createteam_TeamName req;
           teamresp_Members := createteam_Members req |}.

Definition createUserIDSet (userIDs : list string) : gmap string bool :=
  foldl (λ set userID, <[userID := true]> set) ∅ userIDs.

Fixpoint filterValidTeamUsers_loop (teamName : string) (userIDs validUserIDs : list string)
  : M (list string) :=
  match userIDs with
  | [] => ret validUserIDs
  | userID :: rest =>
      let* got := attempt (repo.GetUser userID) in
      match got with
      | None => filterValidTeamUsers_loop teamName rest validUserIDs
      | Some user =>
          if decide (TeamName user ≠ teamName)
          then filterValidTeamUsers_loop teamName rest validUserIDs
          else filterValidTeamUsers_loop teamName rest (validUserIDs ++ [userID])
      end
  end.

Definition filterValidTeamUsers (req : DeactivateTeamUsersRequest) : M (list string) :=
  filterValidTeamUsers_loop (deactivate_TeamName req) (UserIDs req) [].

Definition getValidTeamUserIDsForDeactivation (req : DeactivateTeamUsersRequest)
  : M (list string) :=
  let* _ := repo.GetTeam (deactivate_TeamName req) in
  let* validUserIDs := filterValidTeamUsers req in
  if decide (length validUserIDs = 0)
  then fail (NewAppError ErrCodeBadRequest "no valid users to deactivate")
  else ret validUserIDs.

Definition isValidReplacementCandidate (candidate : User) (authorID : string)
    (assignedReviewers deactivatingSet : gmap string bool) : bool :=
  if decide (UserID candidate = authorID) then false
  else if default false (assignedReviewers !! UserID candidate) then false
  else if default false (deactivatingSet !! UserID candidate) then false
  else true.

(** [for _, candidate := range candidates { if valid { return candidate.UserID } }; return ""] *)
Fixpoint first_valid (candidates : list User) (authorID : string)
    (assignedReviewers deactivatingSet : gmap string bool) : string :=
  match candidates with
  | [] => ""
  | candidate :: rest =>
      if isValidReplacementCandidate candidate authorID assignedReviewers deactivatingSet
      then UserID candidate
      else first_valid rest authorID assignedReviewers deactivatingSet
  end.

Definition findReviewerReplacement (reviewerID : string) (author : User)
    (assignedReviewers deactivatingSet : gmap string bool) : M string :=
  let* got := attempt (repo.GetUser reviewerID) in
  match got with
  | None => ret ""
  | Some reviewer =>
      let* got := attempt (repo.GetActiveTeamMembers (TeamName reviewer) reviewerID) in
      match got with
      | None => ret ""
      | Some candidates =>
          ret (first_valid candidates (UserID author) assignedReviewers deactivatingSet)
      end
  end.

(** The first loop: the reviewers that stay. *)
Definition keep_staying (currentReviewers : list string) (deactivatingSet : gmap string bool)
  : planning :=
  foldl (λ st reviewerID,
           if negb (default false (deactivatingSet !! reviewerID))
           then {| reassignments := reassignments st;
                   oldReviewers := oldReviewers st;
                   newReviewers := newReviewers st ++ [reviewerID];
                   assignedReviewers := <[reviewerID := true]> (assignedReviewers st) |}
           else st)
        {| reassignments := []; oldReviewers := []; newReviewers := [];
           assignedReviewers := ∅ |}
        currentReviewers.

(** The second loop: the reviewers being deactivated. *)
Fixpoint replace_removed (pr : PullRequest) (author : User) (deactivatingSet : gmap string bool)
    (currentReviewers : list string) (st : planning) : M planning :=
  match currentReviewers with
  | [] => ret st
  | reviewerID :: rest =>
      if negb (default false (deactivatingSet !! reviewerID))
      then replace_removed pr author deactivatingSet rest st
      else
        let* replacement :=
          findReviewerReplacement reviewerID author (assignedReviewers st) deactivatingSet in
        replace_removed pr author deactivatingSet rest
          {| reassignments :=
               reassignments st ++
               [{| reassignment_PullRequestID := PullRequestID pr;
                   OldReviewerID := reviewerID;
                   NewReviewerID := replacement |}];
             oldReviewers := oldReviewers st ++ [reviewerID];
             newReviewers :=
               if decide (replacement ≠ "") then newReviewers st ++ [replacement]
               else newReviewers st;
             assignedReviewers :=
               if decide (replacement ≠ "") then <[replacement := true]> (assignedReviewers st)
               else assignedReviewers st |}
  end.

Definition processPRReassignments (pr : PullRequest) (currentReviewers : list string)
    (deactivatingSet : gmap string bool) : M (list PRReassignment * PRReassignmentSummary) :=
  let* got := attempt (repo.GetUser (AuthorID pr)) in
  match got with
  | None => ret ([], {| summary_PullRequestID := ""; OldReviewers := []; NewReviewers := [] |})
  | Some author =>
      let* st := replace_removed pr author deactivatingSet currentReviewers
                   (keep_staying currentReviewers deactivatingSet) in
      ret (reassignments st,
           {| summary_PullRequestID := PullRequestID pr;
              OldReviewers := oldReviewers st;
              NewReviewers := newReviewers st |})
  end.

Fixpoint planReviewerReassignments_loop (prs : list PullRequest)
    (reviewersMap : gmap string (list string)) (deactivatingSet : gmap string bool)
    (acc : list PRReassignment * list PRReassignmentSummary)
  : M (list PRReassignment * list PRReassignmentSummary) :=
  match prs with
  | [] => ret acc
  | pr :: rest =>
      let* (prReassignments, summary) :=
        processPRReassignments pr (default [] (reviewersMap !! PullRequestID pr))
          deactivatingSet in
      planReviewerReassignments_loop rest reviewersMap deactivatingSet
        (acc.1 ++ prReassignments,
         if decide (0 < length (OldReviewers summary)) then acc.2 ++ [summary] else acc.2)
  end.

Definition planReviewerReassignments (prs : list PullRequest)
    (reviewersMap : gmap string (list string)) (deactivatingUserIDs : list string)
  : M (list PRReassignment * list PRReassignmentSummary) :=
  planReviewerReassignments_loop prs reviewersMap (createUserIDSet deactivatingUserIDs) ([], []).

Definition applyDeactivationChanges (validUserIDs : list string)
    (reassignments : list PRReassignment) : M unit :=
  let* _ := (if decide (0 < length reassignments)
             then repo.BulkReassignReviewers reassignments else ret tt) in
  repo.DeactivateUsers validUserIDs.

Definition DeactivateTeamUsers (req : DeactivateTeamUsersRequest)
  : M DeactivateTeamUsersResponse :=
  let* validUserIDs := getValidTeamUserIDsForDeactivation req in
  let* (prs, reviewersMap) := repo.GetOpenPRsWithReviewers validUserIDs in
  let* (reassignments, summaries) := planReviewerReassignments prs reviewersMap validUserIDs in
  let* _ := applyDeactivationChanges validUserIDs reassignments in
  ret {| DeactivatedUsers := validUserIDs; ReassignedPRs := summaries |}.

Definition member_of (m : User) : TeamMember :=
  {| member_UserID := UserID m; member_Username := Username m;
     member_IsActive := IsActive m |}.

Definition GetTeam (teamName : string) : M TeamResponse :=
  let* team := repo.GetTeam teamName in
  ret {| teamresp_TeamName := team_TeamName team;
         teamresp_Members := member_of <$> Members team |}.

(** *** [UserService], reading *)

Definition short_of (pr : PullRequest) : PullRequestShort :=
  {| short_PullRequestID := PullRequestID pr;
     short_PullRequestName := PullRequestName pr;
     short_AuthorID := AuthorID pr;
     short_Status := Status pr |}.

Definition GetUserReviews (userID : string) : M UserReviewsResponse :=
  let* _ := repo.GetUser userID in
  let* prs := repo.GetUserReviews userID in
  ret {| reviews_UserID := userID; PullRequests := short_of <$> prs |}.

(** *** [MetricsService] *)

Definition GetAssignmentStats : M (gmap string (gmap string nat)) :=
  let* stats := repo.GetAssignmentStats in
  ret {[ "reviewer_assignments" := stats ]}.

End usecase.

(** ** [internal/infrastructure/auth] *)

Module auth.

Class Authenticator (A : Type) := {
  ValidateAdminToken : A → string → bool;
  ValidateUserToken  : A → string → bool;
}.

Record StaticTokenAuth := NewStaticTokenAuth {
  adminToken : string;
  userToken  : string;
}.

#[export] Instance StaticTokenAuth_Authenticator : Authenticator StaticTokenAuth := {|
  ValidateAdminToken a token :=
    bool_decide (token ≠ "") && bool_decide (token = adminToken a);
  ValidateUserToken a token :=
    bool_decide (token ≠ "")
    && (bool_decide (token = adminToken a) || bool_decide (token = userToken a));
|}.

End auth.

Import auth.

(** ** [net/http] and [strings], as far as the handlers use them *)

Module net_http.

Definition StatusOK                  : nat := 200.
Definition StatusCreated             : nat := 201.
Definition StatusBadRequest          : nat := 400.
Definition StatusUnauthorized        : nat := 401.
Definition StatusNotFound            : nat := 404.
Definition StatusConflict            : nat := 409.
Definition StatusInternalServerError : nat := 500.

(** A request, as a handler reads it: [r.Header.Get], [r.URL.Query().Get],
    and what [json.NewDecoder(r.Body).Decode(&req)] yields for the request
    type [B] of the handler, [None] standing for its error. *)
Record Request (B : Type) := {
  Header : gmap string string;
  Query  : gmap string string;
  Body   : option B;
}.
Arguments Header {B} _.
Arguments Query {B} _.
Arguments Body {B} _.

(** What a handler wrote to its [http.ResponseWriter], named after the
    function that wrote it: [respondJSON] and [respondError] of the handlers,
    [respondUnauthorized] of the middleware. *)
Inductive Response (A : Type) : Type :=
| respondJSON (statusCode : nat) (data : A)
| respondError (statusCode : nat) (err : AppError)
| respondUnauthorized.
Arguments respondJSON {A} statusCode data.
Arguments respondError {A} statusCode err.
Arguments respondUnauthorized {A}.

(** The status line of a response. *)
Definition statusCode {A} (resp : Response A) : nat :=
  match resp with
  | respondJSON statusCode _ => statusCode
  | respondError statusCode _ => statusCode
  | respondUnauthorized => StatusUnauthorized
  end.

(** [strings.HasPrefix(s, prefix)] *)
Fixpoint HasPrefix (s prefix : string) : bool :=
  match prefix with
  | EmptyString => true
  | String p prefix' =>
      match s with
      | EmptyString => false
      | String c s' => if decide (c = p) then HasPrefix s' prefix' else false
      end
  end.

(** [s[n:]], for [n] within the string. *)
Fixpoint slice_from (n : nat) (s : string) : string :=
  match n, s with
  | S n', String _ s' => slice_from n' s'
  | _, _ => s
  end.

(** [strings.TrimPrefix(s, prefix)] *)
Definition TrimPrefix (s prefix : string) : string :=
  if HasPrefix s prefix then slice_from (String.length prefix) s else s.

(** A call whose [error] the handler inspects. *)
Definition call {A} (c : M A) : M (A + AppError) :=
  λ w, match c w with
       | (Ok a, w') => (Ok (inl a), w')
       | (Err e, w') => (Ok (inr e), w')
       | (Panic, w') => (Panic, w')
       end.

End net_http.

Import net_http.

(** ** [internal/infrastructure/http/handlers]

    Every [error] of the in-memory backend and of the services is a
    [*domain.AppError]; the branch of a handler for any other error is not
    taken and is left out. *)

Module handlers.

Definition invalid_request_body : AppError :=
  NewAppError ErrCodeBadRequest "invalid request body".

(** POST /team/add *)
Definition CreateTeam (r : Request CreateTeamRequest)
  : M (Response (gmap string TeamResponse)) :=
  match Body r with
  | None => ret (respondError StatusBadRequest invalid_request_body)
  | Some req =>
      let* res := call (usecase.CreateTeam req) in
      match res with
      | inr appErr =>
          let statusCode :=
            if decide (Code appErr = ErrCodeTeamExists) then StatusBadRequest
            else StatusBadRequest in
          ret (respondError statusCode appErr)
      | inl team => ret (respondJSON StatusCreated {[ "team" := team ]})
      end
  end.

(** GET /team/get *)
Definition GetTeam {B} (r : Request B) : M (Response TeamResponse) :=
  let teamName := default "" (Query r !! "team_name") in
  if decide (teamName = "")
  then ret (respondError StatusBadRequest
              (NewAppError ErrCodeBadRequest "team_name is required"))
  else
    let* res := call (usecase.GetTeam teamName) in
    match res with
    | inr appErr =>
        let statusCode :=
          if decide (Code appErr = ErrCodeNotFound) then StatusNotFound
          else StatusNotFound in
        ret (respondError statusCode appErr)
    | inl team => ret (respondJSON StatusOK team)
    end.

(** POST /team/deactivateUsers *)
Definition DeactivateTeamUsers (r : Request DeactivateTeamUsersRequest)
  : M (Response DeactivateTeamUsersResponse) :=
  match Body r with
  | None => ret (respondError StatusBadRequest invalid_request_body)
  | Some req =>
      let* res := call (usecase.DeactivateTeamUsers req) in
      match res with
      | inr appErr =>
          let statusCode :=
            if decide (Code appErr = ErrCodeNotFound) then StatusNotFound
            else StatusBadRequest in
          ret (respondError statusCode appErr)
      | inl result => ret (respondJSON StatusOK result)
      end
  end.

(** POST /users/setIsActive *)
Definition SetIsActive (r : Request SetIsActiveRequest) : M (Response (gmap string User)) :=
  match Body r with
  | None => ret (respondError StatusBadRequest invalid_request_body)
  | Some req =>
      let* res := call (usecase.SetUserActive req) in
      match res with
      | inr appErr =>
          let statusCode :=
            if decide (Code appErr = ErrCodeNotFound) then StatusNotFound
            else StatusNotFound in
          ret (respondError statusCode appErr)
      | inl user => ret (respondJSON StatusOK {[ "user" := user ]})
      end
  end.

(** GET /users/getReview *)
Definition GetReviews {B} (r : Request B) : M (Response UserReviewsResponse) :=
  let userID := default "" (Query r !! "user_id") in
  if decide (userID = "")
  then ret (respondError StatusBadRequest
              (NewAppError ErrCodeBadRequest "user_id is required"))
  else
    let* res := call (usecase.GetUserReviews userID) in
    match res with
    | inr appErr =>
        let statusCode :=
          if decide (Code appErr = ErrCodeNotFound) then StatusNotFound
          else StatusNotFound in
        ret (respondError statusCode appErr)
    | inl reviews => ret (respondJSON StatusOK reviews)
    end.

(** POST /pullRequest/create *)
Definition CreatePR (r : Request CreatePRRequest)
  : M (Response (gmap string PullRequestResponse)) :=
  match Body r with
  | None => ret (respondError StatusBadRequest invalid_request_body)
  | Some req =>
      let* res := call (usecase.CreatePR req) in
      match res with
      | inr appErr =>
          let statusCode :=
            if decide (Code appErr = ErrCodePRExists) then StatusConflict
            else if decide (Code appErr = ErrCodeNotFound) then StatusNotFound
            else StatusBadRequest in
          ret (respondError statusCode appErr)
      | inl pr => ret (respondJSON StatusCreated {[ "pr" := pr ]})
      end
  end.

(** POST /pullRequest/merge *)
Definition MergePR (r : Request MergePRRequest)
  : M (Response (gmap string PullRequestResponse)) :=
  match Body r with
  | None => ret (respondError StatusBadRequest invalid_request_body)
  | Some req =>
      let* res := call (usecase.MergePR (merge_PullRequestID req)) in
      match res with
      | inr appErr =>
          let statusCode :=
            if decide (Code appErr = ErrCodeNotFound) then StatusNotFound
            else StatusNotFound in
          ret (respondError statusCode appErr)
      | inl pr => ret (respondJSON StatusOK {[ "pr" := pr ]})
      end
  end.

(** POST /pullRequest/reassign *)
Definition ReassignReviewer (r : Request ReassignRequest) : M (Response ReassignResponse) :=
  match Body r with
  | None => ret (respondError StatusBadRequest invalid_request_body)
  | Some req =>
      let* res := call (usecase.ReassignReviewer req) in
      match res with
      | inr appErr =>
          let statusCode :=
            if decide (Code appErr = ErrCodeNotFound) then StatusNotFound
            else if decide (Code appErr = ErrCodePRMerged ∨ Code appErr = ErrCodeNotAssigned
                            ∨ Code appErr = ErrCodeNoCandidate) then StatusConflict
            else StatusConflict in
          ret (respondError statusCode appErr)
      | inl response => ret (respondJSON StatusOK response)
      end
  end.

End handlers.

(** ** [internal/infrastructure/http] *)

Module http.

Definition AuthMiddleware {A} `{Authenticator A} (auth : A) (requireAdmin : bool)
    {B C} (next : Request B → M (Response C)) (r : Request B) : M (Response C) :=
  let authHeader := default "" (Header r !! "Authorization") in
  if decide (authHeader = "") then ret respondUnauthorized
  else
    let token := TrimPrefix authHeader "Bearer " in
    let valid :=
      if requireAdmin then ValidateAdminToken auth token
      else ValidateUserToken auth token in
    if negb valid then ret respondUnauthorized
    else next r.

(** GET /health *)
Definition healthCheck {B} (r : Request B) : M (Response (gmap string string)) :=
  ret (respondJSON StatusOK {[ "status" := "ok" ]}).

(** GET /stats.  On an error it encodes by hand the body that [respondError]
    gives for the code INTERNAL_ERROR and the message below. *)
Definition getStats {B} (r : Request B) : M (Response (gmap string (gmap string nat))) :=
  let* res := call usecase.GetAssignmentStats in
  match res with
  | inr _ =>
      ret (respondError StatusInternalServerError
             (NewAppError "INTERNAL_ERROR" "failed to retrieve stats"))
  | inl stats => ret (respondJSON StatusOK stats)
  end.

(** The routes of [setupRouter], each with the middleware it is given;
    GET /metrics, which the Prometheus client serves, is left out. *)
Section routes.
Context {A} `{Authenticator A} (auth : A).

Definition GET_health {B} : Request B → M (Response (gmap string string)) := healthCheck.

Definition GET_stats {B} : Request B → M (Response (gmap string (gmap string nat))) :=
  getStats.

Definition POST_team_add := handlers.CreateTeam.

Definition GET_team_get {B} : Request B → M (Response TeamResponse) :=
  AuthMiddleware auth false handlers.GetTeam.

Definition POST_team_deactivateUsers := AuthMiddleware auth true handlers.DeactivateTeamUsers.

Definition POST_users_setIsActive := AuthMiddleware auth true handlers.SetIsActive.

Definition GET_users_getReview {B} : Request B → M (Response UserReviewsResponse) :=
  AuthMiddleware auth false handlers.GetReviews.

Definition POST_pullRequest_create := AuthMiddleware auth true handlers.CreatePR.

Definition POST_pullRequest_merge := AuthMiddleware auth true handlers.MergePR.

Definition POST_pullRequest_reassign := AuthMiddleware auth true handlers.ReassignReviewer.

End routes.

End http.

(** ** The store as the specification sees it *)

(** The active members of a team other than [exclude], in the order of the
    store's own listing of its users. *)
Definition activeTeamMembers (r : MemoryRepository) (teamName exclude : string) : list User :=
  filter (λ user, TeamName user = teamName ∧ IsActive user = true ∧ UserID user ≠ exclude)
         (map_to_list (users r)).*2.

(** Every user record is stored under its own id. *)
Definition users_keyed (r : MemoryRepository) : Prop :=
  map_Forall (λ id user, UserID user = id) (users r).

(** The reviewers of a pull request, as [GetPRWithReviewers] reads them. *)
Definition reviewersOf (r : MemoryRepository) (prID : string) : list string :=
  default [] (prReviewers r !! prID).

(** The pool [ReassignReviewer] draws from: the active members of the old
    reviewer's team other than the old reviewer, the author and the reviewers
    already assigned. *)
Definition replacementPool (r : MemoryRepository) (pr : PullRequest)
    (reviewers : list string) (old : User) (oldUserID : string) : list User :=
  filter (λ c, UserID c ≠ AuthorID pr ∧ UserID c ∉ reviewers)
         (activeTeamMembers r (TeamName old) oldUserID).

(** The requested ids that name a user of the team. *)
Definition validUserIDs (r : MemoryRepository) (teamName : string) (userIDs : list string)
  : list string :=
  filter (λ userID, TeamName <$> users r !! userID = Some teamName) userIDs.

(** [w] after one [range] over the users of its store. *)
Definition after_range_users (w : World) : World :=
  {| store := store w; tape := drop (size (users (store w))) (tape w); clock := clock w;
     history := history w |}.

(** [w] after a write that leaves the repository as [r]. *)
Definition written (r : MemoryRepository) (w : World) : World :=
  {| store := r; tape := tape w; clock := clock w; history := history w ++ [r] |}.

(** *** The plan of the reconciler, in the words of the specification *)

(** A candidate may replace a removed reviewer when it is not the author,
    not already assigned or planned for the pull request, and not in the
    batch being deactivated. *)
Definition eligible (authorID : string) (taken batch : list string) (c : User) : Prop :=
  UserID c ≠ authorID ∧ (UserID c ∉ taken) ∧ (UserID c ∉ batch).

(** The first eligible candidate of an enumeration, if there is one. *)
Definition first_eligible (authorID : string) (taken batch : list string)
    (candidates : list User) : option User :=
  snd <$> list_find (eligible authorID taken batch) candidates.

(** The id recorded as replacement: that of the chosen candidate, and the
    empty string when there is none. *)
Definition replacement_id (choice : option User) : string :=
  from_option UserID "" choice.

(** [planned r prID authorID batch taken removed records]: [records] holds
    one record for each reviewer of [removed], in order; the replacement of
    each is the first eligible candidate of some enumeration of the active
    members of that reviewer's own team, where [taken] grows by the
    replacements made so far. *)
Inductive planned (r : MemoryRepository) (prID authorID : string) (batch : list string)
  : list string → list string → list PRReassignment → Prop :=
| planned_nil taken :
    planned r prID authorID batch taken [] []
| planned_cons taken reviewerID reviewer candidates removed records :
    users r !! reviewerID = Some reviewer →
    candidates ≡ₚ activeTeamMembers r (TeamName reviewer) reviewerID →
    planned r prID authorID batch
      (let id := replacement_id (first_eligible authorID taken batch candidates) in
       if decide (id ≠ "") then taken ++ [id] else taken)
      removed records →
    planned r prID authorID batch taken (reviewerID :: removed)
      ({| reassignment_PullRequestID := prID;
          OldReviewerID := reviewerID;
          NewReviewerID :=
            replacement_id (first_eligible authorID taken batch candidates) |}
       :: records).

(** The replacement a choice brings in: the id of the chosen candidate, and
    none when no candidate was chosen or the id of the chosen one is the
    empty string. *)
Definition replacement (choice : option User) : option string :=
  match choice with
  | Some c => if decide (UserID c = "") then None else Some (UserID c)
  | None => None
  end.

(** [chosen authorID batch w taken removed choices w']: from the world [w]
    on, [choices] holds one choice for each reviewer of [removed], in order.
    The choice for a reviewer is the first eligible candidate of the
    enumeration that [GetActiveTeamMembers] returns, in the world reached by
    then, for the reviewer's own team and the reviewer; [taken] grows by the
    replacements made so far, and the world moves by the enumerations only,
    to [w'] in the end. *)
Inductive chosen (authorID : string) (batch : list string)
  : World → list string → list string → list (option User) → World → Prop :=
| chosen_nil w taken :
    chosen authorID batch w taken [] [] w
| chosen_cons w w1 w' taken reviewerID reviewer candidates removed choices :
    users (store w) !! reviewerID = Some reviewer →
    repo.GetActiveTeamMembers (TeamName reviewer) reviewerID w = (Ok candidates, w1) →
    chosen authorID batch w1
      (taken ++ option_list (replacement (first_eligible authorID taken batch candidates)))
      removed choices w' →
    chosen authorID batch w taken (reviewerID :: removed)
      (first_eligible authorID taken batch candidates :: choices) w'.

(** [reconciled r batch w prs rounds w']: from the world [w] on, the pull
    requests [prs] are taken one after the other; [rounds] holds, for each,
    the choices for its reviewers that are in [batch], its reviewers that
    are not being taken from the start. *)
Inductive reconciled (r : MemoryRepository) (batch : list string)
  : World → list PullRequest → list (list (option User)) → World → Prop :=
| reconciled_nil w :
    reconciled r batch w [] [] w
| reconciled_cons w w1 w' pr prs choices rounds :
    chosen (AuthorID pr) batch w
      (filter (λ id, id ∉ batch) (reviewersOf r (PullRequestID pr)))
      (filter (λ id, id ∈ batch) (reviewersOf r (PullRequestID pr)))
      choices w1 →
    reconciled r batch w1 prs rounds w' →
    reconciled r batch w (pr :: prs) (choices :: rounds) w'.

(** The records of a pull request: one per removed reviewer, holding the id
    of the chosen candidate, and the empty string when there is none. *)
Definition records_of (prID : string) (removed : list string) (choices : list (option User))
  : list PRReassignment :=
  zip_with (λ old choice, {| reassignment_PullRequestID := prID;
                             OldReviewerID := old;
                             NewReviewerID := replacement_id choice |}) removed choices.

(** A [map[string]bool] used as a set holds exactly the ids of a list. *)
Definition holds (set : gmap string bool) (ids : list string) : Prop :=
  ∀ id, default false (set !! id) = bool_decide (id ∈ ids).

(** A pull request is affected by the deactivation of [batch] when it is
    OPEN and one of its reviewers is in [batch]. *)
Definition affected (r : MemoryRepository) (batch : list string)
    (entry : string * PullRequest) : Prop :=
  Status entry.2 = PRStatusOpen ∧ Exists (λ id, id ∈ batch) (reviewersOf r entry.1).

(** [w] after one [range] over the pull requests of its store. *)
Definition after_range_prs (w : World) : World :=
  {| store := store w; tape := drop (size (prs (store w))) (tape w); clock := clock w;
     history := history w |}.

(** Every pull request is stored under its own id. *)
Definition prs_keyed (r : MemoryRepository) : Prop :=
  map_Forall (λ id pr, PullRequestID pr = id) (prs r).

(** The author of every pull request is a user. *)
Definition authors_exist (r : MemoryRepository) : Prop :=
  map_Forall (λ _ pr, is_Some (users r !! AuthorID pr)) (prs r).

(** No pull request has a user twice among its reviewers. *)
Definition reviewers_NoDup (r : MemoryRepository) : Prop :=
  map_Forall (λ _ reviewers, NoDup reviewers) (prReviewers r).

(** The effect of one record on the reviewers of its pull request. *)
Definition swap (reviewers : list string) (ra : PRReassignment) : list string :=
  filter (λ revID, revID ≠ OldReviewerID ra) reviewers
  ++ (if decide (NewReviewerID ra ≠ "") then [NewReviewerID ra] else []).

(** The replacements a list of records brings in. *)
Definition replacements (records : list PRReassignment) : list string :=
  filter (λ id, id ≠ "") (NewReviewerID <$> records).

(** The summary of a pull request whose reviewers were [current]. *)
Definition summary_of (prID : string) (current batch : list string)
    (records : list PRReassignment) : PRReassignmentSummary :=
  {| summary_PullRequestID := prID;
     OldReviewers := filter (λ id, id ∈ batch) current;
     NewReviewers := filter (λ id, id ∉ batch) current ++ replacements records |}.

(** The summaries that are returned: those with a removed reviewer. *)
Definition reported (summaries : list PRReassignmentSummary) : list PRReassignmentSummary :=
  filter (λ summary, 0 < length (OldReviewers summary)) summaries.

(** *** The invariants of the data model, and the worlds the service reaches *)

Record store_wf (r : MemoryRepository) : Prop := {
  wf_users     : users_keyed r;
  wf_prs       : prs_keyed r;
  wf_authors   : authors_exist r;
  wf_reviewers : reviewers_NoDup r;
}.

(** The worlds reached from the empty store by the operations of the three
    services, whatever their outcome; between two operations the tape and
    the clock may be anything. *)
Inductive reachable : World → Prop :=
| reachable_new tape clock :
    reachable {| store := NewMemoryRepository; tape := tape; clock := clock; history := [] |}
| reachable_choices w tape clock :
    reachable w →
    reachable {| store := store w; tape := tape; clock := clock; history := history w |}
| reachable_CreateTeam w req :
    reachable w → reachable (usecase.CreateTeam req w).2
| reachable_SetUserActive w req :
    reachable w → reachable (usecase.SetUserActive req w).2
| reachable_CreatePR w req :
    reachable w → reachable (usecase.CreatePR req w).2
| reachable_MergePR w prID :
    reachable w → reachable (usecase.MergePR prID w).2
| reachable_ReassignReviewer w req :
    reachable w → reachable (usecase.ReassignReviewer req w).2
| reachable_DeactivateTeamUsers w req :
    reachable w → reachable (usecase.DeactivateTeamUsers req w).2.

(** *** The reading operations, and further invariants *)

(** The number of reviewer slots a user holds, over all pull requests. *)
Definition assignments (r : MemoryRepository) (userID : string) : nat :=
  sum_list ((λ entry : string * list string, length (filter (λ id, id = userID) entry.2))
              <$> map_to_list (prReviewers r)).

(** Every team is stored under its own name. *)
Definition teams_keyed (r : MemoryRepository) : Prop :=
  map_Forall (λ name team, team_TeamName team = name) (teams r).

(** The team of every user exists. *)
Definition users_in_teams (r : MemoryRepository) : Prop :=
  map_Forall (λ _ user, is_Some (teams r !! TeamName user)) (users r).

(** Reviewers are listed for pull requests that exist only. *)
Definition reviewed_prs_exist (r : MemoryRepository) : Prop :=
  map_Forall (λ prID _, is_Some (prs r !! prID)) (prReviewers r).

(** Every reviewer is a user. *)
Definition reviewers_exist (r : MemoryRepository) : Prop :=
  map_Forall (λ _ reviewers, Forall (λ id, is_Some (users r !! id)) reviewers)
             (prReviewers r).

(** No pull request is reviewed by its author. *)
Definition authors_review_not (r : MemoryRepository) : Prop :=
  map_Forall (λ prID pr, AuthorID pr ∉ reviewersOf r prID) (prs r).

(** No pull request has more than two reviewers. *)
Definition reviewers_at_most_two (r : MemoryRepository) : Prop :=
  map_Forall (λ _ reviewers, length reviewers ≤ 2) (prReviewers r).

(** A pull request is OPEN and not merged, or MERGED with its merge time. *)
Definition status_wf (pr : PullRequest) : Prop :=
  is_Some (CreatedAt pr)
  ∧ ((Status pr = PRStatusOpen ∧ MergedAt pr = None)
     ∨ (Status pr = PRStatusMerged ∧ is_Some (MergedAt pr))).

Record store_inv (r : MemoryRepository) : Prop := {
  inv_teams     : teams_keyed r;
  inv_members   : users_in_teams r;
  inv_reviewed  : reviewed_prs_exist r;
  inv_reviewers : reviewers_exist r;
  inv_authors   : authors_review_not r;
  inv_two       : reviewers_at_most_two r;
  inv_status    : map_Forall (λ _ pr, status_wf pr) (prs r);
}.

(** One call of a service operation that writes, whatever its outcome. *)
Inductive step : World → World → Prop :=
| step_CreateTeam w req : step w (usecase.CreateTeam req w).2
| step_SetUserActive w req : step w (usecase.SetUserActive req w).2
| step_CreatePR w req : step w (usecase.CreatePR req w).2
| step_MergePR w prID : step w (usecase.MergePR prID w).2
| step_ReassignReviewer w req : step w (usecase.ReassignReviewer req w).2
| step_DeactivateTeamUsers w req : step w (usecase.DeactivateTeamUsers req w).2.

(** ** Example stores *)

Module examples.

Definition user (id teamName : string) (active : bool) : User :=
  {| UserID := id; Username := id; TeamName := teamName; IsActive := active |}.

Definition backend : Team := {| team_TeamName := "backend"; Members := [] |}.

(** Team "backend" with four active members and no pull request. *)
Definition store0 : MemoryRepository :=
  {| teams := {[ "backend" := backend ]};
     users := <["u1" := user "u1" "backend" true]>
              (<["u2" := user "u2" "backend" true]>
              (<["u3" := user "u3" "backend" true]>
              (<["u4" := user "u4" "backend" true]> ∅)));
     prs := ∅;
     prReviewers := ∅ |}.

Definition world0 : World :=
  {| store := store0; tape := [3; 1; 4; 1; 5; 9; 2; 6]; clock := 100%Z; history := [] |}.

Definition create_pr1 : CreatePRRequest :=
  {| createpr_PullRequestID := "pr-1";
     createpr_PullRequestName := "x";
     createpr_AuthorID := "u1" |}.

Definition pr1 : PullRequest :=
  {| PullRequestID := "pr-1"; PullRequestName := "x"; AuthorID := "u1";
     Status := PRStatusOpen; CreatedAt := Some 100%Z; MergedAt := None |}.

(** [store0] after "u1" opened "pr-1", reviewed by "u3" and "u4". *)
Definition store1 : MemoryRepository :=
  {| teams := teams store0;
     users := users store0;
     prs := {[ "pr-1" := pr1 ]};
     prReviewers := {[ "pr-1" := ["u3"; "u4"] ]} |}.

Definition world1 : World :=
  {| store := store1; tape := [2; 7; 1; 8; 2; 8]; clock := 101%Z; history := [] |}.

Definition reassign_u3 : ReassignRequest :=
  {| reassign_PullRequestID := "pr-1"; OldUserID := "u3" |}.

Definition reassign_u2 : ReassignRequest :=
  {| reassign_PullRequestID := "pr-1"; OldUserID := "u2" |}.

(** [world1] after "pr-1" was merged. *)
Definition world1_merged : World :=
  {| store := {| teams := teams store1; users := users store1;
                 prs := {[ "pr-1" := repo.merged pr1 101%Z ]};
                 prReviewers := prReviewers store1 |};
     tape := [2; 7; 1; 8; 2; 8]; clock := 102%Z; history := [] |}.

(** [world1] without "u2": the team has no member left to take over. *)
Definition world1_short : World :=
  {| store := {| teams := teams store1; users := delete "u2" (users store1);
                 prs := prs store1; prReviewers := prReviewers store1 |};
     tape := [2; 7; 1; 8; 2; 8]; clock := 101%Z; history := [] |}.

Definition deactivate_ghost : DeactivateTeamUsersRequest :=
  {| deactivate_TeamName := "ghost"; UserIDs := ["u2"; "u3"] |}.

Definition deactivate_strangers : DeactivateTeamUsersRequest :=
  {| deactivate_TeamName := "backend"; UserIDs := ["u8"; "u9"] |}.

Definition mobile_member : TeamMember :=
  {| member_UserID := "u2"; member_Username := "Robert"; member_IsActive := false |}.

Definition create_mobile : CreateTeamRequest :=
  {| createteam_TeamName := "mobile"; createteam_Members := [mobile_member] |}.

Definition deactivate_u3 : DeactivateTeamUsersRequest :=
  {| deactivate_TeamName := "backend"; UserIDs := ["u3"; "u9"] |}.

(** [world1] with "u3" already inactive, and still a reviewer of "pr-1". *)
Definition world1_idle : World :=
  {| store := {| teams := teams store1;
                 users := <["u3" := user "u3" "backend" false]> (users store1);
                 prs := prs store1; prReviewers := prReviewers store1 |};
     tape := [2; 7; 1; 8; 2; 8]; clock := 101%Z; history := [] |}.

Definition deactivate_only_u3 : DeactivateTeamUsersRequest :=
  {| deactivate_TeamName := "backend"; UserIDs := ["u3"] |}.

(** The team of the specification's examples: "u1", "u2" and "u3", all
    active, and "pr-1" of "u1" reviewed by "u2" and "u3". *)
Definition store_trio : MemoryRepository :=
  {| teams := {[ "backend" := backend ]};
     users := <["u1" := user "u1" "backend" true]>
              (<["u2" := user "u2" "backend" true]>
              (<["u3" := user "u3" "backend" true]> ∅));
     prs := {[ "pr-1" := pr1 ]};
     prReviewers := {[ "pr-1" := ["u2"; "u3"] ]} |}.

Definition deactivate_u2_u3 : DeactivateTeamUsersRequest :=
  {| deactivate_TeamName := "backend"; UserIDs := ["u2"; "u3"] |}.

(** Team "backend" with the author "u1", the reviewer "u2" and an active
    member whose id is the empty string. *)
Definition world_anonymous : World :=
  {| store := {| teams := {[ "backend" := backend ]};
                 users := <["u1" := user "u1" "backend" true]>
                          (<["u2" := user "u2" "backend" true]>
                          (<["" := user "" "backend" true]> ∅));
                 prs := {[ "pr-1" := pr1 ]};
                 prReviewers := {[ "pr-1" := ["u2"] ]} |};
     tape := []; clock := 101%Z; history := [] |}.

Definition deactivate_u2 : DeactivateTeamUsersRequest :=
  {| deactivate_TeamName := "backend"; UserIDs := ["u2"] |}.

(** [store1] with a fifth active member, "u5": when "u3" leaves "pr-1",
    both "u2" and "u5" may take over. *)
Definition store_five : MemoryRepository :=
  {| teams := teams store1;
     users := <["u5" := user "u5" "backend" true]> (users store1);
     prs := prs store1;
     prReviewers := prReviewers store1 |}.


Definition world_five' : World :=
  {| store := store_five; tape := []; clock := 101%Z; history := [] |}.

End examples.

(** Worlds reached by calls of the services. *)

Module cases.

Definition member (id : string) (active : bool) : TeamMember :=
  {| member_UserID := id; member_Username := id; member_IsActive := active |}.

Definition new_world : World :=
  {| store := NewMemoryRepository; tape := [3; 1; 4; 1; 5; 9; 2; 6]; clock := 100%Z;
     history := [] |}.

Definition add_backend : CreateTeamRequest :=
  {| createteam_TeamName := "backend";
     createteam_Members := [member "u1" true; member "u2" true;
                            member "u3" true; member "u4" true] |}.

(** After team "backend" was created. *)
Definition with_team : World := (usecase.CreateTeam add_backend new_world).2.

(** After "u1" opened "pr-1". *)
Definition with_pr : World := (usecase.CreatePR examples.create_pr1 with_team).2.

(** After "pr-1" was merged. *)
Definition with_merged : World := (usecase.MergePR "pr-1" with_pr).2.

Definition idle_u3 : SetIsActiveRequest :=
  {| setactive_UserID := "u3"; setactive_IsActive := false |}.

(** After team "backend" was created and "u3" set inactive. *)
Definition with_idle : World := (usecase.SetUserActive idle_u3 with_team).2.

Definition deactivate_twice : DeactivateTeamUsersRequest :=
  {| deactivate_TeamName := "backend"; UserIDs := ["u3"; "u9"; "u3"] |}.

(** The tokens of the default configuration. *)
Definition static_auth : StaticTokenAuth :=
  NewStaticTokenAuth "admin-secret-token" "user-secret-token".

(** A request with an [Authorization] header and a body. *)
Definition request {B} (authorization : string) (body : B) : Request B :=
  {| Header := {[ "Authorization" := authorization ]}; Query := ∅; Body := Some body |}.

(** A request with a query parameter and no header. *)
Definition query (key value : string) : Request unit :=
  {| Header := ∅; Query := {[ key := value ]}; Body := None |}.

(** After a team whose name is empty was created, with a member whose id
    is empty. *)
Definition add_nameless : CreateTeamRequest :=
  {| createteam_TeamName := ""; createteam_Members := [member "" true] |}.

Definition with_nameless : World := (usecase.CreateTeam add_nameless with_team).2.

(** Team "backend" of "u1", "u2" and an inactive member whose id is the
    empty string; then "u1" opens "pr-1", which "u2" reviews; then the
    member of empty id is set active. *)
Definition add_anonymous : CreateTeamRequest :=
  {| createteam_TeamName := "backend";
     createteam_Members := [member "u1" true; member "u2" true; member "" false] |}.

Definition activate_anonymous : SetIsActiveRequest :=
  {| setactive_UserID := ""; setactive_IsActive := true |}.

Definition with_anonymous : World :=
  (usecase.SetUserActive activate_anonymous
     (usecase.CreatePR examples.create_pr1
        (usecase.CreateTeam add_anonymous new_world).2).2).2.

End cases.

(** * Properties *)

(** ** The runtime's choices *)

Lemma insert_at_Permutation {A} (n : nat) (x : A) (l : list A) :
  insert_at n x l ≡ₚ x :: l.
Proof.
  unfold insert_at. rewrite <- Permutation_middle.
  by rewrite take_drop.
Qed.

Lemma shuffle_Permutation {A} (picks : list nat) (l : list A) :
  shuffle picks l ≡ₚ l.
Proof.
  revert picks. induction l as [|x l IH]; intros picks; cbn [shuffle]; [done|].
  rewrite insert_at_Permutation. by rewrite IH.
Qed.

Lemma shuffle_length {A} (picks : list nat) (l : list A) :
  length (shuffle picks l) = length l.
Proof. by rewrite shuffle_Permutation. Qed.

(** Every order of a list is the shuffle under some picks. *)
Lemma shuffle_complete {A} (l l' : list A) :
  l' ≡ₚ l → ∃ picks, length picks = length l ∧ shuffle picks l = l'.
Proof.
  revert l'. induction l as [|x l IH]; intros l' Hp.
  - apply Permutation_nil_r in Hp as ->. by exists [].
  - assert (x ∈ l') as Hx by (rewrite Hp; left).
    apply list_elem_of_split in Hx as (l1 & l2 & ->).
    rewrite <- Permutation_middle in Hp. apply Permutation_cons_inv in Hp.
    destruct (IH _ Hp) as (picks & Hlen & Hs).
    exists (length l1 :: picks). split; [simpl; by rewrite Hlen|].
    cbn [shuffle hd tail]. rewrite Hs. unfold insert_at.
    rewrite Nat.mod_small by (rewrite length_app; lia).
    by rewrite take_app_length, drop_app_length.
Qed.

(** ** Reading the store *)

Lemma GetUser_run userID w :
  repo.GetUser userID w =
  (match users (store w) !! userID with
   | Some user => Ok user
   | None => Err ErrUserNotFound
   end, w).
Proof.
  unfold repo.GetUser, bind, get_store. by destruct (users (store w) !! userID).
Qed.

Lemma GetActiveTeamMembers_run teamName exclude w :
  ∃ candidates,
    repo.GetActiveTeamMembers teamName exclude w =
      (Ok candidates,
       after_range_users w)
    ∧ candidates ≡ₚ activeTeamMembers (store w) teamName exclude.
Proof.
  eexists. split; [reflexivity|].
  unfold activeTeamMembers. by rewrite shuffle_Permutation.
Qed.

Lemma activeTeamMembers_lookup r teamName exclude user :
  users_keyed r →
  user ∈ activeTeamMembers r teamName exclude ↔
  users r !! UserID user = Some user ∧ TeamName user = teamName
  ∧ IsActive user = true ∧ UserID user ≠ exclude.
Proof.
  intros Hk. unfold activeTeamMembers.
  rewrite list_elem_of_filter, list_elem_of_fmap. split.
  - intros [HP ([id u] & Heq & Hin)]. apply elem_of_map_to_list in Hin.
    simpl in Heq. subst u. pose proof (Hk _ _ Hin) as Hid. simpl in Hid.
    subst id. tauto.
  - intros (Hl & HP). split; [done|].
    exists (UserID user, user). split; [done|]. by apply elem_of_map_to_list.
Qed.

Lemma activeTeamMembers_NoDup r teamName exclude :
  users_keyed r → NoDup (UserID <$> activeTeamMembers r teamName exclude).
Proof.
  intros Hk. unfold activeTeamMembers.
  assert (UserID <$> (map_to_list (users r)).*2 = (map_to_list (users r)).*1) as Heq.
  { rewrite <- list_fmap_compose. apply list_fmap_ext.
    intros i [id u] Hin. simpl. apply list_elem_of_lookup_2 in Hin.
    apply elem_of_map_to_list in Hin. by apply Hk in Hin. }
  eapply sublist_NoDup; [|apply fmap_sublist, sublist_filter].
  rewrite Heq. apply NoDup_fst_map_to_list.
Qed.

(** ** Selecting reviewers *)

Lemma selected_at_run (candidates : list User) (perm indices : list nat) w :
  perm ≡ₚ seq 0 (length candidates) →
  Forall (λ i, i < length perm) indices →
  ∃ selected,
    usecase.selected_at candidates perm indices w = (Ok selected, w)
    ∧ Forall2 (λ i c, ∃ j, perm !! i = Some j ∧ candidates !! j = Some c) indices selected.
Proof.
  intros Hperm. induction 1 as [|i indices Hi _ IH].
  - by exists [].
  - destruct IH as (rest & Hrun & Hrest).
    apply lookup_lt_is_Some_2 in Hi as [j Hj].
    assert (j < length candidates) as Hlt.
    { apply list_elem_of_lookup_2 in Hj. rewrite Hperm in Hj.
      apply elem_of_seq in Hj. lia. }
    apply lookup_lt_is_Some_2 in Hlt as [c Hc].
    exists (c :: rest). split.
    + cbn [usecase.selected_at]. rewrite Hj, Hc. unfold bind. by rewrite Hrun.
    + constructor; eauto.
Qed.

Lemma selected_NoDup {B} (f : User → B) (candidates selected : list User)
    (perm indices : list nat) :
  NoDup perm → NoDup indices → NoDup (f <$> candidates) →
  Forall2 (λ i c, ∃ j, perm !! i = Some j ∧ candidates !! j = Some c) indices selected →
  NoDup (f <$> selected).
Proof.
  intros Hperm Hind Hcand HF. induction HF as [|i c indices selected (j & Hj & Hc) HF IH].
  - constructor.
  - apply NoDup_cons in Hind as [Hi Hind]. rewrite fmap_cons. apply NoDup_cons.
    split; [|by apply IH].
    intros (c' & Hfc & Hin)%list_elem_of_fmap.
    apply list_elem_of_lookup in Hin as [k Hk].
    destruct (Forall2_lookup_r _ _ _ _ _ HF Hk) as (i' & Hi' & j' & Hj' & Hc').
    assert (j = j') as <-.
    { eapply (NoDup_lookup (f <$> candidates)); [done| |];
        rewrite list_lookup_fmap; [by rewrite Hc|by rewrite Hc', Hfc]. }
    assert (i = i') as <- by (eapply NoDup_lookup; [exact Hperm|done..]).
    apply Hi. by eapply list_elem_of_lookup_2.
Qed.

Lemma selected_elem_of (candidates selected : list User) (perm indices : list nat) c :
  Forall2 (λ i c, ∃ j, perm !! i = Some j ∧ candidates !! j = Some c) indices selected →
  c ∈ selected → c ∈ candidates.
Proof.
  intros HF Hin. apply list_elem_of_lookup in Hin as [k Hk].
  destruct (Forall2_lookup_r _ _ _ _ _ HF Hk) as (i' & Hi' & j' & Hj' & Hc').
  by eapply list_elem_of_lookup_2.
Qed.

(** [selectReviewers] returns: it takes [min n (length candidates)] of the
    candidates, each at most once, and leaves the store alone. *)
Lemma selectReviewers_run candidates n w :
  ∃ selected w',
    usecase.selectReviewers candidates n w = (Ok selected, w')
    ∧ store w' = store w ∧ clock w' = clock w
    ∧ length selected = min n (length candidates)
    ∧ (∀ c, c ∈ selected → c ∈ candidates)
    ∧ (∀ B (f : User → B), NoDup (f <$> candidates) → NoDup (f <$> selected)).
Proof.
  unfold usecase.selectReviewers.
  destruct (decide (length candidates = 0)) as [H0|H0].
  { exists [], w. apply length_zero_iff_nil in H0 as ->.
    repeat split; auto. simpl; lia. }
  destruct (decide (length candidates ≤ n)) as [Hn|Hn].
  { exists candidates, w. repeat split; auto. lia. }
  unfold bind, rand_Perm.
  set (perm := shuffle (tape w) (seq 0 (length candidates))).
  set (w1 := {| store := store w; tape := _; clock := _; history := _ |}).
  assert (perm ≡ₚ seq 0 (length candidates)) as Hperm by apply shuffle_Permutation.
  destruct (selected_at_run candidates perm (seq 0 n) w1 Hperm) as (sel & Hrun & HF).
  { apply Forall_forall. intros i Hi%elem_of_seq.
    rewrite Hperm, length_seq. lia. }
  exists sel, w1. rewrite Hrun. repeat split.
  - apply Forall2_length in HF. rewrite length_seq in HF. lia.
  - intros c. by eapply selected_elem_of.
  - intros B f Hnd. eapply selected_NoDup; [| |done|done].
    + rewrite Hperm. apply NoDup_seq.
    + apply NoDup_seq.
Qed.

(** ** Opening a pull request *)

(** What a successful [CreatePR] did. *)
Lemma CreatePR_inv req w resp w' :
  usecase.CreatePR req w = (Ok resp, w') →
  ∃ author candidates reviewers,
    prs (store w) !! createpr_PullRequestID req = None
    ∧ users (store w) !! createpr_AuthorID req = Some author
    ∧ candidates ≡ₚ activeTeamMembers (store w) (TeamName author) (createpr_AuthorID req)
    ∧ length reviewers = min 2 (length candidates)
    ∧ (∀ c, c ∈ reviewers → c ∈ candidates)
    ∧ (∀ B (f : User → B), NoDup (f <$> candidates) → NoDup (f <$> reviewers))
    ∧ let pr := {| PullRequestID := createpr_PullRequestID req;
                   PullRequestName := createpr_PullRequestName req;
                   AuthorID := createpr_AuthorID req;
                   Status := PRStatusOpen;
                   CreatedAt := Some (clock w);
                   MergedAt := None |} in
      resp = usecase.response pr (UserID <$> reviewers)
      ∧ store w' =
          {| teams := teams (store w); users := users (store w);
             prs := <[createpr_PullRequestID req := pr]> (prs (store w));
             prReviewers := <[createpr_PullRequestID req := UserID <$> reviewers]>
                              (prReviewers (store w)) |}.
Proof.
  unfold usecase.CreatePR, bind at 1. unfold repo.PRExists, bind, get_store, ret.
  destruct (prs (store w) !! createpr_PullRequestID req) as [pr0|] eqn:Hpr.
  { rewrite bool_decide_eq_true_2 by eauto. discriminate. }
  rewrite bool_decide_eq_false_2 by (by intros [? ?]).
  rewrite GetUser_run.
  destruct (users (store w) !! createpr_AuthorID req) as [author|] eqn:Hau; [|discriminate].
  destruct (GetActiveTeamMembers_run (TeamName author) (createpr_AuthorID req) w)
    as (candidates & -> & Hcand).
  match goal with |- context [usecase.selectReviewers _ _ ?w1] =>
    destruct (selectReviewers_run candidates 2 w1) as (sel & w2 & -> & Hst & Hck & Hlen & Hsub & Hnd)
  end.
  simpl in Hst, Hck.
  unfold time_Now, repo.CreatePR, bind, get_store, put_store. simpl.
  rewrite Hst, Hpr, Hck. intros [= <- <-].
  by exists author, candidates, sel.
Qed.

(** C1.  A successful [CreatePR] returns [min 2 k] reviewers, where [k] is the
    number of active members of the author's team other than the author; the
    author is not among them, and no user id occurs twice. *)
Theorem CreatePR_reviewer_set req w resp w' :
  users_keyed (store w) →
  usecase.CreatePR req w = (Ok resp, w') →
  ∃ author,
    users (store w) !! createpr_AuthorID req = Some author
    ∧ (length (AssignedReviewers resp) =
       min 2 (length (activeTeamMembers (store w) (TeamName author) (createpr_AuthorID req))))
    ∧ (createpr_AuthorID req ∉ AssignedReviewers resp)
    ∧ NoDup (AssignedReviewers resp).
Proof.
  intros Hk Hrun.
  apply CreatePR_inv in Hrun
    as (author & candidates & reviewers & _ & Hau & Hcand & Hlen & Hsub & Hnd & -> & _).
  exists author. simpl. repeat split; [done| | |].
  - by rewrite length_fmap, Hlen, Hcand.
  - intros (c & Hid & Hin)%list_elem_of_fmap.
    apply Hsub in Hin. rewrite Hcand in Hin.
    apply activeTeamMembers_lookup in Hin as (_ & _ & _ & Hne); [|done].
    by apply Hne.
  - apply Hnd. rewrite Hcand. by apply activeTeamMembers_NoDup.
Qed.

Lemma CreatePR_reviewer_set_witness :
  users_keyed (store examples.world0)
  ∧ ∃ resp w',
      usecase.CreatePR examples.create_pr1 examples.world0 = (Ok resp, w')
      ∧ AssignedReviewers resp = ["u3"; "u4"]
      ∧ ∃ author,
          users (store examples.world0) !! "u1" = Some author
          ∧ (length (AssignedReviewers resp) =
             min 2 (length (activeTeamMembers (store examples.world0) (TeamName author) "u1")))
          ∧ ("u1" ∉ AssignedReviewers resp)
          ∧ NoDup (AssignedReviewers resp).
Proof.
  assert (users_keyed (store examples.world0)) as Hk.
  { apply map_Forall_to_list. vm_compute. repeat constructor. }
  split; [exact Hk|].
  eexists _, _.
  eassert (usecase.CreatePR examples.create_pr1 examples.world0 = (Ok _, _)) as Hrun.
  { vm_compute. reflexivity. }
  split; [exact Hrun|]. split; [reflexivity|].
  exact (CreatePR_reviewer_set _ _ _ _ Hk Hrun).
Defined.

(** ** Merging *)

Lemma GetPRWithReviewers_run prID w :
  repo.GetPRWithReviewers prID w =
  (match prs (store w) !! prID with
   | Some pr => Ok (pr, default [] (prReviewers (store w) !! prID))
   | None => Err ErrPRNotFound
   end, w).
Proof.
  unfold repo.GetPRWithReviewers, bind, get_store. by destruct (prs (store w) !! prID).
Qed.

Lemma MergePR_merged prID w pr :
  prs (store w) !! prID = Some pr →
  Status pr = PRStatusMerged →
  usecase.MergePR prID w =
  (Ok (usecase.response pr (default [] (prReviewers (store w) !! prID))), w).
Proof.
  intros Hpr Hm. unfold usecase.MergePR, bind at 1.
  rewrite GetPRWithReviewers_run, Hpr. by rewrite decide_True.
Qed.

Lemma MergePR_open prID w pr :
  prs (store w) !! prID = Some pr →
  Status pr ≠ PRStatusMerged →
  usecase.MergePR prID w =
  (Ok (usecase.response (repo.merged pr (clock w)) (default [] (prReviewers (store w) !! prID))),
   let merged := {| teams := teams (store w); users := users (store w);
                    prs := <[prID := repo.merged pr (clock w)]> (prs (store w));
                    prReviewers := prReviewers (store w) |} in
   {| store := merged; tape := tape w; clock := (clock w + 1)%Z;
      history := history w ++ [merged] |}).
Proof.
  intros Hpr Hm. unfold usecase.MergePR, bind at 1.
  rewrite GetPRWithReviewers_run, Hpr. rewrite decide_False by done.
  unfold repo.MergePR, bind, get_store, time_Now, put_store. rewrite Hpr.
  rewrite GetPRWithReviewers_run. simpl. by rewrite lookup_insert_eq.
Qed.

(** C7.  [MergePR] called twice on an existing pull request succeeds twice
    with one and the same response, whose status is MERGED and which carries
    the merge time and the reviewers of the first call; the second call
    changes nothing at all. *)
Theorem MergePR_idempotent prID w pr :
  prs (store w) !! prID = Some pr →
  ∃ resp w1,
    usecase.MergePR prID w = (Ok resp, w1)
    ∧ usecase.MergePR prID w1 = (Ok resp, w1)
    ∧ resp_Status resp = PRStatusMerged
    ∧ AssignedReviewers resp = default [] (prReviewers (store w) !! prID)
    ∧ (∃ pr1, prs (store w1) !! prID = Some pr1
              ∧ Status pr1 = PRStatusMerged
              ∧ MergedAt pr1 = resp_MergedAt resp).
Proof.
  intros Hpr.
  destruct (decide (Status pr = PRStatusMerged)) as [Hm|Hm].
  - rewrite (MergePR_merged _ _ _ Hpr Hm). eexists _, _. split; [reflexivity|].
    rewrite (MergePR_merged _ _ _ Hpr Hm). simpl.
    split; [reflexivity|]. split; [done|]. split; [done|]. by exists pr.
  - rewrite (MergePR_open _ _ _ Hpr Hm). eexists _, _. split; [reflexivity|].
    split; [|simpl; rewrite lookup_insert_eq; split; [done|]; split; [done|];
             by eexists].
    erewrite MergePR_merged; [reflexivity| |reflexivity].
    simpl. by rewrite lookup_insert_eq.
Qed.

Lemma MergePR_idempotent_witness :
  ∃ resp w1,
    usecase.MergePR "pr-1" examples.world1 = (Ok resp, w1)
    ∧ usecase.MergePR "pr-1" w1 = (Ok resp, w1)
    ∧ resp_Status resp = PRStatusMerged
    ∧ AssignedReviewers resp = default [] (prReviewers (store examples.world1) !! "pr-1")
    ∧ (∃ pr1, prs (store w1) !! "pr-1" = Some pr1
              ∧ Status pr1 = PRStatusMerged
              ∧ MergedAt pr1 = resp_MergedAt resp).
Proof.
  apply (MergePR_idempotent "pr-1" examples.world1 examples.pr1).
  vm_compute. reflexivity.
Defined.

(** ** Replacing one reviewer *)

Lemma IsReviewerAssigned_run prID userID w :
  repo.IsReviewerAssigned prID userID w =
  (Ok (bool_decide (userID ∈ reviewersOf (store w) prID)), w).
Proof.
  unfold repo.IsReviewerAssigned, reviewersOf, bind, get_store.
  by destruct (prReviewers (store w) !! prID) as [l|].
Qed.

Lemma remove_first_elem_of (x y : string) (l : list string) :
  y ∈ repo.remove_first x l → y ∈ l.
Proof.
  induction l as [|z l IH]; simpl; [done|].
  destruct (decide (z = x)); [by right|].
  intros [->|Hin]%elem_of_cons; [left|right; auto].
Qed.

Lemma remove_first_NoDup (x : string) (l : list string) :
  NoDup l → NoDup (repo.remove_first x l) ∧ x ∉ repo.remove_first x l.
Proof.
  induction 1 as [|z l Hz Hnd [IH1 IH2]]; simpl.
  - split; [constructor|apply not_elem_of_nil].
  - destruct (decide (z = x)) as [->|Hne]; [done|].
    split.
    + constructor; [|done]. intros Hin%remove_first_elem_of. done.
    + intros [->|Hin]%elem_of_cons; done.
Qed.

(** The candidates [ReassignReviewer] keeps are those of the pool. *)
Lemma filterAvailableReviewers_pool r pr reviewers old oldUserID candidates :
  candidates ≡ₚ activeTeamMembers r (TeamName old) oldUserID →
  usecase.filterAvailableReviewers candidates pr reviewers
  ≡ₚ replacementPool r pr reviewers old oldUserID.
Proof.
  intros Hc. unfold usecase.filterAvailableReviewers, replacementPool. by rewrite Hc.
Qed.

(** What [ReassignReviewer] does, case by case. *)
Lemma ReassignReviewer_run req w :
  let prID := reassign_PullRequestID req in
  match prs (store w) !! prID with
  | None => usecase.ReassignReviewer req w = (Err ErrPRNotFound, w)
  | Some pr =>
      if decide (Status pr = PRStatusMerged)
      then usecase.ReassignReviewer req w = (Err ErrPRMerged, w)
      else if decide (OldUserID req ∈ reviewersOf (store w) prID) then
        match users (store w) !! OldUserID req with
        | None => usecase.ReassignReviewer req w = (Err ErrUserNotFound, w)
        | Some old =>
            ∃ candidates,
              candidates ≡ₚ activeTeamMembers (store w) (TeamName old) (OldUserID req)
              ∧ let available :=
                  usecase.filterAvailableReviewers candidates pr (reviewersOf (store w) prID) in
                let w1 := after_range_users w in
                if decide (length available = 0)
                then usecase.ReassignReviewer req w = (Err ErrNoActiveCandidate, w1)
                else ∃ newReviewer,
                  newReviewer ∈ available
                  ∧ let revs := repo.remove_first (OldUserID req) (reviewersOf (store w) prID)
                                ++ [UserID newReviewer] in
                    let removed :=
                      {| teams := teams (store w); users := users (store w);
                         prs := prs (store w);
                         prReviewers :=
                           <[prID := repo.remove_first (OldUserID req)
                                       (reviewersOf (store w) prID)]> (prReviewers (store w)) |} in
                    let added :=
                      {| teams := teams (store w); users := users (store w);
                         prs := prs (store w);
                         prReviewers := <[prID := revs]> (prReviewers (store w)) |} in
                    usecase.ReassignReviewer req w =
                    (Ok {| PR := usecase.response pr revs; ReplacedBy := UserID newReviewer |},
                     {| store := added; tape := tail (tape w1); clock := clock w;
                        history := history w ++ [removed; added] |})
        end
      else usecase.ReassignReviewer req w = (Err ErrReviewerNotAssigned, w)
  end.
Proof.
  intros prID.
  destruct (prs (store w) !! prID) as [pr|] eqn:Hpr.
  2:{ unfold usecase.ReassignReviewer, bind. fold prID.
      by rewrite GetPRWithReviewers_run, Hpr. }
  destruct (decide (Status pr = PRStatusMerged)) as [Hm|Hm].
  { unfold usecase.ReassignReviewer. unfold bind at 1. fold prID.
    rewrite GetPRWithReviewers_run, Hpr. by rewrite decide_True. }
  destruct (decide (OldUserID req ∈ reviewersOf (store w) prID)) as [Hin|Hin].
  2:{ unfold usecase.ReassignReviewer. unfold bind at 1. fold prID.
      rewrite GetPRWithReviewers_run, Hpr. rewrite decide_False by done.
      unfold bind at 1. rewrite IsReviewerAssigned_run.
      by rewrite bool_decide_eq_false_2. }
  destruct (users (store w) !! OldUserID req) as [old|] eqn:Hold.
  2:{ unfold usecase.ReassignReviewer. unfold bind at 1. fold prID.
      rewrite GetPRWithReviewers_run, Hpr. rewrite decide_False by done.
      unfold bind at 1. rewrite IsReviewerAssigned_run.
      rewrite bool_decide_eq_true_2 by done. cbn [negb].
      unfold bind at 1. by rewrite GetUser_run, Hold. }
  destruct (GetActiveTeamMembers_run (TeamName old) (OldUserID req) w)
    as (candidates & Hrun & Hcand).
  exists candidates. split; [done|]. cbv zeta.
  set (available := usecase.filterAvailableReviewers _ _ _).
  assert (usecase.ReassignReviewer req w =
            (if decide (length available = 0) then fail ErrNoActiveCandidate
             else let* k := rand_Intn (length available) in
                  match available !! k with
                  | None => panic
                  | Some newReviewer =>
                      let* _ := repo.RemoveReviewer prID (OldUserID req) in
                      let* _ := repo.AddReviewer prID (UserID newReviewer) in
                      let* (updatedPR, revs) := repo.GetPRWithReviewers prID in
                      ret {| PR := usecase.response updatedPR revs;
                             ReplacedBy := UserID newReviewer |}
                  end)
              (after_range_users w)) as Hstep.
  { unfold usecase.ReassignReviewer. unfold bind at 1. fold prID.
    rewrite GetPRWithReviewers_run, Hpr. rewrite decide_False by done.
    unfold bind at 1. rewrite IsReviewerAssigned_run.
    rewrite bool_decide_eq_true_2 by done. cbn [negb].
    unfold bind at 1. rewrite GetUser_run, Hold.
    unfold bind at 1. by rewrite Hrun. }
  rewrite Hstep. clear Hstep.
  destruct (decide (length available = 0)) as [H0|H0]; [done|].
  unfold bind at 1. unfold rand_Intn.
  destruct (length available) as [|n] eqn:Hlen; [done|].
  unfold after_range_users. cbn [tape store clock history].
  set (k := hd 0 _ `mod` S n).
  assert (k < length available) as Hk.
  { rewrite Hlen. apply Nat.mod_upper_bound. lia. }
  apply lookup_lt_is_Some_2 in Hk as [c Hc]. rewrite Hc.
  exists c. split; [by eapply list_elem_of_lookup_2|].
  unfold repo.RemoveReviewer, repo.AddReviewer, bind, get_store, put_store, ret.
  cbn [store tape clock history]. fold (reviewersOf (store w) prID).
  rewrite decide_True by done. cbn [store tape clock history prReviewers prs].
  rewrite GetPRWithReviewers_run. cbn [store tape clock history prReviewers prs].
  rewrite Hpr, !lookup_insert_eq. cbn [default]. rewrite insert_insert_eq.
  by rewrite <- app_assoc.
Qed.

(** C5.  [ReassignReviewer] fails with [ErrPRNotFound] when the pull request
    is absent; else with [ErrPRMerged] when its status is MERGED; else with
    [ErrReviewerNotAssigned] when the old reviewer is not one of its
    reviewers; else, the old reviewer being a user, with
    [ErrNoActiveCandidate] when the pool is empty.  Whenever it fails the
    store is the one it started from. *)
Theorem ReassignReviewer_failures req w :
  (prs (store w) !! reassign_PullRequestID req = None →
   usecase.ReassignReviewer req w = (Err ErrPRNotFound, w))
  ∧ (∀ pr, prs (store w) !! reassign_PullRequestID req = Some pr →
           Status pr = PRStatusMerged →
           usecase.ReassignReviewer req w = (Err ErrPRMerged, w))
  ∧ (∀ pr, prs (store w) !! reassign_PullRequestID req = Some pr →
           Status pr ≠ PRStatusMerged →
           OldUserID req ∉ reviewersOf (store w) (reassign_PullRequestID req) →
           usecase.ReassignReviewer req w = (Err ErrReviewerNotAssigned, w))
  ∧ (∀ pr old, prs (store w) !! reassign_PullRequestID req = Some pr →
               Status pr ≠ PRStatusMerged →
               OldUserID req ∈ reviewersOf (store w) (reassign_PullRequestID req) →
               users (store w) !! OldUserID req = Some old →
               replacementPool (store w) pr (reviewersOf (store w) (reassign_PullRequestID req)) old (OldUserID req)
               = [] →
               ∃ w', usecase.ReassignReviewer req w = (Err ErrNoActiveCandidate, w')
                     ∧ store w' = store w)
  ∧ (∀ e w', usecase.ReassignReviewer req w = (Err e, w') → store w' = store w).
Proof.
  set (prID := reassign_PullRequestID req).
  pose proof (ReassignReviewer_run req w) as Hrun. cbv zeta in Hrun.
  fold prID in Hrun.
  split; [|split; [|split; [|split]]].
  - intros Hpr. by rewrite Hpr in Hrun.
  - intros pr Hpr Hm. rewrite Hpr in Hrun. by rewrite decide_True in Hrun.
  - intros pr Hpr Hm Hin. rewrite Hpr in Hrun.
    rewrite decide_False in Hrun by done. by rewrite decide_False in Hrun.
  - intros pr old Hpr Hm Hin Hold Hpool. rewrite Hpr in Hrun.
    rewrite decide_False in Hrun by done. rewrite decide_True, Hold in Hrun by done.
    destruct Hrun as (candidates & Hcand & Hrun).
    rewrite decide_True in Hrun.
    + eexists. split; [exact Hrun|done].
    + by rewrite (filterAvailableReviewers_pool _ _ _ _ _ _ Hcand), Hpool.
  - intros e w' He.
    destruct (prs (store w) !! prID) as [pr|]; [|congruence].
    destruct (decide (Status pr = PRStatusMerged)); [congruence|].
    destruct (decide (OldUserID req ∈ reviewersOf (store w) prID)); [|congruence].
    destruct (users (store w) !! OldUserID req) as [old|]; [|congruence].
    destruct Hrun as (candidates & Hcand & Hrun).
    destruct (decide _).
    + rewrite Hrun in He. by injection He as _ <-.
    + destruct Hrun as (c & _ & Hrun). congruence.
Qed.

Lemma filter_none {A} (P : A → Prop) `{∀ x, Decision (P x)} (l : list A) :
  (∀ x, x ∈ l → ¬ P x) → filter P l = [].
Proof.
  induction l as [|y l IH]; intros Hl; [done|].
  rewrite filter_cons_False by (apply Hl; left).
  apply IH. intros x Hx. apply Hl. by right.
Qed.

(** C4.  After a successful [ReassignReviewer] the returned reviewers do not
    contain the old reviewer and contain the new one exactly once; the new
    reviewer is not the author, was not a reviewer before the call, and is an
    active member of the old reviewer's team. *)
Theorem ReassignReviewer_success req w resp w' :
  users_keyed (store w) →
  NoDup (reviewersOf (store w) (reassign_PullRequestID req)) →
  usecase.ReassignReviewer req w = (Ok resp, w') →
  ∃ pr old new,
    prs (store w) !! reassign_PullRequestID req = Some pr
    ∧ users (store w) !! OldUserID req = Some old
    ∧ users (store w) !! ReplacedBy resp = Some new
    ∧ (OldUserID req ∉ AssignedReviewers (PR resp))
    ∧ length (filter (λ id, id = ReplacedBy resp) (AssignedReviewers (PR resp))) = 1
    ∧ ReplacedBy resp ≠ AuthorID pr
    ∧ (ReplacedBy resp ∉ reviewersOf (store w) (reassign_PullRequestID req))
    ∧ IsActive new = true
    ∧ TeamName new = TeamName old
    ∧ reviewersOf (store w') (reassign_PullRequestID req) = AssignedReviewers (PR resp).
Proof.
  intros Hk Hnd Hok. set (prID := reassign_PullRequestID req) in *.
  pose proof (ReassignReviewer_run req w) as Hrun. cbv zeta in Hrun. fold prID in Hrun.
  destruct (prs (store w) !! prID) as [pr|]; [|congruence].
  destruct (decide (Status pr = PRStatusMerged)); [congruence|].
  destruct (decide (OldUserID req ∈ reviewersOf (store w) prID)) as [Hold|]; [|congruence].
  destruct (users (store w) !! OldUserID req) as [old|]; [|congruence].
  destruct Hrun as (candidates & Hcand & Hrun).
  destruct (decide _); [congruence|].
  destruct Hrun as (c & Hc & Hrun). rewrite Hrun in Hok. injection Hok as <- <-.
  apply list_elem_of_filter in Hc as [[Hau Hrev] Hc]. rewrite Hcand in Hc.
  apply activeTeamMembers_lookup in Hc as (Hlook & Hteam & Hact & Hne); [|done].
  exists pr, old, c. cbn [PR ReplacedBy AssignedReviewers usecase.response].
  destruct (remove_first_NoDup (OldUserID req) _ Hnd) as [Hnd' Hout].
  repeat split; try done.
  - rewrite elem_of_app, list_elem_of_singleton. intros [?|?]; [done|].
    by apply Hne.
  - rewrite filter_app, length_app.
    rewrite filter_none.
    + rewrite filter_cons_True by done. done.
    + intros id Hin%remove_first_elem_of ->. done.
  - unfold reviewersOf at 1. cbn [store prReviewers]. by rewrite lookup_insert_eq.
Qed.

Lemma ReassignReviewer_success_witness :
  users_keyed (store examples.world1)
  ∧ NoDup (reviewersOf (store examples.world1) "pr-1")
  ∧ ∃ resp w',
      usecase.ReassignReviewer examples.reassign_u3 examples.world1 = (Ok resp, w')
      ∧ ReplacedBy resp = "u2"
      ∧ AssignedReviewers (PR resp) = ["u4"; "u2"]
      ∧ ∃ pr old new,
          prs (store examples.world1) !! "pr-1" = Some pr
          ∧ users (store examples.world1) !! "u3" = Some old
          ∧ users (store examples.world1) !! ReplacedBy resp = Some new
          ∧ ("u3" ∉ AssignedReviewers (PR resp))
          ∧ length (filter (λ id, id = ReplacedBy resp) (AssignedReviewers (PR resp))) = 1
          ∧ ReplacedBy resp ≠ AuthorID pr
          ∧ (ReplacedBy resp ∉ reviewersOf (store examples.world1) "pr-1")
          ∧ IsActive new = true
          ∧ TeamName new = TeamName old
          ∧ reviewersOf (store w') "pr-1" = AssignedReviewers (PR resp).
Proof.
  assert (users_keyed (store examples.world1)) as Hk.
  { apply map_Forall_to_list. vm_compute. repeat constructor. }
  assert (NoDup (reviewersOf (store examples.world1) "pr-1")) as Hnd.
  { apply (bool_decide_unpack _). vm_compute. exact I. }
  split; [exact Hk|]. split; [exact Hnd|].
  eexists _, _.
  eassert (usecase.ReassignReviewer examples.reassign_u3 examples.world1 = (Ok _, _)) as Hrun.
  { vm_compute. reflexivity. }
  split; [exact Hrun|]. split; [reflexivity|]. split; [reflexivity|].
  exact (ReassignReviewer_success examples.reassign_u3 _ _ _ Hk Hnd Hrun).
Defined.

Lemma ReassignReviewer_failures_witness :
  usecase.ReassignReviewer examples.reassign_u3 examples.world0
    = (Err ErrPRNotFound, examples.world0)
  ∧ usecase.ReassignReviewer examples.reassign_u2 examples.world1_merged
    = (Err ErrPRMerged, examples.world1_merged)
  ∧ usecase.ReassignReviewer examples.reassign_u2 examples.world1
    = (Err ErrReviewerNotAssigned, examples.world1)
  ∧ ∃ w', usecase.ReassignReviewer examples.reassign_u3 examples.world1_short
          = (Err ErrNoActiveCandidate, w')
          ∧ store w' = store examples.world1_short.
Proof.
  split; [|split; [|split]].
  - apply (proj1 (ReassignReviewer_failures examples.reassign_u3 examples.world0)).
    vm_compute. reflexivity.
  - apply (proj1 (proj2 (ReassignReviewer_failures examples.reassign_u2 examples.world1_merged))
             (repo.merged examples.pr1 101%Z)).
    + vm_compute. reflexivity.
    + reflexivity.
  - apply (proj1 (proj2 (proj2 (ReassignReviewer_failures examples.reassign_u2 examples.world1)))
             examples.pr1).
    + vm_compute. reflexivity.
    + vm_compute. discriminate.
    + apply (bool_decide_unpack _). vm_compute. exact I.
  - apply (proj1 (proj2 (proj2 (proj2
             (ReassignReviewer_failures examples.reassign_u3 examples.world1_short))))
             examples.pr1 (examples.user "u3" "backend" true)).
    + vm_compute. reflexivity.
    + vm_compute. discriminate.
    + apply (bool_decide_unpack _). vm_compute. exact I.
    + vm_compute. reflexivity.
    + vm_compute. reflexivity.
Defined.

(** ** Deactivating team members: validation *)

Lemma GetTeam_run teamName w :
  match teams (store w) !! teamName with
  | None => repo.GetTeam teamName w = (Err ErrTeamNotFound, w)
  | Some _ => ∃ team, repo.GetTeam teamName w = (Ok team, after_range_users w)
  end.
Proof.
  unfold repo.GetTeam, bind, get_store.
  destruct (teams (store w) !! teamName) as [team|]; [|done].
  eexists. reflexivity.
Qed.

Lemma filterValidTeamUsers_loop_run teamName userIDs acc w :
  usecase.filterValidTeamUsers_loop teamName userIDs acc w =
  (Ok (acc ++ validUserIDs (store w) teamName userIDs), w).
Proof.
  revert acc. induction userIDs as [|userID rest IH]; intros acc.
  - simpl. unfold ret. by rewrite app_nil_r.
  - cbn [usecase.filterValidTeamUsers_loop]. unfold bind, attempt.
    rewrite GetUser_run. unfold validUserIDs. rewrite filter_cons.
    destruct (users (store w) !! userID) as [user|] eqn:Hu; simpl.
    + destruct (decide (TeamName user ≠ teamName)) as [Hne|Heq].
      * rewrite decide_False by congruence. apply IH.
      * apply dec_stable in Heq. rewrite decide_True by congruence.
        rewrite IH. by rewrite <- app_assoc.
    + apply IH.
Qed.

Lemma getValidTeamUserIDsForDeactivation_run req w :
  match teams (store w) !! deactivate_TeamName req with
  | None =>
      usecase.getValidTeamUserIDsForDeactivation req w = (Err ErrTeamNotFound, w)
  | Some _ =>
      usecase.getValidTeamUserIDsForDeactivation req w =
      (match validUserIDs (store w) (deactivate_TeamName req) (UserIDs req) with
       | [] => Err (NewAppError ErrCodeBadRequest "no valid users to deactivate")
       | ids => Ok ids
       end, after_range_users w)
  end.
Proof.
  pose proof (GetTeam_run (deactivate_TeamName req) w) as Hteam.
  unfold usecase.getValidTeamUserIDsForDeactivation, usecase.filterValidTeamUsers, bind.
  destruct (teams (store w) !! deactivate_TeamName req) as [team|].
  - destruct Hteam as [team' ->]. rewrite filterValidTeamUsers_loop_run.
    cbn [app store after_range_users].
    by destruct (validUserIDs (store w) (deactivate_TeamName req) (UserIDs req)).
  - by rewrite Hteam.
Qed.

(** C8.  For a team that does not exist [DeactivateTeamUsers] fails with
    [ErrTeamNotFound], whose code is NOT_FOUND and not BAD_REQUEST, whatever
    the requested ids are, and the world is untouched. *)
Theorem DeactivateTeamUsers_team_not_found req w :
  teams (store w) !! deactivate_TeamName req = None →
  usecase.DeactivateTeamUsers req w = (Err ErrTeamNotFound, w)
  ∧ Code ErrTeamNotFound = ErrCodeNotFound
  ∧ Code ErrTeamNotFound ≠ ErrCodeBadRequest.
Proof.
  intros Hteam. split; [|done].
  pose proof (getValidTeamUserIDsForDeactivation_run req w) as Hrun.
  rewrite Hteam in Hrun. unfold usecase.DeactivateTeamUsers, bind. by rewrite Hrun.
Qed.

Lemma DeactivateTeamUsers_team_not_found_witness :
  usecase.DeactivateTeamUsers examples.deactivate_ghost examples.world1
  = (Err ErrTeamNotFound, examples.world1)
  ∧ Code ErrTeamNotFound = ErrCodeNotFound
  ∧ Code ErrTeamNotFound ≠ ErrCodeBadRequest.
Proof.
  apply (DeactivateTeamUsers_team_not_found examples.deactivate_ghost examples.world1).
  vm_compute. reflexivity.
Defined.

(** C6, as the claim states it, fails: no requested id names a user of the
    team "ghost", yet the operation does not fail with BAD_REQUEST. *)
Lemma DeactivateTeamUsers_no_valid_users_counterexample :
  validUserIDs (store examples.world1) "ghost" ["u2"; "u3"] = []
  ∧ usecase.DeactivateTeamUsers examples.deactivate_ghost examples.world1
    ≠ (Err (NewAppError ErrCodeBadRequest "no valid users to deactivate"), examples.world1)
  ∧ ¬ (∀ req w,
         validUserIDs (store w) (deactivate_TeamName req) (UserIDs req) = [] →
         ∃ w', usecase.DeactivateTeamUsers req w
               = (Err (NewAppError ErrCodeBadRequest "no valid users to deactivate"), w')
               ∧ store w' = store w).
Proof.
  split; [by vm_compute|]. split.
  - vm_compute. discriminate.
  - intros H. destruct (H examples.deactivate_ghost examples.world1) as (w' & Hrun & _).
    + by vm_compute.
    + vm_compute in Hrun. discriminate.
Qed.

(** C6, amended.  When the team exists, [DeactivateTeamUsers] keeps exactly
    the requested ids that name a user of that team; if none is left it
    fails with BAD_REQUEST, "no valid users to deactivate", and the store is
    unchanged. *)
Theorem DeactivateTeamUsers_no_valid_users req w :
  is_Some (teams (store w) !! deactivate_TeamName req) →
  usecase.filterValidTeamUsers req w
  = (Ok (validUserIDs (store w) (deactivate_TeamName req) (UserIDs req)), w)
  ∧ (∀ userID,
       userID ∈ validUserIDs (store w) (deactivate_TeamName req) (UserIDs req) ↔
       userID ∈ UserIDs req
       ∧ ∃ user, users (store w) !! userID = Some user
                 ∧ TeamName user = deactivate_TeamName req)
  ∧ (validUserIDs (store w) (deactivate_TeamName req) (UserIDs req) = [] →
     ∃ w', usecase.DeactivateTeamUsers req w
           = (Err (NewAppError ErrCodeBadRequest "no valid users to deactivate"), w')
           ∧ store w' = store w).
Proof.
  intros [team Hteam]. split; [|split].
  - unfold usecase.filterValidTeamUsers. by rewrite filterValidTeamUsers_loop_run.
  - intros userID. unfold validUserIDs. rewrite list_elem_of_filter.
    split.
    + intros [Hv Hin]. split; [done|].
      destruct (users (store w) !! userID) as [user|]; [|done].
      exists user. split; [done|]. by injection Hv.
    + intros [Hin (user & Hu & Ht)]. split; [|done]. by rewrite Hu, <- Ht.
  - intros Hnone.
    pose proof (getValidTeamUserIDsForDeactivation_run req w) as Hrun.
    rewrite Hteam, Hnone in Hrun. unfold usecase.DeactivateTeamUsers, bind.
    rewrite Hrun. by eexists.
Qed.

Lemma DeactivateTeamUsers_no_valid_users_witness :
  usecase.filterValidTeamUsers examples.deactivate_strangers examples.world1
  = (Ok [], examples.world1)
  ∧ ∃ w', usecase.DeactivateTeamUsers examples.deactivate_strangers examples.world1
          = (Err (NewAppError ErrCodeBadRequest "no valid users to deactivate"), w')
          ∧ store w' = store examples.world1.
Proof.
  assert (is_Some (teams (store examples.world1)
                     !! deactivate_TeamName examples.deactivate_strangers)) as Hteam.
  { vm_compute. eauto. }
  destruct (DeactivateTeamUsers_no_valid_users
              examples.deactivate_strangers examples.world1 Hteam) as (H1 & _ & H3).
  split; [exact H1|]. apply H3. vm_compute. reflexivity.
Defined.

(** ** Creating a team *)

Lemma CreateTeam_run req w :
  usecase.CreateTeam req w =
  match teams (store w) !! createteam_TeamName req with
  | Some _ => (Err ErrTeamAlreadyExists, w)
  | None =>
      (Ok {| teamresp_TeamName := createteam_TeamName req;
             teamresp_Members := createteam_Members req |},
       {| store :=
            {| teams := <[createteam_TeamName req :=
                            {| team_TeamName := createteam_TeamName req; Members := [] |}]>
                          (teams (store w));
               users := foldl (λ us m,
                                 <[member_UserID m :=
                                     {| UserID := member_UserID m;
                                        Username := member_Username m;
                                        TeamName := createteam_TeamName req;
                                        IsActive := member_IsActive m |}]> us)
                              (users (store w)) (createteam_Members req);
               prs := prs (store w);
               prReviewers := prReviewers (store w) |};
          tape := tape w; clock := clock w;
          history :=
            history w
            ++ [{| teams := <[createteam_TeamName req :=
                                {| team_TeamName := createteam_TeamName req;
                                   Members := [] |}]>
                              (teams (store w));
                   users := foldl (λ us m,
                                     <[member_UserID m :=
                                         {| UserID := member_UserID m;
                                            Username := member_Username m;
                                            TeamName := createteam_TeamName req;
                                            IsActive := member_IsActive m |}]> us)
                                  (users (store w)) (createteam_Members req);
                   prs := prs (store w);
                   prReviewers := prReviewers (store w) |}] |})
  end.
Proof.
  unfold usecase.CreateTeam, repo.TeamExists, bind at 1. unfold bind at 1.
  unfold get_store at 1, ret at 1.
  destruct (teams (store w) !! createteam_TeamName req) as [team|] eqn:Hteam.
  { by rewrite bool_decide_eq_true_2 by eauto. }
  rewrite bool_decide_eq_false_2 by (by intros [? ?]).
  unfold repo.CreateTeam, bind, get_store, put_store, ret. cbn [team_TeamName].
  rewrite Hteam.
  match goal with |- context [foldl ?f (users (store w)) (?g <$> createteam_Members req)] =>
    assert (∀ us, foldl f us (g <$> createteam_Members req)
                  = foldl (λ us m,
                             <[member_UserID m :=
                                 {| UserID := member_UserID m;
                                    Username := member_Username m;
                                    TeamName := createteam_TeamName req;
                                    IsActive := member_IsActive m |}]> us)
                          us (createteam_Members req)) as ->
  end; [|done].
  induction (createteam_Members req) as [|m ms IH]; intros us; [done|].
  cbn [fmap list_fmap foldl]. by rewrite IH.
Qed.

Lemma foldl_insert_lookup_ne {A B} (key : A → string) (val : A → B)
    (l : list A) (m : gmap string B) (k : string) :
  k ∉ key <$> l →
  foldl (λ acc x, <[key x := val x]> acc) m l !! k = m !! k.
Proof.
  revert m. induction l as [|x l IH]; intros m Hk; [done|].
  rewrite fmap_cons in Hk. apply not_elem_of_cons in Hk as [Hne Hk].
  cbn [foldl]. rewrite IH by done. by rewrite lookup_insert_ne.
Qed.

Lemma foldl_insert_lookup {A B} (key : A → string) (val : A → B)
    (l : list A) (m : gmap string B) (x : A) :
  NoDup (key <$> l) → x ∈ l →
  foldl (λ acc x, <[key x := val x]> acc) m l !! key x = Some (val x).
Proof.
  revert m. induction l as [|y l IH]; intros m Hnd Hin.
  - by apply elem_of_nil in Hin.
  - rewrite fmap_cons in Hnd. apply NoDup_cons in Hnd as [Hy Hnd].
    cbn [foldl]. apply elem_of_cons in Hin as [->|Hin]; [|by apply IH].
    rewrite foldl_insert_lookup_ne by done. by rewrite lookup_insert_eq.
Qed.

(** A member that is listed once ends up stored as the request describes it,
    whatever the store held under its id. *)
Lemma CreateTeam_member req w m :
  teams (store w) !! createteam_TeamName req = None →
  NoDup (member_UserID <$> createteam_Members req) →
  m ∈ createteam_Members req →
  ∃ resp w',
    usecase.CreateTeam req w = (Ok resp, w')
    ∧ users (store w') !! member_UserID m
      = Some {| UserID := member_UserID m; Username := member_Username m;
                TeamName := createteam_TeamName req; IsActive := member_IsActive m |}.
Proof.
  intros Hteam Hnd Hin. rewrite CreateTeam_run, Hteam.
  eexists _, _. split; [reflexivity|]. cbn [store users].
  by apply (foldl_insert_lookup member_UserID
              (λ m, {| UserID := member_UserID m; Username := member_Username m;
                       TeamName := createteam_TeamName req;
                       IsActive := member_IsActive m |})).
Qed.

(** C10.  There is a store holding an active user "u2" of team "backend" in
    which [CreateTeam] for the new team "mobile", with a member of id "u2",
    succeeds and leaves "u2" an inactive member of "mobile" under another
    name. *)
Theorem CreateTeam_overwrites_user :
  ∃ w req resp w' before after,
    teams (store w) !! createteam_TeamName req = None
    ∧ users (store w) !! "u2" = Some before
    ∧ usecase.CreateTeam req w = (Ok resp, w')
    ∧ users (store w') !! "u2" = Some after
    ∧ TeamName before = "backend" ∧ TeamName after = createteam_TeamName req
    ∧ TeamName before ≠ TeamName after
    ∧ Username before ≠ Username after
    ∧ IsActive before = true ∧ IsActive after = false
    ∧ teams (store w') !! "backend" = teams (store w) !! "backend".
Proof.
  exists examples.world1, examples.create_mobile.
  destruct (CreateTeam_member examples.create_mobile examples.world1
              examples.mobile_member) as (resp & w' & Hrun & Hafter).
  - vm_compute. reflexivity.
  - vm_compute. repeat constructor. apply not_elem_of_nil.
  - vm_compute. left.
  - exists resp, w', (examples.user "u2" "backend" true). eexists.
    split; [vm_compute; reflexivity|]. split; [vm_compute; reflexivity|].
    split; [exact Hrun|]. split; [exact Hafter|].
    repeat split; try done.
    rewrite CreateTeam_run in Hrun.
    change (teams (store examples.world1) !! createteam_TeamName examples.create_mobile)
      with (@None Team) in Hrun.
    injection Hrun as _ <-. cbn [store teams]. by rewrite lookup_insert_ne.
Qed.

(** ** Deactivating team members: choosing replacements *)

Lemma holds_nil : holds ∅ [].
Proof. intros id. rewrite lookup_empty. symmetry. by apply bool_decide_eq_false_2, not_elem_of_nil. Qed.

Lemma holds_insert set ids id :
  holds set ids → holds (<[id := true]> set) (ids ++ [id]).
Proof.
  intros Hh id'. destruct (decide (id = id')) as [->|Hne].
  - rewrite lookup_insert_eq. symmetry. apply bool_decide_eq_true_2.
    apply elem_of_app. right. by left.
  - rewrite lookup_insert_ne by done. rewrite Hh. apply bool_decide_ext.
    rewrite elem_of_app, list_elem_of_singleton. intuition congruence.
Qed.

Lemma holds_foldl ids set ids0 :
  holds set ids0 →
  holds (foldl (λ set id, <[id := true]> set) set ids) (ids0 ++ ids).
Proof.
  revert set ids0. induction ids as [|id ids IH]; intros set ids0 Hh.
  - by rewrite app_nil_r.
  - cbn [foldl]. rewrite cons_middle, app_assoc. by apply IH, holds_insert.
Qed.

Lemma createUserIDSet_holds userIDs : holds (usecase.createUserIDSet userIDs) userIDs.
Proof. apply (holds_foldl userIDs ∅ []), holds_nil. Qed.

Lemma id_set_holds ids : holds (repo.id_set ids) ids.
Proof. apply (holds_foldl ids ∅ []), holds_nil. Qed.

Lemma holds_true set ids id : holds set ids → default false (set !! id) = true ↔ id ∈ ids.
Proof. intros Hh. rewrite Hh. apply bool_decide_eq_true. Qed.

Lemma holds_false set ids id : holds set ids → default false (set !! id) = false ↔ id ∉ ids.
Proof. intros Hh. rewrite Hh. apply bool_decide_eq_false. Qed.

Lemma isValidReplacementCandidate_eligible c authorID assigned dset taken batch :
  holds assigned taken → holds dset batch →
  usecase.isValidReplacementCandidate c authorID assigned dset = true
  ↔ eligible authorID taken batch c.
Proof.
  intros Ha Hd. unfold usecase.isValidReplacementCandidate, eligible.
  rewrite (Ha (UserID c)), (Hd (UserID c)).
  destruct (decide (UserID c = authorID)); [intuition congruence|].
  destruct (decide (UserID c ∈ taken)).
  { rewrite bool_decide_eq_true_2 by done. intuition congruence. }
  rewrite bool_decide_eq_false_2 by done.
  destruct (decide (UserID c ∈ batch)).
  { rewrite bool_decide_eq_true_2 by done. intuition congruence. }
  rewrite bool_decide_eq_false_2 by done. intuition congruence.
Qed.

(** The loop of [findReviewerReplacement] finds the first eligible candidate. *)
Lemma first_valid_first_eligible candidates authorID assigned dset taken batch :
  holds assigned taken → holds dset batch →
  usecase.first_valid candidates authorID assigned dset
  = replacement_id (first_eligible authorID taken batch candidates).
Proof.
  intros Ha Hd. unfold first_eligible.
  induction candidates as [|c candidates IH]; [done|].
  cbn [usecase.first_valid list_find].
  pose proof (isValidReplacementCandidate_eligible c authorID assigned dset taken batch Ha Hd)
    as Hv.
  destruct (decide (eligible authorID taken batch c)) as [He|He].
  - apply Hv in He. by rewrite He.
  - destruct (usecase.isValidReplacementCandidate c authorID assigned dset);
      [by destruct He; apply Hv|].
    rewrite IH. by destruct (list_find _ candidates) as [[? ?]|].
Qed.

Lemma findReviewerReplacement_run reviewerID reviewer author assigned dset taken batch w :
  users (store w) !! reviewerID = Some reviewer →
  holds assigned taken → holds dset batch →
  ∃ candidates,
    candidates ≡ₚ activeTeamMembers (store w) (TeamName reviewer) reviewerID
    ∧ usecase.findReviewerReplacement reviewerID author assigned dset w
      = (Ok (replacement_id (first_eligible (UserID author) taken batch candidates)),
         after_range_users w).
Proof.
  intros Hu Ha Hd.
  destruct (GetActiveTeamMembers_run (TeamName reviewer) reviewerID w)
    as (candidates & Hrun & Hcand).
  exists candidates. split; [done|].
  unfold usecase.findReviewerReplacement, bind, attempt.
  rewrite GetUser_run, Hu, Hrun. unfold ret.
  by rewrite (first_valid_first_eligible _ _ _ _ taken batch).
Qed.

Lemma keep_staying_run current dset batch :
  holds dset batch →
  let st := usecase.keep_staying current dset in
  reassignments st = [] ∧ oldReviewers st = []
  ∧ newReviewers st = filter (λ id, id ∉ batch) current
  ∧ holds (assignedReviewers st) (newReviewers st).
Proof.
  intros Hd. unfold usecase.keep_staying.
  set (step := λ (st : planning) (reviewerID : string), _).
  set (st0 := {| reassignments := []; oldReviewers := []; newReviewers := [];
                 assignedReviewers := ∅ |}).
  assert (∀ l st,
            holds (assignedReviewers st) (newReviewers st) →
            reassignments (foldl step st l) = reassignments st
            ∧ oldReviewers (foldl step st l) = oldReviewers st
            ∧ newReviewers (foldl step st l) = newReviewers st ++ filter (λ id, id ∉ batch) l
            ∧ holds (assignedReviewers (foldl step st l)) (newReviewers (foldl step st l)))
    as Hgen.
  { induction l as [|x l IH]; intros st Hst.
    - cbn [foldl]. by rewrite filter_nil, app_nil_r.
    - cbn [foldl]. rewrite filter_cons.
      destruct (decide (x ∈ batch)) as [Hx|Hx].
      + assert (step st x = st) as ->.
        { unfold step. by rewrite (Hd x), bool_decide_eq_true_2. }
        rewrite decide_False by (by intros H). by apply IH.
      + assert (step st x = {| reassignments := reassignments st;
                               oldReviewers := oldReviewers st;
                               newReviewers := newReviewers st ++ [x];
                               assignedReviewers := <[x := true]> (assignedReviewers st) |})
          as ->.
        { unfold step. by rewrite (Hd x), bool_decide_eq_false_2. }
        rewrite decide_True by done.
        destruct (IH {| reassignments := reassignments st;
                        oldReviewers := oldReviewers st;
                        newReviewers := newReviewers st ++ [x];
                        assignedReviewers := <[x := true]> (assignedReviewers st) |})
          as (H1 & H2 & H3 & H4).
        { by apply holds_insert. }
        repeat split; [done|done| |done].
        rewrite H3. cbn [newReviewers]. by rewrite <- app_assoc. }
  destruct (Hgen current st0) as (H1 & H2 & H3 & H4); [apply holds_nil|].
  cbv zeta. rewrite H1, H2. split; [done|]. split; [done|]. split; [|done].
  by rewrite H3.
Qed.

Lemma replace_removed_run pr author batch dset current st w :
  holds dset batch →
  holds (assignedReviewers st) (newReviewers st) →
  (∀ id, id ∈ current → id ∈ batch → is_Some (users (store w) !! id)) →
  ∃ st' w' records,
    usecase.replace_removed pr author dset current st w = (Ok st', w')
    ∧ store w' = store w
    ∧ planned (store w) (PullRequestID pr) (UserID author) batch
        (newReviewers st) (filter (λ id, id ∈ batch) current) records
    ∧ reassignments st' = reassignments st ++ records
    ∧ oldReviewers st' = oldReviewers st ++ filter (λ id, id ∈ batch) current
    ∧ newReviewers st' = newReviewers st ++ filter (λ id, id ≠ "") (NewReviewerID <$> records)
    ∧ holds (assignedReviewers st') (newReviewers st').
Proof.
  intros Hd. revert st w. induction current as [|x current IH]; intros st w Hst Hex.
  - exists st, w, []. rewrite filter_nil, !app_nil_r.
    repeat split; try done. constructor.
  - cbn [usecase.replace_removed]. rewrite filter_cons, (Hd x).
    destruct (decide (x ∈ batch)) as [Hx|Hx].
    + rewrite bool_decide_eq_true_2 by done. cbn [negb].
      destruct (Hex x) as [reviewer Hrev]; [by left|done|].
      destruct (findReviewerReplacement_run x reviewer author (assignedReviewers st) dset
                  (newReviewers st) batch w Hrev Hst Hd) as (candidates & Hcand & Hrun).
      unfold bind. rewrite Hrun.
      set (id := replacement_id _) in *.
      set (st1 := {| reassignments := _; oldReviewers := _; newReviewers := _;
                     assignedReviewers := _ |}).
      destruct (IH st1 (after_range_users w)) as (st' & w' & records & Hrun' & Hst' & Hpl & H1 & H2 & H3 & H4).
      { subst st1. cbn [assignedReviewers newReviewers].
        destruct (decide (id ≠ "")); [by apply holds_insert|done]. }
      { intros id' Hin ?. apply Hex; [by right|done]. }
      exists st', w', ({| reassignment_PullRequestID := PullRequestID pr;
                          OldReviewerID := x; NewReviewerID := id |} :: records).
      rewrite Hrun'. split; [done|]. split; [done|]. split; [|split; [|split; [|split]]].
      * econstructor; [exact Hrev|exact Hcand|]. exact Hpl.
      * rewrite H1. subst st1. cbn [reassignments]. by rewrite <- app_assoc.
      * rewrite H2. subst st1. cbn [oldReviewers]. by rewrite <- app_assoc.
      * rewrite H3. subst st1. cbn [newReviewers]. rewrite fmap_cons, filter_cons.
        cbn [NewReviewerID]. destruct (decide (id ≠ "")); [by rewrite <- app_assoc|done].
      * done.
    + rewrite bool_decide_eq_false_2 by done. cbn [negb].
      apply IH; [done|]. intros id' Hin ?. apply Hex; [by right|done].
Qed.

Lemma planned_records r prID authorID batch taken removed records :
  planned r prID authorID batch taken removed records →
  OldReviewerID <$> records = removed
  ∧ Forall (λ ra, reassignment_PullRequestID ra = prID) records
  ∧ Forall (λ ra, NewReviewerID ra = "" ∨ NewReviewerID ra ∉ batch) records.
Proof.
  induction 1 as [|taken x reviewer candidates removed records Hu Hc Hpl (IH1 & IH2 & IH3)].
  - by repeat split.
  - split; [by rewrite fmap_cons, IH1|]. split; [by constructor|].
    constructor; [|done]. cbn [NewReviewerID]. unfold first_eligible.
    destruct (list_find _ candidates) as [[i c]|] eqn:Hfind; [|by left].
    apply list_find_Some in Hfind as (_ & (_ & _ & Hb) & _). by right.
Qed.

(** What [processPRReassignments] returns for a pull request whose author
    and removed reviewers are users of the store. *)
Lemma processPRReassignments_run pr author current batch w :
  users (store w) !! AuthorID pr = Some author →
  (∀ id, id ∈ current → id ∈ batch → is_Some (users (store w) !! id)) →
  ∃ records summary w',
    usecase.processPRReassignments pr current (usecase.createUserIDSet batch) w
    = (Ok (records, summary), w')
    ∧ store w' = store w
    ∧ planned (store w) (PullRequestID pr) (UserID author) batch
        (filter (λ id, id ∉ batch) current) (filter (λ id, id ∈ batch) current) records
    ∧ summary = summary_of (PullRequestID pr) current batch records.
Proof.
  intros Hau Hex. pose proof (createUserIDSet_holds batch) as Hd.
  destruct (keep_staying_run current _ batch Hd) as (K1 & K2 & K3 & K4).
  destruct (replace_removed_run pr author batch _ current _ w Hd K4 Hex)
    as (st' & w' & records & Hrun & Hst & Hpl & H1 & H2 & H3 & _).
  unfold usecase.processPRReassignments, bind, attempt.
  rewrite GetUser_run, Hau, Hrun. unfold ret.
  rewrite H1, H2, H3, K1, K2, K3. cbn [app].
  eexists _, _, _. split; [reflexivity|]. split; [done|].
  rewrite K3 in Hpl. by split.
Qed.

(** ** Deactivating team members: the affected pull requests *)

Lemma existsb_holds set batch (reviewers : list string) :
  holds set batch →
  existsb (λ revID, default false (set !! revID)) reviewers = true
  ↔ Exists (λ id, id ∈ batch) reviewers.
Proof.
  intros Hh. rewrite existsb_exists, Exists_exists. split.
  - intros (id & Hin & Hset). exists id. split; [by apply list_elem_of_In|].
    by apply (holds_true set batch).
  - intros (id & Hin & Hb). exists id. split; [by apply list_elem_of_In|].
    by apply (holds_true set batch).
Qed.

Lemma GetOpenPRsWithReviewers_run batch w :
  ∃ entries reviewersMap,
    entries ≡ₚ map_to_list (prs (store w))
    ∧ repo.GetOpenPRsWithReviewers batch w
      = (Ok ((filter (affected (store w) batch) entries).*2, reviewersMap), after_range_prs w)
    ∧ ∀ prID pr, (prID, pr) ∈ filter (affected (store w) batch) entries →
                 reviewersMap !! prID = Some (reviewersOf (store w) prID).
Proof.
  unfold repo.GetOpenPRsWithReviewers, bind, get_store, range_map, ret.
  set (entries := shuffle (tape w) (map_to_list (prs (store w)))).
  match goal with |- context [foldl ?f _ entries] => set (step := f) end.
  assert (∀ l acc,
            (foldl step acc l).1 = acc.1 ++ (filter (affected (store w) batch) l).*2
            ∧ ∀ prID,
                (prID ∈ (filter (affected (store w) batch) l).*1 →
                 (foldl step acc l).2 !! prID = Some (reviewersOf (store w) prID))
                ∧ (prID ∉ (filter (affected (store w) batch) l).*1 →
                   (foldl step acc l).2 !! prID = acc.2 !! prID)) as Hgen.
  { induction l as [|[k pr] l IH]; intros [ps rm].
    - cbn [foldl]. rewrite filter_nil, app_nil_r. split; [done|].
      intros prID. split; [|done]. intros []%elem_of_nil.
    - cbn [foldl]. rewrite filter_cons.
      assert (step (ps, rm) (k, pr) =
              if decide (affected (store w) batch (k, pr))
              then (ps ++ [pr], <[k := reviewersOf (store w) k]> rm) else (ps, rm)) as ->.
      { unfold step, affected. cbn [fst snd]. fold (reviewersOf (store w) k).
        destruct (decide (Status pr ≠ PRStatusOpen)) as [Hs|Hs].
        { rewrite decide_False; [done|]. by intros [? _]. }
        apply dec_stable in Hs.
        destruct (existsb _ _) eqn:Hex.
        - apply (existsb_holds _ batch) in Hex; [|apply id_set_holds].
          by rewrite decide_True.
        - rewrite decide_False; [done|]. intros [_ He].
          apply (existsb_holds (repo.id_set batch) batch) in He; [|apply id_set_holds].
          cbn [fst] in He. congruence. }
      destruct (decide (affected (store w) batch (k, pr))) as [Ha|Ha].
      + destruct (IH (ps ++ [pr], <[k := reviewersOf (store w) k]> rm)) as [IH1 IH2].
        split; [rewrite IH1; cbn [fst fmap list_fmap snd]; by rewrite <- app_assoc|].
        intros prID. cbn [fst snd fmap list_fmap] in *.
        destruct (decide (prID ∈ (filter (affected (store w) batch) l).*1)) as [Hin|Hin].
        * split; [intros _; by apply IH2|]. intros Hn. destruct Hn. by right.
        * split.
          -- intros [->|?]%elem_of_cons; [|done].
             rewrite (proj2 (IH2 k)) by done. by rewrite lookup_insert_eq.
          -- intros Hn. rewrite (proj2 (IH2 prID)) by done.
             apply lookup_insert_ne. intros ->. apply Hn. by left.
      + destruct (IH (ps, rm)) as [IH1 IH2]. split; [done|]. done. }
  destruct (Hgen entries ([], ∅)) as [H1 H2].
  exists entries, (foldl step ([], ∅) entries).2.
  split; [apply shuffle_Permutation|]. split.
  - rewrite <- H1 at 1. by destruct (foldl step ([], ∅) entries).
  - intros prID pr Hin. apply H2. apply list_elem_of_fmap. by exists (prID, pr).
Qed.

(** ** Deactivating team members: the plan over all affected pull requests *)

(** The plan is the concatenation, pull request by pull request, of lists of
    records that are each [planned]. *)
Lemma planReviewerReassignments_loop_run prsl reviewersMap batch acc w :
  (∀ pr, pr ∈ prsl → is_Some (users (store w) !! AuthorID pr)) →
  Forall (λ id, is_Some (users (store w) !! id)) batch →
  ∃ plans w',
    usecase.planReviewerReassignments_loop prsl reviewersMap
      (usecase.createUserIDSet batch) acc w
    = (Ok (acc.1 ++ concat plans,
           acc.2 ++ reported
                      (zip_with (λ pr records,
                                   summary_of (PullRequestID pr)
                                     (default [] (reviewersMap !! PullRequestID pr))
                                     batch records) prsl plans)), w')
    ∧ store w' = store w
    ∧ Forall2 (λ pr records,
                 ∃ author,
                   users (store w) !! AuthorID pr = Some author
                   ∧ planned (store w) (PullRequestID pr) (UserID author) batch
                       (filter (λ id, id ∉ batch) (default [] (reviewersMap !! PullRequestID pr)))
                       (filter (λ id, id ∈ batch) (default [] (reviewersMap !! PullRequestID pr)))
                       records)
              prsl plans.
Proof.
  intros Hau Hb. revert acc w Hau Hb.
  induction prsl as [|pr prsl IH]; intros acc w Hau Hb.
  - exists [], w. cbn [usecase.planReviewerReassignments_loop concat zip_with].
    unfold reported. rewrite filter_nil, !app_nil_r. unfold ret. destruct acc.
    by repeat split.
  - destruct (Hau pr) as [author Hauthor]; [by left|].
    destruct (processPRReassignments_run pr author
                (default [] (reviewersMap !! PullRequestID pr)) batch w Hauthor)
      as (records & summary & w1 & Hrun & Hst & Hpl & Hsum).
    { intros id _ Hin. by eapply Forall_forall in Hb. }
    cbn [usecase.planReviewerReassignments_loop]. unfold bind at 1. rewrite Hrun.
    set (acc1 := (acc.1 ++ records, _)).
    destruct (IH acc1 w1) as (plans & w' & Hrun' & Hst' & HF).
    { intros pr' Hin. rewrite Hst. apply Hau. by right. }
    { by rewrite Hst. }
    rewrite Hrun'. subst acc1. cbn [fst snd].
    exists (records :: plans), w'.
    split; [|split].
    + cbn [concat zip_with]. unfold reported. rewrite filter_cons, <- Hsum.
      rewrite <- !app_assoc. do 3 f_equal.
      destruct (decide _); [by rewrite <- app_assoc|done].
    + congruence.
    + constructor; [by exists author|]. by rewrite Hst in HF.
Qed.

(** Planning reads the store and writes nothing. *)
Lemma findReviewerReplacement_history reviewerID author assigned dset w :
  history (usecase.findReviewerReplacement reviewerID author assigned dset w).2 = history w.
Proof.
  unfold usecase.findReviewerReplacement, bind, attempt.
  rewrite GetUser_run. by destruct (users (store w) !! reviewerID).
Qed.

Lemma replace_removed_history pr author dset current st w :
  history (usecase.replace_removed pr author dset current st w).2 = history w.
Proof.
  revert st w. induction current as [|x current IH]; intros st w; [done|].
  cbn [usecase.replace_removed].
  destruct (negb (default false (dset !! x))); [apply IH|].
  unfold bind at 1.
  pose proof (findReviewerReplacement_history x author (assignedReviewers st) dset w) as Hfind.
  destruct (usecase.findReviewerReplacement x author (assignedReviewers st) dset w)
    as [[replacement|e|] w1]; cbn [snd] in Hfind; [|done|done].
  by rewrite IH.
Qed.

Lemma processPRReassignments_history pr current dset w :
  history (usecase.processPRReassignments pr current dset w).2 = history w.
Proof.
  unfold usecase.processPRReassignments, bind at 1. unfold attempt.
  rewrite GetUser_run. destruct (users (store w) !! AuthorID pr) as [author|]; [|done].
  unfold bind.
  pose proof (replace_removed_history pr author dset current
                (usecase.keep_staying current dset) w) as Hrep.
  by destruct (usecase.replace_removed pr author dset current _ w) as [[st|e|] w1].
Qed.

Lemma planReviewerReassignments_history prsl reviewersMap batch w :
  history (usecase.planReviewerReassignments prsl reviewersMap batch w).2 = history w.
Proof.
  unfold usecase.planReviewerReassignments.
  generalize (@nil PRReassignment, @nil PRReassignmentSummary).
  revert w. induction prsl as [|pr prsl IH]; intros w acc; [done|].
  cbn [usecase.planReviewerReassignments_loop]. unfold bind at 1.
  pose proof (processPRReassignments_history pr
                (default [] (reviewersMap !! PullRequestID pr))
                (usecase.createUserIDSet batch) w) as Hpr.
  destruct (usecase.processPRReassignments pr _ _ w) as [[[records summary]|e|] w1];
    cbn [snd] in Hpr; [|done|done].
  by rewrite IH.
Qed.

(** ** Deactivating team members: applying the plan *)

Lemma BulkReassignReviewers_run plan w :
  repo.BulkReassignReviewers plan w =
  (Ok tt, written {| teams := teams (store w); users := users (store w);
                     prs := prs (store w);
                     prReviewers := foldl repo.reassign (prReviewers (store w)) plan |} w).
Proof. reflexivity. Qed.

Lemma DeactivateUsers_run userIDs w :
  repo.DeactivateUsers userIDs w =
  (Ok tt, written {| teams := teams (store w);
                     users := foldl repo.deactivate (users (store w)) userIDs;
                     prs := prs (store w);
                     prReviewers := prReviewers (store w) |} w).
Proof. reflexivity. Qed.

Lemma deactivate_lookup us userIDs id :
  foldl repo.deactivate us userIDs !! id
  = if decide (id ∈ userIDs) then (λ user, repo.set_IsActive user false) <$> us !! id
    else us !! id.
Proof.
  revert us. induction userIDs as [|x userIDs IH]; intros us.
  - cbn [foldl]. rewrite decide_False; [done|]. apply not_elem_of_nil.
  - cbn [foldl]. rewrite IH. unfold repo.deactivate.
    destruct (decide (id ∈ userIDs)) as [Hin|Hin].
    + rewrite decide_True by (by right).
      destruct (us !! x) as [user|] eqn:Hx; [|done].
      destruct (decide (x = id)) as [->|Hne].
      * rewrite lookup_insert_eq, Hx. done.
      * by rewrite lookup_insert_ne.
    + destruct (decide (x = id)) as [->|Hne].
      * rewrite decide_True by (by left).
        destruct (us !! id) as [user|] eqn:Hx; [|by rewrite Hx].
        by rewrite lookup_insert_eq.
      * rewrite decide_False by (intros [->|?]%elem_of_cons; done).
        destruct (us !! x) as [user|]; [|done]. by rewrite lookup_insert_ne.
Qed.

(** After the plan is applied, a pull request has no reviewer of the batch
    left, provided every reviewer of the batch it had has a record and no
    record brings a member of the batch in. *)
Lemma reassign_clears (batch : list string) plan revs prID :
  Forall (λ ra, NewReviewerID ra = "" ∨ NewReviewerID ra ∉ batch) plan →
  (∀ id, id ∈ default [] (revs !! prID) → id ∈ batch →
         ∃ ra, ra ∈ plan ∧ reassignment_PullRequestID ra = prID ∧ OldReviewerID ra = id) →
  ∀ id, id ∈ default [] (foldl repo.reassign revs plan !! prID) → id ∉ batch.
Proof.
  intros Hnew. revert revs. induction Hnew as [|ra plan Hra Hnew IH]; intros revs Hcov id Hin Hb.
  - cbn [foldl] in Hin. destruct (Hcov id Hin Hb) as (ra & []%elem_of_nil & _).
  - cbn [foldl] in Hin. revert Hin Hb. apply IH. clear id.
    intros id Hin Hb. unfold repo.reassign in Hin.
    destruct (decide (reassignment_PullRequestID ra = prID)) as [Heq|Hne].
    + rewrite Heq, lookup_insert_eq in Hin. cbn [default] in Hin.
      assert (id ∈ filter (λ revID, revID ≠ OldReviewerID ra) (default [] (revs !! prID)))
        as [Hold Hin']%list_elem_of_filter.
      { destruct (decide (NewReviewerID ra ≠ "")) as [Hn|Hn]; [|done].
        apply elem_of_app in Hin as [?|Heq']; [done|].
        apply list_elem_of_singleton in Heq' as ->. by destruct Hra. }
      destruct (Hcov id Hin' Hb) as (ra' & [->|Hin'']%elem_of_cons & Hp & Ho); [done|].
      by exists ra'.
    + rewrite lookup_insert_ne in Hin by done.
      destruct (Hcov id Hin Hb) as (ra' & [->|Hin'']%elem_of_cons & Hp & Ho); [done|].
      by exists ra'.
Qed.

(** Records of other pull requests leave the reviewers of [prID] alone. *)
Lemma reassign_other plan revs prID :
  Forall (λ ra, reassignment_PullRequestID ra ≠ prID) plan →
  foldl repo.reassign revs plan !! prID = revs !! prID.
Proof.
  intros Hplan. revert revs. induction Hplan as [|ra plan Hra _ IH]; intros revs; [done|].
  cbn [foldl]. rewrite IH. unfold repo.reassign. by rewrite lookup_insert_ne.
Qed.

(** Applying a plan makes, on every pull request, the swaps of its records. *)
Lemma reassign_swap plan revs prID :
  default [] (foldl repo.reassign revs plan !! prID)
  = foldl swap (default [] (revs !! prID))
          (filter (λ ra, reassignment_PullRequestID ra = prID) plan).
Proof.
  revert revs. induction plan as [|ra plan IH]; intros revs; [done|].
  cbn [foldl]. rewrite IH, filter_cons. unfold repo.reassign.
  destruct (decide (reassignment_PullRequestID ra = prID)) as [->|Hne].
  - rewrite lookup_insert_eq. cbn [foldl default]. f_equal. unfold swap.
    destruct (decide _); [done|by rewrite app_nil_r].
  - by rewrite lookup_insert_ne.
Qed.

(** ** Deactivating team members: one record per removed reviewer *)

Lemma filter_eq_NoDup (l : list string) (x : string) :
  NoDup l → x ∈ l → length (filter (λ y, y = x) l) = 1.
Proof.
  induction 1 as [|y l Hy Hnd IH]; intros Hin; [by apply elem_of_nil in Hin|].
  rewrite filter_cons. destruct (decide (y = x)) as [->|Hne].
  - rewrite filter_none; [done|]. by intros z Hz ->.
  - apply elem_of_cons in Hin as [->|Hin]; [done|]. by apply IH.
Qed.

Lemma records_of_count (records : list PRReassignment) prID id :
  Forall (λ ra, reassignment_PullRequestID ra = prID) records →
  length (filter (λ ra, reassignment_PullRequestID ra = prID ∧ OldReviewerID ra = id) records)
  = length (filter (λ y, y = id) (OldReviewerID <$> records)).
Proof.
  induction 1 as [|ra records Hra _ IH]; [done|].
  rewrite fmap_cons, !filter_cons.
  destruct (decide (OldReviewerID ra = id)) as [Ho|Ho].
  - rewrite decide_True by done. cbn [length]. by rewrite IH.
  - rewrite decide_False by (by intros [_ ?]). done.
Qed.

Lemma records_of_other (records : list PRReassignment) prID prID' id :
  prID' ≠ prID →
  Forall (λ ra, reassignment_PullRequestID ra = prID') records →
  filter (λ ra, reassignment_PullRequestID ra = prID ∧ OldReviewerID ra = id) records = [].
Proof.
  intros Hne Hall. apply filter_none. intros ra Hin [Hp _].
  eapply Forall_forall in Hall; [|done]. congruence.
Qed.

(** In a plan made of one list of records per pull request, a reviewer
    removed from a pull request has exactly one record. *)
Lemma plan_one_record (removed : string * PullRequest → list string)
    (entries : list (string * PullRequest)) (plans : list (list PRReassignment))
    prID pr id :
  NoDup entries.*1 →
  Forall2 (λ entry records,
             OldReviewerID <$> records = removed entry
             ∧ Forall (λ ra, reassignment_PullRequestID ra = entry.1) records)
          entries plans →
  (prID, pr) ∈ entries →
  NoDup (removed (prID, pr)) →
  id ∈ removed (prID, pr) →
  length (filter (λ ra, reassignment_PullRequestID ra = prID ∧ OldReviewerID ra = id)
                 (concat plans)) = 1.
Proof.
  intros Hnd HF Hin Hrem Hid.
  induction HF as [|entry records entries plans [Hold Hpid] HF IH];
    [by apply elem_of_nil in Hin|].
  rewrite fmap_cons in Hnd. apply NoDup_cons in Hnd as [Hfresh Hnd].
  cbn [concat]. rewrite filter_app, length_app.
  destruct (decide (entry.1 = prID)) as [Heq|Hne].
  - assert (entry = (prID, pr)) as ->.
    { apply elem_of_cons in Hin as [Heq'|Hin]; [done|]. destruct Hfresh.
      rewrite Heq. apply list_elem_of_fmap. by exists (prID, pr). }
    rewrite records_of_count by done. rewrite Hold, filter_eq_NoDup by done.
    assert (filter (λ ra, reassignment_PullRequestID ra = prID ∧ OldReviewerID ra = id)
                   (concat plans) = []) as ->; [|done].
    clear IH Hin. induction HF as [|entry' records' entries' plans' [_ Hpid'] HF IH];
      [done|].
    cbn [concat]. rewrite filter_app.
    rewrite fmap_cons in Hfresh. apply not_elem_of_cons in Hfresh as [Hne' Hfresh].
    rewrite fmap_cons in Hnd. apply NoDup_cons in Hnd as [_ Hnd].
    rewrite (records_of_other _ prID entry'.1) by done. by apply IH.
  - rewrite (records_of_other _ prID entry.1) by done. cbn [length].
    apply IH; [done|].
    apply elem_of_cons in Hin as [Heq|Hin]; [|done]. subst entry. by destruct Hne.
Qed.

(** ** Deactivating team members: the whole operation *)

Lemma validUserIDs_exist r teamName userIDs :
  Forall (λ id, ∃ user, users r !! id = Some user ∧ TeamName user = teamName)
         (validUserIDs r teamName userIDs).
Proof.
  apply Forall_forall. intros id [Hv _]%list_elem_of_filter.
  destruct (users r !! id) as [user|]; [|done].
  exists user. split; [done|]. by injection Hv.
Qed.

Lemma zip_with_ext_elem_of {A B C} (f g : A → B → C) (l : list A) (k : list B) :
  (∀ x y, x ∈ l → f x y = g x y) → zip_with f l k = zip_with g l k.
Proof.
  revert k. induction l as [|x l IH]; intros [|y k] Hfg; try done.
  cbn [zip_with]. f_equal.
  - apply Hfg. by left.
  - apply IH. intros x' y' Hin. apply Hfg. by right.
Qed.

Lemma Forall2_impl_elem_of {A B} (P Q : A → B → Prop) (l : list A) (k : list B) :
  Forall2 P l k → (∀ x y, x ∈ l → P x y → Q x y) → Forall2 Q l k.
Proof.
  induction 1 as [|x y l k HP _ IH]; intros Himp; constructor.
  - apply Himp; [by left|done].
  - apply IH. intros x' y' Hin. apply Himp. by right.
Qed.

(** What [DeactivateTeamUsers] does once the team exists and some requested
    id is valid: it plans one list of records per affected pull request,
    applies the plan to the reviewers, and then deactivates the batch. *)
Lemma DeactivateTeamUsers_run req w :
  let r := store w in
  let batch := validUserIDs r (deactivate_TeamName req) (UserIDs req) in
  is_Some (teams r !! deactivate_TeamName req) →
  batch ≠ [] →
  prs_keyed r →
  authors_exist r →
  ∃ entries plans w2,
    entries ≡ₚ map_to_list (prs r)
    ∧ Forall2 (λ entry records,
                 ∃ author,
                   users r !! AuthorID entry.2 = Some author
                   ∧ planned r entry.1 (UserID author) batch
                       (filter (λ id, id ∉ batch) (reviewersOf r entry.1))
                       (filter (λ id, id ∈ batch) (reviewersOf r entry.1))
                       records)
              (filter (affected r batch) entries) plans
    ∧ store w2 = r
    ∧ (∃ reviewersMap,
         repo.GetOpenPRsWithReviewers batch (after_range_users w)
         = (Ok ((filter (affected r batch) entries).*2, reviewersMap),
            after_range_prs (after_range_users w))
         ∧ usecase.planReviewerReassignments (filter (affected r batch) entries).*2
             reviewersMap batch (after_range_prs (after_range_users w))
           = (Ok (concat plans,
                  reported (zip_with (λ entry records,
                                        summary_of entry.1 (reviewersOf r entry.1)
                                          batch records)
                                     (filter (affected r batch) entries) plans)), w2))
    ∧ usecase.DeactivateTeamUsers req w
      = (Ok {| DeactivatedUsers := batch;
               ReassignedPRs :=
                 reported (zip_with (λ entry records,
                                       summary_of entry.1 (reviewersOf r entry.1)
                                         batch records)
                                    (filter (affected r batch) entries) plans) |},
         {| store := {| teams := teams r;
                        users := foldl repo.deactivate (users r) batch;
                        prs := prs r;
                        prReviewers := foldl repo.reassign (prReviewers r) (concat plans) |};
            tape := tape w2; clock := clock w2;
            history :=
              history w
              ++ (if decide (0 < length (concat plans))
                  then [{| teams := teams r; users := users r; prs := prs r;
                           prReviewers :=
                             foldl repo.reassign (prReviewers r) (concat plans) |}]
                  else [])
              ++ [{| teams := teams r;
                     users := foldl repo.deactivate (users r) batch;
                     prs := prs r;
                     prReviewers := foldl repo.reassign (prReviewers r) (concat plans) |}] |}).
Proof.
  intros r batch [team Hteam] Hbatch Hpk Hau.
  pose proof (getValidTeamUserIDsForDeactivation_run req w) as Hvalid.
  fold r in Hvalid. rewrite Hteam in Hvalid. fold batch in Hvalid.
  destruct (GetOpenPRsWithReviewers_run batch (after_range_users w))
    as (entries & reviewersMap & Hperm & Hopen & Hmap).
  cbn [store after_range_users] in Hperm, Hmap, Hopen. fold r in Hperm, Hmap, Hopen.
  set (affectedPRs := filter (affected r batch) entries) in *.
  assert (∀ prID pr, (prID, pr) ∈ affectedPRs → prs r !! prID = Some pr) as Hprs.
  { intros prID pr [_ Hin]%list_elem_of_filter. rewrite Hperm in Hin.
    by apply elem_of_map_to_list in Hin. }
  destruct (planReviewerReassignments_loop_run affectedPRs.*2 reviewersMap batch ([], [])
              (after_range_prs (after_range_users w)))
    as (plans & w2 & Hplan & Hst2 & HF).
  { intros pr ([prID pr'] & -> & Hin)%list_elem_of_fmap.
    apply Hprs in Hin. by apply Hau in Hin. }
  { eapply Forall_impl; [apply validUserIDs_exist|].
    intros id (user & Hu & _). cbn [store after_range_users after_range_prs]. eauto. }
  cbn [store after_range_users after_range_prs fst snd app] in Hplan, Hst2, HF.
  fold r in Hst2, HF.
  assert (zip_with (λ pr records,
                      summary_of (PullRequestID pr)
                        (default [] (reviewersMap !! PullRequestID pr)) batch records)
                   affectedPRs.*2 plans
          = zip_with (λ entry records,
                        summary_of entry.1 (reviewersOf r entry.1) batch records)
                     affectedPRs plans) as Hsums.
  { rewrite zip_with_fmap_l. apply zip_with_ext_elem_of.
    intros [prID pr] records Hin. cbn [fst snd].
    pose proof (Hprs _ _ Hin) as Hpr. apply Hpk in Hpr. cbn in Hpr.
    by rewrite Hpr, (Hmap _ _ Hin). }
  rewrite Hsums in Hplan.
  assert (history w2 = history w) as Hh2.
  { pose proof (planReviewerReassignments_history affectedPRs.*2 reviewersMap batch
                  (after_range_prs (after_range_users w))) as Hh.
    unfold usecase.planReviewerReassignments in Hh. by rewrite Hplan in Hh. }
  assert (usecase.applyDeactivationChanges batch (concat plans) w2
          = (Ok tt,
             {| store := {| teams := teams r;
                            users := foldl repo.deactivate (users r) batch;
                            prs := prs r;
                            prReviewers := foldl repo.reassign (prReviewers r) (concat plans) |};
                tape := tape w2; clock := clock w2;
                history :=
                  history w
                  ++ (if decide (0 < length (concat plans))
                      then [{| teams := teams r; users := users r; prs := prs r;
                               prReviewers :=
                                 foldl repo.reassign (prReviewers r) (concat plans) |}]
                      else [])
                  ++ [{| teams := teams r;
                         users := foldl repo.deactivate (users r) batch;
                         prs := prs r;
                         prReviewers :=
                           foldl repo.reassign (prReviewers r) (concat plans) |}] |}))
    as Happly.
  { unfold usecase.applyDeactivationChanges, bind.
    destruct (decide (0 < length (concat plans))) as [Hlen|Hlen].
    - rewrite BulkReassignReviewers_run, DeactivateUsers_run. unfold written.
      cbn [store tape clock history teams users prs prReviewers].
      rewrite Hst2, Hh2. by rewrite <- app_assoc.
    - unfold ret. rewrite DeactivateUsers_run, Hst2. unfold written. rewrite Hh2.
      destruct (concat plans); [done|]. cbn [length] in Hlen. lia. }
  exists entries, plans, w2.
  split; [done|]. split; [|split; [done|split; [by exists reviewersMap|]]].
  - apply Forall2_fmap_l in HF. eapply Forall2_impl_elem_of; [exact HF|].
    intros [prID pr] records Hin (author & Hauthor & Hpl). cbn [fst snd] in *.
    exists author. split; [done|].
    pose proof (Hprs _ _ Hin) as Hpr. apply Hpk in Hpr. cbn in Hpr.
    rewrite Hpr, (Hmap _ _ Hin) in Hpl. exact Hpl.
  - assert (usecase.getValidTeamUserIDsForDeactivation req w
            = (Ok batch, after_range_users w)) as Hvalid'.
    { rewrite Hvalid. subst batch.
      by destruct (validUserIDs r (deactivate_TeamName req) (UserIDs req)). }
    unfold usecase.DeactivateTeamUsers. unfold bind at 1. rewrite Hvalid'.
    unfold bind at 1. rewrite Hopen.
    unfold bind at 1. unfold usecase.planReviewerReassignments. rewrite Hplan.
    unfold bind. rewrite Happly. unfold ret. reflexivity.
Qed.

Lemma DeactivateTeamUsers_Ok_inv req w resp w' :
  usecase.DeactivateTeamUsers req w = (Ok resp, w') →
  is_Some (teams (store w) !! deactivate_TeamName req)
  ∧ validUserIDs (store w) (deactivate_TeamName req) (UserIDs req) ≠ [].
Proof.
  pose proof (getValidTeamUserIDsForDeactivation_run req w) as Hvalid.
  unfold usecase.DeactivateTeamUsers. unfold bind at 1.
  destruct (teams (store w) !! deactivate_TeamName req) as [team|].
  - rewrite Hvalid.
    destruct (validUserIDs (store w) (deactivate_TeamName req) (UserIDs req)); [done|].
    intros _. split; [by eexists|done].
  - by rewrite Hvalid.
Qed.

(** After a successful [DeactivateTeamUsers] no user of the batch reviews an
    OPEN pull request. *)
Lemma DeactivateTeamUsers_clears req w resp w' id prID pr :
  prs_keyed (store w) →
  authors_exist (store w) →
  usecase.DeactivateTeamUsers req w = (Ok resp, w') →
  id ∈ DeactivatedUsers resp →
  prs (store w') !! prID = Some pr →
  Status pr = PRStatusOpen →
  id ∉ reviewersOf (store w') prID.
Proof.
  intros Hpk Hau Hok.
  destruct (DeactivateTeamUsers_Ok_inv _ _ _ _ Hok) as [Hteam Hbatch].
  destruct (DeactivateTeamUsers_run req w Hteam Hbatch Hpk Hau)
    as (entries & plans & w2 & Hperm & HF & Hst2 & _ & Hrun).
  rewrite Hrun in Hok. injection Hok as <- <-.
  set (r := store w) in *.
  set (batch := validUserIDs r (deactivate_TeamName req) (UserIDs req)) in *.
  cbn [DeactivatedUsers ReassignedPRs store users prs prReviewers].
  assert (Forall (λ ra, NewReviewerID ra = "" ∨ NewReviewerID ra ∉ batch) (concat plans))
    as Hnew.
  { apply Forall_concat. eapply Forall2_Forall_r; [exact HF|].
    apply Forall_forall. intros entry _ records (author & _ & Hpl).
    by apply planned_records in Hpl as (_ & _ & H3). }
  intros Hid Hpr Hopen' Hin. revert Hin Hid.
  unfold reviewersOf at 1. cbn [prReviewers]. apply (reassign_clears batch); [done|].
  clear id. intros id Hin Hid.
  assert ((prID, pr) ∈ filter (affected r batch) entries) as Hentry.
  { apply list_elem_of_filter. split.
    - split; [done|]. apply Exists_exists. by exists id.
    - rewrite Hperm. by apply elem_of_map_to_list. }
  apply list_elem_of_lookup in Hentry as [i Hi].
  destruct (Forall2_lookup_l _ _ _ i _ HF Hi) as (records & Hrecs & author & _ & Hpl).
  apply planned_records in Hpl as (Hold & Hpid & _). cbn [fst] in Hold, Hpid.
  assert (id ∈ OldReviewerID <$> records) as (ra & Hra & Hin')%list_elem_of_fmap.
  { rewrite Hold. by apply list_elem_of_filter. }
  exists ra. split; [|split; [|done]].
  - apply list_elem_of_In, in_concat. exists records.
    split; apply list_elem_of_In; [by eapply list_elem_of_lookup_2|done].
  - by eapply Forall_forall in Hpid.
Qed.

(** C3.  After a successful [DeactivateTeamUsers], every user of the returned
    list is stored inactive and reviews no OPEN pull request; the plan that
    was made holds exactly one record for every reviewer removed from an
    affected pull request, and the reviewers of every pull request are those
    it had before the call with the swaps of its records made.  The swaps
    are written before the activity flags: the history of the store grows by
    the store with the reviewers swapped and the users as they were before
    the call, then by the final store with the flags set to false; with an
    empty plan no swap is written. *)
Theorem DeactivateTeamUsers_reconciled req w resp w' :
  prs_keyed (store w) →
  authors_exist (store w) →
  reviewers_NoDup (store w) →
  usecase.DeactivateTeamUsers req w = (Ok resp, w') →
  (∀ id, id ∈ DeactivatedUsers resp →
         ∃ user, users (store w') !! id = Some user ∧ IsActive user = false)
  ∧ (∀ id prID pr,
       id ∈ DeactivatedUsers resp →
       prs (store w') !! prID = Some pr →
       Status pr = PRStatusOpen →
       id ∉ reviewersOf (store w') prID)
  ∧ ∃ affectedPRs reviewersMap plan w1 w2,
      repo.GetOpenPRsWithReviewers (DeactivatedUsers resp) (after_range_users w)
      = (Ok (affectedPRs, reviewersMap), w1)
      ∧ usecase.planReviewerReassignments affectedPRs reviewersMap (DeactivatedUsers resp) w1
        = (Ok (plan, ReassignedPRs resp), w2)
      ∧ (∀ id prID pr,
           id ∈ DeactivatedUsers resp →
           prs (store w) !! prID = Some pr →
           Status pr = PRStatusOpen →
           id ∈ reviewersOf (store w) prID →
           length (filter (λ ra, reassignment_PullRequestID ra = prID
                                 ∧ OldReviewerID ra = id) plan) = 1)
      ∧ (∀ prID,
           reviewersOf (store w') prID
           = foldl swap (reviewersOf (store w) prID)
                   (filter (λ ra, reassignment_PullRequestID ra = prID) plan))
      ∧ history w'
        = history w
          ++ match plan with
             | [] => []
             | _ :: _ => [{| teams := teams (store w); users := users (store w);
                             prs := prs (store w);
                             prReviewers := prReviewers (store w') |}]
             end
          ++ [store w'].
Proof.
  intros Hpk Hau Hnd Hok.
  destruct (DeactivateTeamUsers_Ok_inv _ _ _ _ Hok) as [Hteam Hbatch].
  destruct (DeactivateTeamUsers_run req w Hteam Hbatch Hpk Hau)
    as (entries & plans & w2 & Hperm & HF & Hst2 & (reviewersMap & Hopen & Hplan) & Hrun).
  rewrite Hrun in Hok. injection Hok as <- <-.
  set (r := store w) in *.
  set (batch := validUserIDs r (deactivate_TeamName req) (UserIDs req)) in *.
  cbn [DeactivatedUsers ReassignedPRs store users prs prReviewers].
  (* what the records of the plan look like *)
  assert (Forall2 (λ entry records,
                     OldReviewerID <$> records
                     = (λ entry, filter (λ id, id ∈ batch) (reviewersOf r entry.1)) entry
                     ∧ Forall (λ ra, reassignment_PullRequestID ra = entry.1) records)
                  (filter (affected r batch) entries) plans) as Hshape.
  { eapply Forall2_impl; [exact HF|]. intros entry records (author & _ & Hpl).
    apply planned_records in Hpl as (H1 & H2 & _). by split. }
  assert (∀ id prID pr, id ∈ batch → prs r !! prID = Some pr → Status pr = PRStatusOpen →
            id ∈ reviewersOf r prID → (prID, pr) ∈ filter (affected r batch) entries) as Haff.
  { intros id prID pr Hid Hpr Hopen' Hin. apply list_elem_of_filter. split.
    - split; [done|]. apply Exists_exists. by exists id.
    - rewrite Hperm. by apply elem_of_map_to_list. }
  split; [|split].
  - intros id Hid. rewrite deactivate_lookup, decide_True by done.
    pose proof (validUserIDs_exist r (deactivate_TeamName req) (UserIDs req)) as Hex.
    eapply Forall_forall in Hex as (user & Hu & _); [|exact Hid].
    rewrite Hu. by eexists.
  - intros id prID pr Hid Hpr Hopen' Hin.
    by apply (DeactivateTeamUsers_clears req w _ _ id prID pr Hpk Hau Hrun).
  - exists (filter (affected r batch) entries).*2, reviewersMap, (concat plans).
    eexists _, w2. split; [exact Hopen|]. split; [exact Hplan|].
    split; [|split].
    + intros id prID pr Hid Hpr Hopen' Hin.
      pose proof (Haff id prID pr Hid Hpr Hopen' Hin) as Hentry.
      apply (plan_one_record
               (λ entry, filter (λ id, id ∈ batch) (reviewersOf r entry.1))
               (filter (affected r batch) entries) plans prID pr id); try done.
      * eapply sublist_NoDup; [|apply fmap_sublist, sublist_filter].
        rewrite Hperm. apply NoDup_fst_map_to_list.
      * apply NoDup_filter. unfold reviewersOf. cbn [fst].
        destruct (prReviewers r !! prID) as [l|] eqn:Hl; [|apply NoDup_nil_2].
        by apply Hnd in Hl.
      * by apply list_elem_of_filter.
    + intros prID. unfold reviewersOf. cbn [store prReviewers]. apply reassign_swap.
    + cbn [history store prReviewers]. f_equal. by destruct (concat plans).
Qed.

Lemma DeactivateTeamUsers_reconciled_witness :
  prs_keyed (store examples.world1)
  ∧ authors_exist (store examples.world1)
  ∧ reviewers_NoDup (store examples.world1)
  ∧ ∃ resp w',
      usecase.DeactivateTeamUsers examples.deactivate_u3 examples.world1 = (Ok resp, w')
      ∧ DeactivatedUsers resp = ["u3"]
      ∧ reviewersOf (store w') "pr-1" = ["u4"; "u2"]
      ∧ (∀ id, id ∈ DeactivatedUsers resp →
               ∃ user, users (store w') !! id = Some user ∧ IsActive user = false)
      ∧ (∀ id prID pr,
           id ∈ DeactivatedUsers resp →
           prs (store w') !! prID = Some pr →
           Status pr = PRStatusOpen →
           id ∉ reviewersOf (store w') prID).
Proof.
  assert (prs_keyed (store examples.world1)) as Hpk.
  { apply (bool_decide_unpack _). vm_compute. exact I. }
  assert (authors_exist (store examples.world1)) as Hau.
  { apply (bool_decide_unpack _). vm_compute. exact I. }
  assert (reviewers_NoDup (store examples.world1)) as Hnd.
  { apply (bool_decide_unpack _). vm_compute. exact I. }
  split; [exact Hpk|]. split; [exact Hau|]. split; [exact Hnd|].
  eexists _, _.
  eassert (usecase.DeactivateTeamUsers examples.deactivate_u3 examples.world1 = (Ok _, _))
    as Hrun.
  { vm_compute. reflexivity. }
  split; [exact Hrun|]. split; [reflexivity|]. split; [vm_compute; reflexivity|].
  destruct (DeactivateTeamUsers_reconciled _ _ _ _ Hpk Hau Hnd Hrun) as (H1 & H2 & _).
  split; [exact H1|exact H2].
Defined.

(** ** Deactivating team members: the reviewers after the plan *)

Lemma filter_all {A} (P : A → Prop) `{∀ x, Decision (P x)} (l : list A) :
  (∀ x, x ∈ l → P x) → filter P l = l.
Proof.
  induction l as [|y l IH]; intros Hl; [done|].
  rewrite filter_cons_True by (apply Hl; left).
  f_equal. apply IH. intros x Hx. apply Hl. by right.
Qed.

Lemma planned_swap r prID authorID batch taken removed records reviewers :
  planned r prID authorID batch taken removed records →
  Forall (λ id, id ∈ batch) removed →
  foldl swap reviewers records
  = filter (λ id, id ∉ removed) reviewers ++ replacements records.
Proof.
  intros Hpl. revert reviewers.
  induction Hpl as [|taken x reviewer candidates removed records Hu Hc Hpl IH];
    intros reviewers Hrem.
  - cbn [foldl]. unfold replacements. rewrite fmap_nil, filter_nil, app_nil_r.
    symmetry. apply filter_all. intros id _. apply not_elem_of_nil.
  - apply Forall_cons in Hrem as [Hx Hrem]. cbn [foldl]. rewrite IH by done.
    unfold swap at 1, replacements. cbn [OldReviewerID NewReviewerID].
    rewrite fmap_cons, filter_cons. cbn [NewReviewerID].
    set (id := replacement_id _).
    rewrite filter_app, list_filter_filter, <- app_assoc. f_equal.
    + apply list_filter_iff. intros y. rewrite not_elem_of_cons. tauto.
    + destruct (decide (id ≠ "")) as [Hid|Hid]; [|done].
      rewrite filter_cons_True; [done|].
      intros Hin. eapply Forall_forall in Hrem; [|exact Hin].
      subst id. unfold first_eligible, replacement_id in Hrem, Hid.
      destruct (list_find _ candidates) as [[i c]|] eqn:Hfind; [|done].
      apply list_find_Some in Hfind as (_ & (_ & _ & Hb) & _). done.
Qed.

Lemma plan_records_none (entries : list (string * PullRequest))
    (plans : list (list PRReassignment)) prID :
  Forall2 (λ entry records,
             Forall (λ ra, reassignment_PullRequestID ra = entry.1) records)
          entries plans →
  prID ∉ entries.*1 →
  filter (λ ra, reassignment_PullRequestID ra = prID) (concat plans) = [].
Proof.
  induction 1 as [|entry records entries plans Hpid HF IH]; intros Hfresh; [done|].
  rewrite fmap_cons in Hfresh. apply not_elem_of_cons in Hfresh as [Hne Hfresh].
  cbn [concat]. rewrite filter_app, IH by done. rewrite app_nil_r.
  apply filter_none. intros ra Hin Hp. eapply Forall_forall in Hpid; [|done]. congruence.
Qed.

(** The records of the plan that bear the id of an affected pull request are
    the records planned for it. *)
Lemma plan_records_of (P : string * PullRequest → list PRReassignment → Prop)
    (entries : list (string * PullRequest)) (plans : list (list PRReassignment)) prID pr :
  NoDup entries.*1 →
  Forall2 (λ entry records,
             P entry records
             ∧ Forall (λ ra, reassignment_PullRequestID ra = entry.1) records)
          entries plans →
  (prID, pr) ∈ entries →
  ∃ records,
    P (prID, pr) records
    ∧ filter (λ ra, reassignment_PullRequestID ra = prID) (concat plans) = records.
Proof.
  intros Hnd HF Hin.
  induction HF as [|entry records entries plans [HP Hpid] HF IH];
    [by apply elem_of_nil in Hin|].
  rewrite fmap_cons in Hnd. apply NoDup_cons in Hnd as [Hfresh Hnd].
  cbn [concat]. rewrite filter_app.
  destruct (decide (entry.1 = prID)) as [Heq|Hne].
  - assert (entry = (prID, pr)) as ->.
    { apply elem_of_cons in Hin as [Heq'|Hin]; [done|]. destruct Hfresh.
      rewrite Heq. apply list_elem_of_fmap. by exists (prID, pr). }
    exists records. split; [done|].
    rewrite (plan_records_none entries plans prID); [|by eapply Forall2_impl; [exact HF|];
                                                       intros ?? [_ ?]|done].
    rewrite app_nil_r. apply filter_all. intros ra Hra.
    by eapply Forall_forall in Hpid.
  - apply elem_of_cons in Hin as [Heq|Hin]; [subst entry; by destruct Hne|].
    destruct (IH Hnd Hin) as (records' & HP' & Hrec). exists records'.
    split; [done|]. rewrite Hrec.
    rewrite filter_none; [done|]. intros ra Hra Hp.
    eapply Forall_forall in Hpid; [|done]. congruence.
Qed.

Lemma filter_ext_elem_of {A} (P Q : A → Prop) `{∀ x, Decision (P x)} `{∀ x, Decision (Q x)}
    (l : list A) :
  (∀ x, x ∈ l → P x ↔ Q x) → filter P l = filter Q l.
Proof.
  induction l as [|y l IH]; intros Hl; [done|].
  rewrite !filter_cons. rewrite IH by (intros x Hx; apply Hl; by right).
  apply decide_ext, Hl. by left.
Qed.

(** The records of an affected pull request, and its reviewers afterwards. *)
Lemma DeactivateTeamUsers_planned req w resp w' prID pr :
  users_keyed (store w) →
  prs_keyed (store w) →
  authors_exist (store w) →
  usecase.DeactivateTeamUsers req w = (Ok resp, w') →
  prs (store w) !! prID = Some pr →
  Status pr = PRStatusOpen →
  Exists (λ id, id ∈ DeactivatedUsers resp) (reviewersOf (store w) prID) →
  ∃ records,
    planned (store w) prID (AuthorID pr) (DeactivatedUsers resp)
      (filter (λ id, id ∉ DeactivatedUsers resp) (reviewersOf (store w) prID))
      (filter (λ id, id ∈ DeactivatedUsers resp) (reviewersOf (store w) prID))
      records
    ∧ reviewersOf (store w') prID
      = filter (λ id, id ∉ DeactivatedUsers resp) (reviewersOf (store w) prID)
        ++ replacements records.
Proof.
  intros Huk Hpk Hau Hok Hpr Hopen' Hex.
  destruct (DeactivateTeamUsers_Ok_inv _ _ _ _ Hok) as [Hteam Hbatch].
  destruct (DeactivateTeamUsers_run req w Hteam Hbatch Hpk Hau)
    as (entries & plans & w2 & Hperm & HF & Hst2 & _ & Hrun).
  rewrite Hrun in Hok. injection Hok as <- <-.
  set (r := store w) in *.
  set (batch := validUserIDs r (deactivate_TeamName req) (UserIDs req)) in *.
  cbn [DeactivatedUsers store] in *.
  assert ((prID, pr) ∈ filter (affected r batch) entries) as Hentry.
  { apply list_elem_of_filter. split; [by split|].
    rewrite Hperm. by apply elem_of_map_to_list. }
  destruct (plan_records_of
              (λ entry records,
                 ∃ author,
                   users r !! AuthorID entry.2 = Some author
                   ∧ planned r entry.1 (UserID author) batch
                       (filter (λ id, id ∉ batch) (reviewersOf r entry.1))
                       (filter (λ id, id ∈ batch) (reviewersOf r entry.1))
                       records)
              (filter (affected r batch) entries) plans prID pr)
    as (records & (author & Hauthor & Hpl) & Hrecs); [| |done|].
  { eapply sublist_NoDup; [|apply fmap_sublist, sublist_filter].
    rewrite Hperm. apply NoDup_fst_map_to_list. }
  { eapply Forall2_impl; [exact HF|]. intros entry records (author & Ha & Hpl).
    split; [by exists author|]. by apply planned_records in Hpl as (_ & ? & _). }
  cbn [fst snd] in Hauthor, Hpl.
  pose proof (Huk _ _ Hauthor) as Hid. cbn in Hid. rewrite Hid in Hpl.
  exists records. split; [done|].
  unfold reviewersOf at 1. cbn [prReviewers]. rewrite reassign_swap, Hrecs.
  fold (reviewersOf r prID).
  rewrite (planned_swap _ _ _ _ _ _ _ _ Hpl).
  - f_equal. apply filter_ext_elem_of. intros id Hin.
    rewrite list_elem_of_filter. tauto.
  - apply Forall_forall. by intros id [? _]%list_elem_of_filter.
Qed.


(** A pull request that is not affected keeps its reviewers. *)
Lemma DeactivateTeamUsers_unaffected req w resp w' prID :
  prs_keyed (store w) →
  authors_exist (store w) →
  usecase.DeactivateTeamUsers req w = (Ok resp, w') →
  (∀ pr, prs (store w) !! prID = Some pr →
         ¬ affected (store w) (DeactivatedUsers resp) (prID, pr)) →
  prReviewers (store w') !! prID = prReviewers (store w) !! prID.
Proof.
  intros Hpk Hau Hok Hnot.
  destruct (DeactivateTeamUsers_Ok_inv _ _ _ _ Hok) as [Hteam Hbatch].
  destruct (DeactivateTeamUsers_run req w Hteam Hbatch Hpk Hau)
    as (entries & plans & w2 & Hperm & HF & Hst2 & _ & Hrun).
  rewrite Hrun in Hok. injection Hok as <- <-.
  cbn [DeactivatedUsers store prReviewers] in *.
  apply reassign_other. apply Forall_forall. intros ra Hra Hp.
  apply list_elem_of_In, in_concat in Hra as (records & Hrecs & Hra).
  apply list_elem_of_In in Hrecs, Hra.
  apply list_elem_of_lookup in Hrecs as [i Hi].
  destruct (Forall2_lookup_r _ _ _ _ _ HF Hi) as ([k pr] & Hk & author & _ & Hpl).
  apply planned_records in Hpl as (_ & Hpid & _). cbn [fst] in Hpid.
  eapply Forall_forall in Hpid; [|exact Hra]. rewrite Hp in Hpid. subst k.
  apply list_elem_of_lookup_2, list_elem_of_filter in Hk as [Haff Hin].
  rewrite Hperm in Hin. apply elem_of_map_to_list in Hin. by apply Hnot in Haff.
Qed.

(** The first eligible candidate is eligible and no candidate before it is;
    there is none exactly when no candidate is eligible. *)
Lemma first_eligible_spec authorID taken batch candidates :
  match first_eligible authorID taken batch candidates with
  | Some c =>
      ∃ before after,
        candidates = before ++ c :: after
        ∧ eligible authorID taken batch c
        ∧ Forall (λ c', ¬ eligible authorID taken batch c') before
  | None => Forall (λ c', ¬ eligible authorID taken batch c') candidates
  end.
Proof.
  unfold first_eligible.
  destruct (list_find _ candidates) as [[i c]|] eqn:Hfind; cbn [fmap option_fmap option_map snd].
  - apply list_find_Some in Hfind as (Hi & He & Hbefore).
    exists (take i candidates), (drop (S i) candidates).
    split; [by rewrite take_drop_middle|]. split; [done|].
    apply Forall_forall. intros c' Hin.
    apply list_elem_of_lookup in Hin as [j Hj].
    pose proof (lookup_lt_Some _ _ _ Hj) as Hlt. rewrite length_take in Hlt.
    rewrite lookup_take_lt in Hj by lia. eapply Hbefore; [done|lia].
  - by apply list_find_None in Hfind.
Qed.

(** ** Deactivating team members: the candidates chosen *)

(** What the planner records and what it takes as assigned, by the choice
    it made. *)
Lemma replacement_id_taken (l : list string) choice :
  (if decide (replacement_id choice ≠ "") then l ++ [replacement_id choice] else l)
  = l ++ option_list (replacement choice).
Proof.
  destruct choice as [c|]; cbn.
  - destruct (decide (UserID c = "")) as [He|He].
    + rewrite decide_False by (by intros H). by rewrite app_nil_r.
    + by rewrite decide_True.
  - rewrite decide_False by (by intros H). by rewrite app_nil_r.
Qed.

Lemma findReviewerReplacement_chosen reviewerID reviewer author assigned dset taken batch
    candidates w w1 :
  users (store w) !! reviewerID = Some reviewer →
  holds assigned taken → holds dset batch →
  repo.GetActiveTeamMembers (TeamName reviewer) reviewerID w = (Ok candidates, w1) →
  usecase.findReviewerReplacement reviewerID author assigned dset w
  = (Ok (replacement_id (first_eligible (UserID author) taken batch candidates)), w1).
Proof.
  intros Hu Ha Hd Hrun.
  unfold usecase.findReviewerReplacement, bind, attempt.
  rewrite GetUser_run, Hu, Hrun. unfold ret.
  by rewrite (first_valid_first_eligible _ _ _ _ taken batch).
Qed.

Lemma replace_removed_chosen pr author batch dset current st w :
  holds dset batch →
  holds (assignedReviewers st) (newReviewers st) →
  (∀ id, id ∈ current → id ∈ batch → is_Some (users (store w) !! id)) →
  ∃ st' w' choices,
    usecase.replace_removed pr author dset current st w = (Ok st', w')
    ∧ store w' = store w
    ∧ chosen (UserID author) batch w (newReviewers st)
        (filter (λ id, id ∈ batch) current) choices w'
    ∧ reassignments st'
      = reassignments st
        ++ records_of (PullRequestID pr) (filter (λ id, id ∈ batch) current) choices.
Proof.
  intros Hd. revert st w. induction current as [|x current IH]; intros st w Hst Hex.
  - exists st, w, []. rewrite filter_nil. unfold records_of. cbn [zip_with].
    rewrite app_nil_r. repeat split; try done. constructor.
  - cbn [usecase.replace_removed]. rewrite filter_cons, (Hd x).
    destruct (decide (x ∈ batch)) as [Hx|Hx].
    + rewrite bool_decide_eq_true_2 by done. cbn [negb].
      destruct (Hex x) as [reviewer Hrev]; [by left|done|].
      destruct (GetActiveTeamMembers_run (TeamName reviewer) x w)
        as (candidates & Hcand & _).
      unfold bind.
      rewrite (findReviewerReplacement_chosen x reviewer author (assignedReviewers st) dset
                 (newReviewers st) batch candidates w _ Hrev Hst Hd Hcand).
      set (choice := first_eligible (UserID author) (newReviewers st) batch candidates).
      set (st1 := {| reassignments := _; oldReviewers := _; newReviewers := _;
                     assignedReviewers := _ |}).
      assert (newReviewers st1 = newReviewers st ++ option_list (replacement choice)) as Hnew.
      { subst st1. cbn [newReviewers]. apply replacement_id_taken. }
      destruct (IH st1 (after_range_users w)) as (st' & w' & choices & Hrun' & Hst' & Hch & H1).
      { subst st1. cbn [assignedReviewers newReviewers].
        destruct (decide (replacement_id choice ≠ "")); [by apply holds_insert|done]. }
      { intros id' Hin ?. apply Hex; [by right|done]. }
      exists st', w', (choice :: choices). rewrite Hrun'.
      split; [done|]. split; [done|]. split.
      * econstructor; [exact Hrev|exact Hcand|]. fold choice. by rewrite <- Hnew.
      * rewrite H1. subst st1. cbn [reassignments]. unfold records_of. cbn [zip_with].
        by rewrite <- app_assoc.
    + rewrite bool_decide_eq_false_2 by done. cbn [negb].
      apply IH; [done|]. intros id' Hin ?. apply Hex; [by right|done].
Qed.

Lemma chosen_store authorID batch w taken removed choices w' :
  chosen authorID batch w taken removed choices w' → store w' = store w.
Proof.
  induction 1 as [|w w1 w' taken x reviewer candidates removed choices Hu Hrun _ IH]; [done|].
  rewrite IH. destruct (GetActiveTeamMembers_run (TeamName reviewer) x w) as (c & Hc & _).
  rewrite Hc in Hrun. by injection Hrun as _ <-.
Qed.

Lemma chosen_length authorID batch w taken removed choices w' :
  chosen authorID batch w taken removed choices w' → length choices = length removed.
Proof. induction 1; cbn [length]; congruence. Qed.

Lemma reconciled_length r batch w prsl rounds w' :
  reconciled r batch w prsl rounds w' → length rounds = length prsl.
Proof. induction 1; cbn [length]; congruence. Qed.

Lemma processPRReassignments_chosen pr author current batch w :
  users (store w) !! AuthorID pr = Some author →
  (∀ id, id ∈ current → id ∈ batch → is_Some (users (store w) !! id)) →
  ∃ choices summary w',
    usecase.processPRReassignments pr current (usecase.createUserIDSet batch) w
    = (Ok (records_of (PullRequestID pr) (filter (λ id, id ∈ batch) current) choices,
           summary), w')
    ∧ chosen (UserID author) batch w
        (filter (λ id, id ∉ batch) current) (filter (λ id, id ∈ batch) current) choices w'.
Proof.
  intros Hau Hex. pose proof (createUserIDSet_holds batch) as Hd.
  destruct (keep_staying_run current _ batch Hd) as (K1 & K2 & K3 & K4).
  destruct (replace_removed_chosen pr author batch _ current _ w Hd K4 Hex)
    as (st' & w' & choices & Hrun & Hst & Hch & H1).
  unfold usecase.processPRReassignments, bind, attempt.
  rewrite GetUser_run, Hau, Hrun. unfold ret.
  rewrite H1, K1. cbn [app]. rewrite K3 in Hch.
  by eexists _, _, _.
Qed.

Lemma planReviewerReassignments_loop_chosen prsl reviewersMap batch acc w :
  users_keyed (store w) →
  (∀ pr, pr ∈ prsl → is_Some (users (store w) !! AuthorID pr)) →
  (∀ pr, pr ∈ prsl →
         default [] (reviewersMap !! PullRequestID pr)
         = reviewersOf (store w) (PullRequestID pr)) →
  Forall (λ id, is_Some (users (store w) !! id)) batch →
  ∃ rounds summaries w',
    usecase.planReviewerReassignments_loop prsl reviewersMap
      (usecase.createUserIDSet batch) acc w
    = (Ok (acc.1
           ++ concat (zip_with
                        (λ pr choices,
                           records_of (PullRequestID pr)
                             (filter (λ id, id ∈ batch)
                                     (reviewersOf (store w) (PullRequestID pr)))
                             choices)
                        prsl rounds),
           summaries), w')
    ∧ reconciled (store w) batch w prsl rounds w'.
Proof.
  intros Huk Hau Hmap Hb. revert acc w Huk Hau Hmap Hb.
  induction prsl as [|pr prsl IH]; intros acc w Huk Hau Hmap Hb.
  - exists [], acc.2, w. cbn [usecase.planReviewerReassignments_loop concat zip_with].
    rewrite app_nil_r. unfold ret. destruct acc. split; [done|]. constructor.
  - destruct (Hau pr) as [author Hauthor]; [by left|].
    destruct (processPRReassignments_chosen pr author
                (default [] (reviewersMap !! PullRequestID pr)) batch w Hauthor)
      as (choices & summary & w1 & Hrun & Hch).
    { intros id _ Hin. by eapply Forall_forall in Hb. }
    pose proof (chosen_store _ _ _ _ _ _ _ Hch) as Hst.
    pose proof (Hmap pr ltac:(by left)) as Hm.
    pose proof (Huk _ _ Hauthor) as Hid. cbn in Hid.
    rewrite Hid, Hm in Hch. rewrite Hm in Hrun.
    cbn [usecase.planReviewerReassignments_loop]. rewrite Hm.
    unfold bind at 1. rewrite Hrun.
    set (acc1 := (acc.1 ++ _, _)).
    destruct (IH acc1 w1) as (rounds & summaries & w' & Hrun' & Hrec).
    { by rewrite Hst. }
    { intros pr' Hin. rewrite Hst. apply Hau. by right. }
    { intros pr' Hin. rewrite Hst. apply Hmap. by right. }
    { by rewrite Hst. }
    rewrite Hrun'. subst acc1. cbn [fst snd]. rewrite Hst in Hrec |- *.
    exists (choices :: rounds), summaries, w'. split.
    + cbn [concat zip_with]. by rewrite <- app_assoc.
    + econstructor; [exact Hch|exact Hrec].
Qed.

Lemma option_list_replacement choice :
  (if decide (replacement_id choice ≠ "") then [replacement_id choice] else [])
  = option_list (replacement choice).
Proof.
  destruct choice as [c|]; cbn.
  - destruct (decide (UserID c = "")) as [He|He].
    + by rewrite decide_False by (by intros H).
    + by rewrite decide_True.
  - by rewrite decide_False by (by intros H).
Qed.

Lemma replacement_eligible authorID taken batch candidates id :
  replacement (first_eligible authorID taken batch candidates) = Some id →
  id ≠ "" ∧ ∃ c, first_eligible authorID taken batch candidates = Some c
                 ∧ UserID c = id ∧ c ∈ candidates ∧ eligible authorID taken batch c.
Proof.
  pose proof (first_eligible_spec authorID taken batch candidates) as Hspec.
  destruct (first_eligible authorID taken batch candidates) as [c|]; [|done].
  cbn. destruct (decide (UserID c = "")) as [He|He]; [done|].
  intros [= <-]. split; [done|]. exists c.
  destruct Hspec as (before & after & -> & Hel & _).
  repeat split; try done; try apply Hel. apply elem_of_app. right. by left.
Qed.

(** The swaps of the records of a pull request leave the staying reviewers,
    followed by the replacements. *)
Lemma chosen_swap authorID batch w taken removed choices w' prID reviewers :
  chosen authorID batch w taken removed choices w' →
  Forall (λ id, id ∈ batch) removed →
  foldl swap reviewers (records_of prID removed choices)
  = filter (λ id, id ∉ removed) reviewers ++ omap replacement choices.
Proof.
  intros Hch. revert reviewers.
  induction Hch as [|w w1 w' taken x reviewer candidates removed choices Hu Hrun Hch IH];
    intros reviewers Hrem.
  - cbn. rewrite app_nil_r. symmetry. apply filter_all. intros id _. apply not_elem_of_nil.
  - apply Forall_cons in Hrem as [Hx Hrem]. unfold records_of in *. cbn [zip_with foldl].
    rewrite IH by done. unfold swap at 1. cbn [OldReviewerID NewReviewerID].
    rewrite option_list_replacement.
    set (choice := first_eligible authorID taken batch candidates).
    rewrite filter_app, list_filter_filter, <- app_assoc. f_equal.
    + apply list_filter_iff. intros y. rewrite not_elem_of_cons. tauto.
    + change (omap replacement (choice :: choices))
        with (match replacement choice with
              | Some id => id :: omap replacement choices
              | None => omap replacement choices
              end).
      destruct (replacement choice) as [id|] eqn:Hrep; [|done].
      change (option_list (Some id)) with [id]. rewrite filter_cons_True; [done|].
      intros Hin. eapply Forall_forall in Hrem; [|exact Hin].
      apply replacement_eligible in Hrep as (_ & c & _ & <- & _ & _ & _ & Hb).
      cbn beta in Hrem. done.
Qed.

Lemma records_of_PullRequestID prID removed choices :
  Forall (λ ra, reassignment_PullRequestID ra = prID) (records_of prID removed choices).
Proof.
  unfold records_of. revert choices.
  induction removed as [|x removed IH]; intros [|c choices]; cbn [zip_with]; try done.
  constructor; [done|apply IH].
Qed.

(** The records of the plan that bear the id of a pull request are the
    records of that pull request. *)
Lemma records_of_filter (removed : PullRequest → list string) prsl rounds i pr choices :
  NoDup (PullRequestID <$> prsl) →
  prsl !! i = Some pr →
  rounds !! i = Some choices →
  filter (λ ra, reassignment_PullRequestID ra = PullRequestID pr)
         (concat (zip_with (λ pr choices, records_of (PullRequestID pr) (removed pr) choices)
                           prsl rounds))
  = records_of (PullRequestID pr) (removed pr) choices.
Proof.
  revert rounds i. induction prsl as [|pr0 prsl IH]; intros rounds i Hnd Hi Hr; [done|].
  rewrite fmap_cons in Hnd. apply NoDup_cons in Hnd as [Hfresh Hnd].
  destruct rounds as [|choices0 rounds]; [by destruct i|].
  cbn [zip_with concat]. rewrite filter_app.
  destruct i as [|i]; cbn in Hi, Hr.
  - injection Hi as ->. injection Hr as ->.
    rewrite filter_all.
    2:{ intros ra Hra. pose proof (records_of_PullRequestID (PullRequestID pr) (removed pr)
                                     choices) as Hall.
        by eapply Forall_forall in Hall. }
    rewrite filter_none; [by rewrite app_nil_r|].
    intros ra Hra Hp.
    apply list_elem_of_In, in_concat in Hra as (records & Hrecs & Hra).
    apply list_elem_of_In in Hrecs, Hra.
    apply list_elem_of_lookup in Hrecs as [j Hj].
    apply lookup_zip_with_Some in Hj as (pr' & choices' & -> & Hpr' & _).
    pose proof (records_of_PullRequestID (PullRequestID pr') (removed pr') choices') as Hall.
    eapply Forall_forall in Hall; [|exact Hra]. rewrite Hp in Hall.
    apply Hfresh. rewrite Hall. apply list_elem_of_fmap. exists pr'.
    split; [done|]. by eapply list_elem_of_lookup_2.
  - rewrite filter_none; [by apply (IH rounds i)|].
    intros ra Hra Hp.
    pose proof (records_of_PullRequestID (PullRequestID pr0) (removed pr0) choices0) as Hall.
    eapply Forall_forall in Hall; [|exact Hra]. rewrite Hp in Hall.
    apply Hfresh. rewrite <- Hall. apply list_elem_of_fmap. exists pr.
    split; [done|]. by eapply list_elem_of_lookup_2.
Qed.

Lemma reconciled_store r batch w prsl rounds w' :
  reconciled r batch w prsl rounds w' → store w' = store w.
Proof.
  induction 1 as [|w w1 w' pr prsl choices rounds Hch _ IH]; [done|].
  rewrite IH. by apply chosen_store in Hch.
Qed.

Lemma reconciled_lookup r batch w prsl rounds w' i pr choices :
  reconciled r batch w prsl rounds w' →
  prsl !! i = Some pr →
  rounds !! i = Some choices →
  ∃ wa wb,
    chosen (AuthorID pr) batch wa
      (filter (λ id, id ∉ batch) (reviewersOf r (PullRequestID pr)))
      (filter (λ id, id ∈ batch) (reviewersOf r (PullRequestID pr)))
      choices wb.
Proof.
  intros Hrec. revert i.
  induction Hrec as [|w w1 w' pr0 prsl choices0 rounds Hch Hrec IH]; intros i Hi Hr; [done|].
  destruct i as [|i]; cbn in Hi, Hr.
  - injection Hi as ->. injection Hr as ->. by eexists _, _.
  - by apply (IH i).
Qed.

(** What a successful [DeactivateTeamUsers] chooses, and the reviewers it
    leaves. *)
Lemma DeactivateTeamUsers_chosen req w resp w' :
  users_keyed (store w) →
  prs_keyed (store w) →
  authors_exist (store w) →
  usecase.DeactivateTeamUsers req w = (Ok resp, w') →
  ∃ w0 affectedPRs reviewersMap w1 rounds w2,
    usecase.getValidTeamUserIDsForDeactivation req w = (Ok (DeactivatedUsers resp), w0)
    ∧ repo.GetOpenPRsWithReviewers (DeactivatedUsers resp) w0
      = (Ok (affectedPRs, reviewersMap), w1)
    ∧ (∀ prID pr,
         prs (store w) !! prID = Some pr →
         Status pr = PRStatusOpen →
         Exists (λ id, id ∈ DeactivatedUsers resp) (reviewersOf (store w) prID) →
         pr ∈ affectedPRs)
    ∧ reconciled (store w) (DeactivatedUsers resp) w1 affectedPRs rounds w2
    ∧ tape w' = tape w2
    ∧ Forall2 (λ pr choices,
                 reviewersOf (store w') (PullRequestID pr)
                 = filter (λ id, id ∉ DeactivatedUsers resp)
                          (reviewersOf (store w) (PullRequestID pr))
                   ++ omap replacement choices)
              affectedPRs rounds.
Proof.
  intros Huk Hpk Hau Hok.
  destruct (DeactivateTeamUsers_Ok_inv _ _ _ _ Hok) as [[team Hteam] Hbatch].
  pose proof (getValidTeamUserIDsForDeactivation_run req w) as Hvalid.
  rewrite Hteam in Hvalid.
  set (r := store w) in *.
  set (batch := validUserIDs r (deactivate_TeamName req) (UserIDs req)) in *.
  assert (usecase.getValidTeamUserIDsForDeactivation req w
          = (Ok batch, after_range_users w)) as Hvalid'.
  { rewrite Hvalid. by destruct batch. }
  clear Hvalid.
  destruct (GetOpenPRsWithReviewers_run batch (after_range_users w))
    as (entries & reviewersMap & Hperm & Hopen & Hmap).
  cbn [store after_range_users] in Hperm, Hmap, Hopen. fold r in Hperm, Hmap, Hopen.
  set (affectedPRs := filter (affected r batch) entries) in *.
  set (w1 := after_range_prs (after_range_users w)) in *.
  assert (store w1 = r) as Hst1 by done.
  assert (∀ prID pr, (prID, pr) ∈ affectedPRs → prs r !! prID = Some pr) as Hprs.
  { intros prID pr [_ Hin]%list_elem_of_filter. rewrite Hperm in Hin.
    by apply elem_of_map_to_list in Hin. }
  assert (∀ pr, pr ∈ affectedPRs.*2 → (PullRequestID pr, pr) ∈ affectedPRs) as Hkeyed.
  { intros pr ([prID pr'] & -> & Hin)%list_elem_of_fmap. cbn [snd].
    pose proof (Hprs _ _ Hin) as Hpr. apply Hpk in Hpr. cbn in Hpr. by rewrite Hpr. }
  assert (NoDup (PullRequestID <$> affectedPRs.*2)) as Hnd.
  { assert (PullRequestID <$> affectedPRs.*2 = affectedPRs.*1) as ->.
    { rewrite <- list_fmap_compose. apply list_fmap_ext. intros i [prID pr] Hi. cbn.
      apply list_elem_of_lookup_2 in Hi. apply Hprs in Hi. by apply Hpk in Hi. }
    eapply sublist_NoDup; [|apply fmap_sublist, sublist_filter].
    rewrite Hperm. apply NoDup_fst_map_to_list. }
  destruct (planReviewerReassignments_loop_chosen affectedPRs.*2 reviewersMap batch ([], []) w1)
    as (rounds & summaries & w2 & Hplan & Hrec).
  { by rewrite Hst1. }
  { intros pr Hin. rewrite Hst1. apply Hkeyed, Hprs in Hin. by apply Hau in Hin. }
  { intros pr Hin. rewrite Hst1. apply Hkeyed in Hin. by rewrite (Hmap _ _ Hin). }
  { rewrite Hst1. eapply Forall_impl; [apply validUserIDs_exist|].
    intros id (user & Hu & _). eauto. }
  rewrite Hst1 in Hplan, Hrec. cbn [fst app] in Hplan.
  remember (concat _) as plan eqn:Hplan_def in Hplan.
  assert (store w2 = r) as Hst2.
  { rewrite <- Hst1. by eapply reconciled_store. }
  assert (∃ hist,
            usecase.applyDeactivationChanges batch plan w2
            = (Ok tt, {| store := {| teams := teams r;
                                     users := foldl repo.deactivate (users r) batch;
                                     prs := prs r;
                                     prReviewers := foldl repo.reassign (prReviewers r) plan |};
                         tape := tape w2; clock := clock w2; history := hist |}))
    as [hist Happly].
  { unfold usecase.applyDeactivationChanges, bind.
    destruct (decide (0 < length plan)) as [Hlen|Hlen].
    - rewrite BulkReassignReviewers_run, DeactivateUsers_run. unfold written.
      cbn [store tape clock history teams users prs prReviewers].
      rewrite Hst2. by eexists.
    - unfold ret. rewrite DeactivateUsers_run, Hst2. unfold written.
      destruct plan; [by eexists|]. cbn [length] in Hlen. lia. }
  unfold usecase.DeactivateTeamUsers in Hok. unfold bind at 1 in Hok.
  rewrite Hvalid' in Hok. unfold bind at 1 in Hok. rewrite Hopen in Hok.
  unfold bind at 1 in Hok. unfold usecase.planReviewerReassignments in Hok.
  rewrite Hplan in Hok. unfold bind in Hok. rewrite Happly in Hok. unfold ret in Hok.
  injection Hok as <- <-. cbn [DeactivatedUsers store tape prReviewers].
  exists (after_range_users w), affectedPRs.*2, reviewersMap, w1, rounds, w2.
  split; [done|]. split; [done|]. split; [|split; [done|split; [done|]]].
  - intros prID pr Hpr Hopen' Hex. apply list_elem_of_fmap. exists (prID, pr).
    split; [done|]. apply list_elem_of_filter. split; [by split|].
    rewrite Hperm. by apply elem_of_map_to_list.
  - apply Forall2_same_length_lookup_2.
    { symmetry. by eapply reconciled_length. }
    intros i pr choices Hi Hr.
    destruct (reconciled_lookup _ _ _ _ _ _ i pr choices Hrec Hi Hr) as (wa & wb & Hch).
    unfold reviewersOf at 1. cbn [prReviewers]. rewrite reassign_swap.
    fold (reviewersOf r (PullRequestID pr)). rewrite Hplan_def.
    rewrite (records_of_filter
               (λ pr, filter (λ id, id ∈ batch) (reviewersOf r (PullRequestID pr)))
               affectedPRs.*2 rounds i pr choices Hnd Hi Hr).
    rewrite (chosen_swap _ _ _ _ _ _ _ _ _ Hch).
    + f_equal. apply filter_ext_elem_of. intros id Hin.
      rewrite list_elem_of_filter. tauto.
    + apply Forall_forall. by intros id [? _]%list_elem_of_filter.
Qed.
(** C2, as the claim states it, fails.  In a world that calls of the service
    reach, "u2" is the only reviewer of the OPEN pull request "pr-1" of "u1",
    and the active member of its team whose id is the empty string is
    neither the author, nor assigned, nor in the batch; yet deactivating
    "u2" leaves "pr-1" without reviewer: a candidate qualifies and the
    removed reviewer is dropped with no replacement. *)
Lemma DeactivateTeamUsers_replacements_counterexample :
  reachable cases.with_anonymous
  ∧ prs (store cases.with_anonymous) !! "pr-1" = Some examples.pr1
  ∧ reviewersOf (store cases.with_anonymous) "pr-1" = ["u2"]
  ∧ examples.user "" "backend" true
      ∈ activeTeamMembers (store cases.with_anonymous) "backend" "u2"
  ∧ eligible "u1" [] ["u2"] (examples.user "" "backend" true)
  ∧ (∃ w', usecase.DeactivateTeamUsers examples.deactivate_u2 cases.with_anonymous
           = (Ok {| DeactivatedUsers := ["u2"];
                    ReassignedPRs := [{| summary_PullRequestID := "pr-1";
                                         OldReviewers := ["u2"];
                                         NewReviewers := [] |}] |}, w')
           ∧ reviewersOf (store w') "pr-1" = [])
  ∧ ¬ (∀ req w resp w' prID pr reviewerID reviewer c,
         reachable w →
         usecase.DeactivateTeamUsers req w = (Ok resp, w') →
         prs (store w) !! prID = Some pr →
         Status pr = PRStatusOpen →
         reviewersOf (store w) prID = [reviewerID] →
         reviewerID ∈ DeactivatedUsers resp →
         users (store w) !! reviewerID = Some reviewer →
         c ∈ activeTeamMembers (store w) (TeamName reviewer) reviewerID →
         eligible (AuthorID pr) [] (DeactivatedUsers resp) c →
         reviewersOf (store w') prID ≠ []).
Proof.
  assert (reachable cases.with_anonymous) as Hreach.
  { apply reachable_SetUserActive, reachable_CreatePR, reachable_CreateTeam, reachable_new. }
  assert (examples.user "" "backend" true
            ∈ activeTeamMembers (store cases.with_anonymous) "backend" "u2") as Hin.
  { first [apply (list_elem_of_lookup_2 _ 0); vm_compute; reflexivity
          |apply (list_elem_of_lookup_2 _ 1); vm_compute; reflexivity]. }
  assert (eligible "u1" [] ["u2"] (examples.user "" "backend" true)) as Hel.
  { split; [discriminate|]. split; [apply not_elem_of_nil|].
    intros Hin'%list_elem_of_singleton. discriminate. }
  eassert (usecase.DeactivateTeamUsers examples.deactivate_u2 cases.with_anonymous
           = (Ok _, _)) as Hrun.
  { vm_compute. reflexivity. }
  split; [exact Hreach|]. split; [vm_compute; reflexivity|].
  split; [vm_compute; reflexivity|]. split; [exact Hin|]. split; [exact Hel|]. split.
  - eexists. split; [exact Hrun|]. vm_compute. reflexivity.
  - intros H.
    refine (H examples.deactivate_u2 cases.with_anonymous _ _ "pr-1" examples.pr1 "u2"
              (examples.user "u2" "backend" true) (examples.user "" "backend" true)
              Hreach Hrun _ _ _ _ _ Hin Hel _).
    + vm_compute. reflexivity.
    + reflexivity.
    + vm_compute. reflexivity.
    + cbn [DeactivatedUsers]. apply list_elem_of_singleton. reflexivity.
    + vm_compute. reflexivity.
    + vm_compute. reflexivity.
Qed.



(** The same store with the users enumerated in another order: "u5" comes
    before "u2", and "u5" takes over. *)
Lemma example_choice_follows_enumeration :
  (repo.GetActiveTeamMembers "backend" "u3"
     (after_range_prs (after_range_users examples.world_five'))).1
  = Ok [examples.user "u5" "backend" true; examples.user "u1" "backend" true;
        examples.user "u2" "backend" true; examples.user "u4" "backend" true]
  ∧ ∃ resp w',
      usecase.DeactivateTeamUsers examples.deactivate_only_u3 examples.world_five'
      = (Ok resp, w')
      ∧ reviewersOf (store w') "pr-1" = ["u4"; "u5"].
Proof.
  split; [vm_compute; reflexivity|]. eexists _, _.
  split; [vm_compute; reflexivity|]. vm_compute. reflexivity.
Qed.

(** C9.  [DeactivateTeamUsers] does not look at the activity flag of the
    requested users: when the team exists and every requested id names an
    inactive user of the team, it succeeds, returns the requested ids as
    deactivated, and leaves none of them a reviewer of an OPEN pull
    request.  The reviewer slots they hold are reassigned like those of any
    other user of a batch: every OPEN pull request with a requested id among
    its reviewers is reconciled, and its reviewers afterwards are the
    staying ones followed by the replacements chosen. *)
Theorem DeactivateTeamUsers_already_inactive req w :
  prs_keyed (store w) →
  authors_exist (store w) →
  is_Some (teams (store w) !! deactivate_TeamName req) →
  UserIDs req ≠ [] →
  Forall (λ id, ∃ user, users (store w) !! id = Some user
                        ∧ TeamName user = deactivate_TeamName req
                        ∧ IsActive user = false) (UserIDs req) →
  ∃ resp w',
    usecase.DeactivateTeamUsers req w = (Ok resp, w')
    ∧ DeactivatedUsers resp = UserIDs req
    ∧ (∀ id prID pr,
         id ∈ UserIDs req →
         prs (store w') !! prID = Some pr →
         Status pr = PRStatusOpen →
         id ∉ reviewersOf (store w') prID)
    ∧ (users_keyed (store w) →
       ∃ w0 affectedPRs reviewersMap w1 rounds w2,
         usecase.getValidTeamUserIDsForDeactivation req w = (Ok (UserIDs req), w0)
         ∧ repo.GetOpenPRsWithReviewers (UserIDs req) w0
           = (Ok (affectedPRs, reviewersMap), w1)
         ∧ (∀ prID pr,
              prs (store w) !! prID = Some pr →
              Status pr = PRStatusOpen →
              Exists (λ id, id ∈ UserIDs req) (reviewersOf (store w) prID) →
              pr ∈ affectedPRs)
         ∧ reconciled (store w) (UserIDs req) w1 affectedPRs rounds w2
         ∧ Forall2 (λ pr choices,
                      reviewersOf (store w') (PullRequestID pr)
                      = filter (λ id, id ∉ UserIDs req)
                               (reviewersOf (store w) (PullRequestID pr))
                        ++ omap replacement choices)
                   affectedPRs rounds).
Proof.
  intros Hpk Hau Hteam Hne Hall.
  assert (validUserIDs (store w) (deactivate_TeamName req) (UserIDs req) = UserIDs req)
    as Hvalid.
  { apply filter_all. intros id Hin. eapply Forall_forall in Hall; [|exact Hin].
    destruct Hall as (user & -> & <- & _). done. }
  destruct (DeactivateTeamUsers_run req w Hteam)
    as (entries & plans & w2 & _ & _ & _ & _ & Hrun);
    [by rewrite Hvalid|done|done|].
  rewrite Hvalid in Hrun. eexists _, _. split; [exact Hrun|]. split; [done|]. split.
  - intros id prID pr Hid.
    by apply (DeactivateTeamUsers_clears req w _ _ id prID pr Hpk Hau Hrun).
  - intros Huk.
    destruct (DeactivateTeamUsers_chosen req w _ _ Huk Hpk Hau Hrun)
      as (w0 & affectedPRs & reviewersMap & w1 & rounds & w2' & H1 & H2 & H3 & H4 & _ & H5).
    cbn [DeactivatedUsers] in H1, H2, H3, H4, H5.
    by exists w0, affectedPRs, reviewersMap, w1, rounds, w2'.
Qed.

Lemma DeactivateTeamUsers_already_inactive_witness :
  (∃ user, users (store examples.world1_idle) !! "u3" = Some user ∧ IsActive user = false)
  ∧ "u3" ∈ reviewersOf (store examples.world1_idle) "pr-1"
  ∧ ∃ resp w',
      usecase.DeactivateTeamUsers examples.deactivate_only_u3 examples.world1_idle
      = (Ok resp, w')
      ∧ DeactivatedUsers resp = ["u3"]
      ∧ reviewersOf (store w') "pr-1" = ["u4"; "u2"].
Proof.
  split; [eexists; split; vm_compute; reflexivity|].
  split; [apply (bool_decide_unpack _); vm_compute; exact I|].
  destruct (DeactivateTeamUsers_already_inactive
              examples.deactivate_only_u3 examples.world1_idle)
    as (resp & w' & Hrun & Hids & _).
  - apply (bool_decide_unpack _). vm_compute. exact I.
  - apply (bool_decide_unpack _). vm_compute. exact I.
  - vm_compute. eauto.
  - discriminate.
  - repeat constructor. eexists. split; [vm_compute; reflexivity|]. split; reflexivity.
  - exists resp, w'. split; [exact Hrun|]. split; [exact Hids|].
    pose proof Hrun as Hrun'. vm_compute in Hrun'. injection Hrun' as Hr Hw.
    rewrite <- Hw. vm_compute. reflexivity.
Defined.



(** ** The invariants hold in every reachable world *)

Lemma store_wf_new : store_wf NewMemoryRepository.
Proof. split; apply map_Forall_empty. Qed.

Lemma foldl_insert_Forall {A B} (P : string → B → Prop) (key : A → string) (val : A → B)
    (l : list A) (m : gmap string B) :
  map_Forall P m → (∀ x, x ∈ l → P (key x) (val x)) →
  map_Forall P (foldl (λ acc x, <[key x := val x]> acc) m l).
Proof.
  revert m. induction l as [|x l IH]; intros m Hm Hl; [done|].
  cbn [foldl]. apply IH.
  - apply map_Forall_insert_2; [|done]. apply Hl. by left.
  - intros y Hy. apply Hl. by right.
Qed.

Lemma foldl_insert_is_Some {A B} (key : A → string) (val : A → B)
    (l : list A) (m : gmap string B) (k : string) :
  is_Some (m !! k) → is_Some (foldl (λ acc x, <[key x := val x]> acc) m l !! k).
Proof.
  revert m. induction l as [|x l IH]; intros m Hm; [done|].
  cbn [foldl]. apply IH. rewrite lookup_insert_is_Some. 
  destruct (decide (key x = k)); [by left|by right].
Qed.

Lemma CreateTeam_preserves req w :
  store_wf (store w) → store_wf (store (usecase.CreateTeam req w).2).
Proof.
  intros [Hu Hp Ha Hr]. rewrite CreateTeam_run.
  destruct (teams (store w) !! createteam_TeamName req); [done|].
  cbn [snd store]. split; try done.
  - unfold users_keyed. cbn [users].
    by apply (foldl_insert_Forall (λ id user, UserID user = id) member_UserID
                (λ m, {| UserID := member_UserID m; Username := member_Username m;
                         TeamName := createteam_TeamName req;
                         IsActive := member_IsActive m |})).
  - intros prID pr Hpr. cbn [users prs] in *. apply Ha in Hpr.
    by apply (foldl_insert_is_Some member_UserID
                (λ m, {| UserID := member_UserID m; Username := member_Username m;
                         TeamName := createteam_TeamName req;
                         IsActive := member_IsActive m |})).
Qed.

Lemma SetUserActive_preserves req w :
  store_wf (store w) → store_wf (store (usecase.SetUserActive req w).2).
Proof.
  intros [Hu Hp Ha Hr]. unfold usecase.SetUserActive, bind. rewrite GetUser_run.
  destruct (users (store w) !! setactive_UserID req) as [user|] eqn:Huser; [|done].
  unfold repo.SetUserActive, bind, get_store, put_store. rewrite Huser.
  rewrite GetUser_run. cbn [store users]. rewrite lookup_insert_eq. cbn [snd store].
  split; try done.
  - apply map_Forall_insert_2; [|done]. by apply Hu in Huser.
  - intros prID pr Hpr. cbn [users prs] in *. apply Ha in Hpr.
    rewrite lookup_insert_is_Some.
    destruct (decide (setactive_UserID req = AuthorID pr)); [by left|by right].
Qed.

Lemma MergePR_preserves prID w :
  store_wf (store w) → store_wf (store (usecase.MergePR prID w).2).
Proof.
  intros [Hu Hp Ha Hr].
  destruct (prs (store w) !! prID) as [pr|] eqn:Hpr.
  - destruct (decide (Status pr = PRStatusMerged)) as [Hm|Hm].
    + by rewrite (MergePR_merged _ _ _ Hpr Hm).
    + rewrite (MergePR_open _ _ _ Hpr Hm). cbn [snd store]. split; try done.
      * apply map_Forall_insert_2; [|done]. by apply Hp in Hpr.
      * apply map_Forall_insert_2; [|done]. by apply Ha in Hpr.
  - unfold usecase.MergePR, bind. by rewrite GetPRWithReviewers_run, Hpr.
Qed.

Lemma reviewersOf_NoDup r prID : reviewers_NoDup r → NoDup (reviewersOf r prID).
Proof.
  intros Hr. unfold reviewersOf.
  destruct (prReviewers r !! prID) as [l|] eqn:Hl; [by apply Hr in Hl|apply NoDup_nil_2].
Qed.

Lemma ReassignReviewer_preserves req w :
  store_wf (store w) → store_wf (store (usecase.ReassignReviewer req w).2).
Proof.
  intros [Hu Hp Ha Hr].
  pose proof (ReassignReviewer_run req w) as Hrun. cbv zeta in Hrun.
  destruct (prs (store w) !! reassign_PullRequestID req) as [pr|]; [|by rewrite Hrun].
  destruct (decide (Status pr = PRStatusMerged)); [by rewrite Hrun|].
  destruct (decide (OldUserID req ∈ reviewersOf (store w) (reassign_PullRequestID req)));
    [|by rewrite Hrun].
  destruct (users (store w) !! OldUserID req) as [old|]; [|by rewrite Hrun].
  destruct Hrun as (candidates & Hcand & Hrun).
  destruct (decide _); [by rewrite Hrun|].
  destruct Hrun as (c & Hc & ->). cbn [snd store]. split; try done.
  apply map_Forall_insert_2; [|done].
  apply list_elem_of_filter in Hc as [[_ Hnew] _].
  pose proof (reviewersOf_NoDup _ (reassign_PullRequestID req) Hr) as Hnd.
  destruct (remove_first_NoDup (OldUserID req) _ Hnd) as [Hnd' _].
  apply NoDup_app. split; [done|]. split; [|apply NoDup_singleton].
  intros id Hin%remove_first_elem_of ->%list_elem_of_singleton. done.
Qed.

Lemma CreatePR_fails req w res w' :
  usecase.CreatePR req w = (res, w') →
  (∀ resp, res ≠ Ok resp) →
  store w' = store w.
Proof.
  unfold usecase.CreatePR, bind at 1. unfold repo.PRExists, bind, get_store, ret.
  destruct (prs (store w) !! createpr_PullRequestID req) as [pr0|] eqn:Hpr.
  { rewrite bool_decide_eq_true_2 by eauto. by intros [= <- <-]. }
  rewrite bool_decide_eq_false_2 by (by intros [? ?]).
  rewrite GetUser_run.
  destruct (users (store w) !! createpr_AuthorID req) as [author|] eqn:Hau;
    [|by intros [= <- <-]].
  destruct (GetActiveTeamMembers_run (TeamName author) (createpr_AuthorID req) w)
    as (candidates & -> & Hcand).
  match goal with |- context [usecase.selectReviewers _ _ ?w1] =>
    destruct (selectReviewers_run candidates 2 w1) as (sel & w2 & -> & Hst & _)
  end.
  simpl in Hst.
  unfold time_Now, repo.CreatePR, bind, get_store, put_store. simpl.
  rewrite Hst, Hpr. intros [= <- <-] Hno. by destruct (Hno _ eq_refl).
Qed.

Lemma CreatePR_preserves req w :
  store_wf (store w) → store_wf (store (usecase.CreatePR req w).2).
Proof.
  intros [Hu Hp Ha Hr].
  destruct (usecase.CreatePR req w) as [res w'] eqn:Hrun. cbn [snd].
  destruct res as [resp|e|].
  2,3: by rewrite (CreatePR_fails _ _ _ _ Hrun).
  apply CreatePR_inv in Hrun
    as (author & candidates & reviewers & _ & Hau & Hcand & _ & _ & Hnd & _ & ->).
  split; try done.
  - by apply map_Forall_insert_2.
  - apply map_Forall_insert_2; [cbn; by rewrite Hau|done].
  - apply map_Forall_insert_2; [|done].
    apply Hnd. rewrite Hcand. by apply activeTeamMembers_NoDup.
Qed.

Lemma deactivate_Forall (P : string → User → Prop) us userIDs :
  (∀ id user, P id user → P id (repo.set_IsActive user false)) →
  map_Forall P us → map_Forall P (foldl repo.deactivate us userIDs).
Proof.
  intros HP Hus id user. rewrite deactivate_lookup.
  destruct (decide (id ∈ userIDs)); [|by apply Hus].
  destruct (us !! id) as [user'|] eqn:Hid; [|done].
  intros [= <-]. by apply HP, Hus.
Qed.

Lemma replacements_cons ra records :
  replacements (ra :: records)
  = if decide (NewReviewerID ra ≠ "") then NewReviewerID ra :: replacements records
    else replacements records.
Proof. unfold replacements. by rewrite fmap_cons, filter_cons. Qed.

(** The replacements are new to the pull request and pairwise distinct. *)
Lemma planned_NoDup r prID authorID batch taken removed records :
  planned r prID authorID batch taken removed records →
  NoDup taken → NoDup (taken ++ replacements records).
Proof.
  induction 1 as [|taken x reviewer candidates removed records Hu Hc Hpl IH]; intros Hnd.
  - unfold replacements. by rewrite fmap_nil, filter_nil, app_nil_r.
  - rewrite replacements_cons. cbn [NewReviewerID]. cbv zeta in IH.
    set (id := replacement_id _) in *.
    destruct (decide (id ≠ "")) as [Hid|Hid]; [|by apply IH].
    rewrite cons_middle, app_assoc. apply IH.
    apply NoDup_app. split; [done|]. split; [|apply NoDup_singleton].
    intros y Hy ->%list_elem_of_singleton.
    pose proof (first_eligible_spec authorID taken batch candidates) as Hspec.
    subst id. unfold replacement_id in Hid, Hy.
    destruct (first_eligible authorID taken batch candidates) as [c|]; [|done].
    destruct Hspec as (before & after & _ & (_ & Hnt & _) & _). done.
Qed.

Lemma DeactivateTeamUsers_preserves req w :
  store_wf (store w) → store_wf (store (usecase.DeactivateTeamUsers req w).2).
Proof.
  intros Hwf. pose proof Hwf as [Hu Hp Ha Hr].
  pose proof (getValidTeamUserIDsForDeactivation_run req w) as Hvalid.
  destruct (teams (store w) !! deactivate_TeamName req) as [team|] eqn:Hteam.
  2:{ unfold usecase.DeactivateTeamUsers, bind. by rewrite Hvalid. }
  destruct (decide (validUserIDs (store w) (deactivate_TeamName req) (UserIDs req) = []))
    as [Hnone|Hsome].
  { unfold usecase.DeactivateTeamUsers, bind. by rewrite Hvalid, Hnone. }
  destruct (DeactivateTeamUsers_run req w) as (entries & plans & w2 & _ & _ & _ & _ & Hrun);
    [by rewrite Hteam|done|done|done|].
  set (batch := validUserIDs _ _ _) in *.
  destruct (usecase.DeactivateTeamUsers req w) as [res w'] eqn:Hok.
  injection Hrun as -> Hw'. cbn [snd].
  assert (prs (store w') = prs (store w)) as Hprs by (by rewrite Hw').
  assert (users (store w') = foldl repo.deactivate (users (store w)) batch) as Husers
    by (by rewrite Hw').
  split.
  - unfold users_keyed. rewrite Husers. by apply deactivate_Forall.
  - unfold prs_keyed. by rewrite Hprs.
  - unfold authors_exist. rewrite Hprs, Husers. intros prID pr Hpr.
    apply Ha in Hpr as [author Hauthor]. cbn. rewrite deactivate_lookup, Hauthor.
    destruct (decide (AuthorID pr ∈ batch)); by eexists.
  - intros prID l Hl.
    destruct (prs (store w) !! prID) as [pr|] eqn:Hpr.
    + destruct (decide (affected (store w) batch (prID, pr))) as [[Hopen Hex]|Hnot].
      * destruct (DeactivateTeamUsers_planned req w _ w' prID pr Hu Hp Ha Hok Hpr Hopen Hex)
          as (records & Hpl & Hrev).
        unfold reviewersOf at 1 in Hrev. rewrite Hl in Hrev.
        change (default [] (Some l)) with l in Hrev. rewrite Hrev. eapply planned_NoDup; [exact Hpl|].
        apply NoDup_filter. by apply reviewersOf_NoDup.
      * rewrite (DeactivateTeamUsers_unaffected req w _ w' prID Hp Ha Hok) in Hl.
        { by apply Hr in Hl. }
        intros pr' Hpr'. cbn [DeactivatedUsers]. congruence.
    + rewrite (DeactivateTeamUsers_unaffected req w _ w' prID Hp Ha Hok) in Hl.
      { by apply Hr in Hl. }
      intros pr' Hpr'. congruence.
Qed.

(** The invariants of the data model hold in every world the service reaches. *)
Lemma reachable_store_wf w : reachable w → store_wf (store w).
Proof.
  induction 1 as [| | | | | | |];
    eauto using store_wf_new, CreateTeam_preserves, SetUserActive_preserves,
      CreatePR_preserves, MergePR_preserves, ReassignReviewer_preserves,
      DeactivateTeamUsers_preserves.
Qed.

(** ** The examples of the specification *)

(** With no user of empty id in the store, a removed reviewer is left
    without replacement exactly when no candidate is eligible. *)
Lemma replacement_absent_iff r teamName exclude authorID taken batch candidates :
  users_keyed r →
  users r !! "" = None →
  candidates ≡ₚ activeTeamMembers r teamName exclude →
  replacement_id (first_eligible authorID taken batch candidates) = ""
  ↔ Forall (λ c, ¬ eligible authorID taken batch c) candidates.
Proof.
  intros Hk Hempty Hcand.
  pose proof (first_eligible_spec authorID taken batch candidates) as Hspec.
  destruct (first_eligible authorID taken batch candidates) as [c|]; cbn.
  - destruct Hspec as (before & after & -> & He & _). split.
    + intros Hid. assert (c ∈ activeTeamMembers r teamName exclude) as Hc.
      { rewrite <- Hcand. apply elem_of_app. right. by left. }
      apply activeTeamMembers_lookup in Hc as [Hc _]; [|done]. congruence.
    + intros Hall. apply Forall_app in Hall as [_ Hall].
      apply Forall_cons in Hall as [Hc _]. done.
  - done.
Qed.

(** [CreatePR] succeeds when the id is new and the author is a user. *)
Lemma CreatePR_succeeds req w author :
  prs (store w) !! createpr_PullRequestID req = None →
  users (store w) !! createpr_AuthorID req = Some author →
  ∃ resp w', usecase.CreatePR req w = (Ok resp, w').
Proof.
  intros Hpr Hau.
  unfold usecase.CreatePR, bind at 1. unfold repo.PRExists, bind, get_store, ret.
  rewrite Hpr, bool_decide_eq_false_2 by (by intros [? ?]).
  rewrite GetUser_run, Hau.
  destruct (GetActiveTeamMembers_run (TeamName author) (createpr_AuthorID req) w)
    as (candidates & -> & Hcand).
  match goal with |- context [usecase.selectReviewers _ _ ?w1] =>
    destruct (selectReviewers_run candidates 2 w1) as (sel & w2 & -> & Hst & _)
  end.
  simpl in Hst.
  unfold time_Now, repo.CreatePR, bind, get_store, put_store. simpl.
  rewrite Hst, Hpr. by eexists _, _.
Qed.

(** "Team backend = {u1 (author), u2, u3}, all active: [CreatePR] gives two
    reviewers among u2 and u3, and not u1" - whatever the runtime chooses. *)
Lemma example_CreatePR_trio tape clock history :
  ∃ resp w',
    usecase.CreatePR examples.create_pr1
      {| store := {| teams := teams examples.store_trio; users := users examples.store_trio;
                     prs := ∅; prReviewers := ∅ |};
         tape := tape; clock := clock; history := history |} = (Ok resp, w')
    ∧ AssignedReviewers resp ≡ₚ ["u2"; "u3"].
Proof.
  set (w := {| store := _; tape := tape; clock := clock; history := history |}).
  destruct (CreatePR_succeeds examples.create_pr1 w (examples.user "u1" "backend" true))
    as (resp & w' & Hrun); [done|done|].
  exists resp, w'. split; [done|].
  apply CreatePR_inv in Hrun
    as (author & candidates & reviewers & _ & Hau & Hcand & Hlen & Hsub & Hnd & -> & _).
  cbn [AssignedReviewers usecase.response].
  assert (author = examples.user "u1" "backend" true) as ->.
  { vm_compute in Hau. by injection Hau. }
  assert (activeTeamMembers (store w) "backend" "u1"
          = [examples.user "u3" "backend" true; examples.user "u2" "backend" true]) as Hact.
  { vm_compute. reflexivity. }
  cbn [TeamName examples.user examples.create_pr1 createpr_AuthorID] in Hcand.
  rewrite Hact in Hcand.
  assert (NoDup reviewers) as Hndr.
  { apply (NoDup_fmap_1 UserID), Hnd. rewrite Hcand. apply (bool_decide_unpack _).
    vm_compute. exact I. }
  assert (reviewers ≡ₚ candidates) as ->.
  { apply submseteq_length_Permutation.
    - apply NoDup_submseteq; [done|]. intros c. apply Hsub.
    - rewrite Hlen, Hcand. cbn. lia. }
  rewrite Hcand. cbn. apply Permutation_swap.
Qed.

Lemma first_eligible_None authorID taken batch candidates :
  Forall (λ c, ¬ eligible authorID taken batch c) candidates →
  first_eligible authorID taken batch candidates = None.
Proof.
  intros Hall. pose proof (first_eligible_spec authorID taken batch candidates) as Hspec.
  destruct (first_eligible authorID taken batch candidates) as [c|]; [|done].
  destruct Hspec as (before & after & -> & He & _).
  apply Forall_app in Hall as [_ Hall]. apply Forall_cons in Hall as [Hc _]. done.
Qed.

Lemma planned_nil_inv r prID authorID batch taken records :
  planned r prID authorID batch taken [] records → records = [].
Proof. by inversion 1. Qed.

Lemma planned_cons_inv r prID authorID batch taken reviewerID removed records :
  planned r prID authorID batch taken (reviewerID :: removed) records →
  ∃ reviewer candidates records',
    users r !! reviewerID = Some reviewer
    ∧ candidates ≡ₚ activeTeamMembers r (TeamName reviewer) reviewerID
    ∧ records
      = {| reassignment_PullRequestID := prID;
           OldReviewerID := reviewerID;
           NewReviewerID :=
             replacement_id (first_eligible authorID taken batch candidates) |}
        :: records'
    ∧ planned r prID authorID batch
        (let id := replacement_id (first_eligible authorID taken batch candidates) in
         if decide (id ≠ "") then taken ++ [id] else taken)
        removed records'.
Proof. inversion 1; subst. by eexists _, _, _. Qed.

(** "Deactivating {u2, u3} where pr-1 is reviewed by {u2, u3} and the team
    has no other active member besides the author: both are deactivated and
    the summary of pr-1 has no new reviewer" - whatever the runtime chooses. *)
Lemma example_DeactivateTeamUsers_trio tape clock history :
  ∃ w',
    usecase.DeactivateTeamUsers examples.deactivate_u2_u3
      {| store := examples.store_trio; tape := tape; clock := clock; history := history |}
    = (Ok {| DeactivatedUsers := ["u2"; "u3"];
             ReassignedPRs := [{| summary_PullRequestID := "pr-1";
                                  OldReviewers := ["u2"; "u3"];
                                  NewReviewers := [] |}] |}, w')
    ∧ reviewersOf (store w') "pr-1" = [].
Proof.
  set (w := {| store := examples.store_trio; tape := tape; clock := clock;
               history := history |}).
  destruct (DeactivateTeamUsers_run examples.deactivate_u2_u3 w)
    as (entries & plans & w2 & Hperm & HF & _ & _ & Hrun).
  { vm_compute. eauto. }
  { vm_compute. discriminate. }
  { apply (bool_decide_unpack _). vm_compute. exact I. }
  { apply (bool_decide_unpack _). vm_compute. exact I. }
  change (validUserIDs (store w) (deactivate_TeamName examples.deactivate_u2_u3)
            (UserIDs examples.deactivate_u2_u3)) with ["u2"; "u3"] in *.
  change (map_to_list (prs (store w))) with [("pr-1", examples.pr1)] in Hperm.
  apply Permutation_singleton_r in Hperm as ->.
  assert (filter (affected (store w) ["u2"; "u3"]) [("pr-1", examples.pr1)]
          = [("pr-1", examples.pr1)]) as Haff.
  { apply filter_all. intros e ->%list_elem_of_singleton. split; [done|].
    apply (bool_decide_unpack _). vm_compute. exact I. }
  rewrite Haff in HF, Hrun.
  apply Forall2_cons_inv_l in HF as (records & plans' & (author & Hau & Hpl) & HF & ->).
  apply Forall2_nil_inv_l in HF as ->.
  cbn [fst snd] in Hau, Hpl.
  assert (author = examples.user "u1" "backend" true) as ->.
  { vm_compute in Hau. by injection Hau. }
  change (reviewersOf (store w) "pr-1") with ["u2"; "u3"] in *.
  assert (∀ reviewerID reviewer taken candidates,
            reviewerID ∈ ["u2"; "u3"] →
            users (store w) !! reviewerID = Some reviewer →
            candidates ≡ₚ activeTeamMembers (store w) (TeamName reviewer) reviewerID →
            replacement_id (first_eligible "u1" taken ["u2"; "u3"] candidates) = "")
    as Hnone.
  { intros reviewerID reviewer taken candidates Hin Hrev Hcand.
    rewrite first_eligible_None; [done|]. rewrite Hcand.
    apply Forall_forall. intros c Hc (Hauthor & _ & Hb).
    assert (Forall (λ c, UserID c = "u1" ∨ UserID c ∈ ["u2"; "u3"])
                   (activeTeamMembers (store w) (TeamName reviewer) reviewerID)) as Hall.
    { apply elem_of_cons in Hin as [->|Hin]; [|apply list_elem_of_singleton in Hin as ->].
      - assert (reviewer = examples.user "u2" "backend" true) as ->
          by (vm_compute in Hrev; by injection Hrev).
        apply (bool_decide_unpack _). vm_compute. exact I.
      - assert (reviewer = examples.user "u3" "backend" true) as ->
          by (vm_compute in Hrev; by injection Hrev).
        apply (bool_decide_unpack _). vm_compute. exact I. }
    eapply Forall_forall in Hall; [|exact Hc].
    destruct Hall as [H1|H2]; [exact (Hauthor H1)|exact (Hb H2)]. }
  change (filter (λ id, id ∈ ["u2"; "u3"]) ["u2"; "u3"]) with ["u2"; "u3"] in Hpl.
  change (filter (λ id, id ∉ ["u2"; "u3"]) ["u2"; "u3"]) with (@nil string) in Hpl.
  cbn [UserID examples.user] in Hpl.
  apply planned_cons_inv in Hpl as (reviewer1 & candidates1 & records1 & Hu1 & Hc1 & -> & Hpl1).
  cbv zeta in Hpl1.
  rewrite (Hnone "u2" reviewer1 [] candidates1 ltac:(left) Hu1 Hc1) in Hpl1, Hrun.
  rewrite decide_False in Hpl1 by (intros H; exact (H eq_refl)).
  apply planned_cons_inv in Hpl1 as (reviewer2 & candidates2 & records2 & Hu2 & Hc2 & -> & Hpl2).
  rewrite (Hnone "u3" reviewer2 [] candidates2 ltac:(right; left) Hu2 Hc2) in Hrun.
  apply planned_nil_inv in Hpl2 as ->.
  eexists. split; [exact Hrun|]. vm_compute. reflexivity.
Qed.

(** The empty string stands for "no replacement": an eligible member whose
    id is the empty string is chosen, and the reviewer it should replace is
    dropped all the same. *)
Lemma example_empty_id_is_no_replacement :
  first_eligible "u1" [] ["u2"]
    (activeTeamMembers (store examples.world_anonymous) "backend" "u2")
  = Some (examples.user "" "backend" true)
  ∧ ∃ w',
      usecase.DeactivateTeamUsers examples.deactivate_u2 examples.world_anonymous
      = (Ok {| DeactivatedUsers := ["u2"];
               ReassignedPRs := [{| summary_PullRequestID := "pr-1";
                                    OldReviewers := ["u2"];
                                    NewReviewers := [] |}] |}, w')
      ∧ reviewersOf (store w') "pr-1" = [].
Proof.
  split; [vm_compute; reflexivity|].
  eexists. split; [vm_compute; reflexivity|]. vm_compute. reflexivity.
Qed.

(** * Further properties: invariants, readers and the HTTP layer *)

(** ** Further invariants of the reachable worlds *)

Lemma store_inv_new : store_inv NewMemoryRepository.
Proof. split; apply map_Forall_empty. Qed.

Lemma reviewersOf_lookup r prID id :
  id ∈ reviewersOf r prID →
  ∃ reviewers, prReviewers r !! prID = Some reviewers ∧ id ∈ reviewers.
Proof.
  unfold reviewersOf. destruct (prReviewers r !! prID) as [l|]; [eauto|].
  by intros ?%elem_of_nil.
Qed.

Lemma CreateTeam_inv_preserves req w :
  store_inv (store w) → store_inv (store (usecase.CreateTeam req w).2).
Proof.
  intros [Ht Hm Hp Hr Ha H2 Hs]. rewrite CreateTeam_run.
  destruct (teams (store w) !! createteam_TeamName req) eqn:Hteam; [done|].
  cbn [snd store]. split; try done.
  - apply map_Forall_insert_2; [done|done].
  - unfold users_in_teams. cbn [users teams].
    apply (foldl_insert_Forall
             (λ _ user, is_Some (<[createteam_TeamName req :=
                                     {| team_TeamName := createteam_TeamName req;
                                        Members := [] |}]> (teams (store w)) !! TeamName user))
             member_UserID
             (λ m, {| UserID := member_UserID m; Username := member_Username m;
                      TeamName := createteam_TeamName req;
                      IsActive := member_IsActive m |})).
    + intros id user Hu. apply Hm in Hu. cbn in Hu. rewrite lookup_insert_is_Some.
      destruct (decide (createteam_TeamName req = TeamName user)); [by left|by right].
    + intros m _. cbn. rewrite lookup_insert_eq. by eexists.
  - intros prID l Hl. cbn [prReviewers users] in *. apply Hr in Hl.
    eapply Forall_impl; [exact Hl|]. intros id Hid. cbn.
    by apply (foldl_insert_is_Some member_UserID
                (λ m, {| UserID := member_UserID m; Username := member_Username m;
                         TeamName := createteam_TeamName req;
                         IsActive := member_IsActive m |})).
Qed.

Lemma SetUserActive_inv_preserves req w :
  store_inv (store w) → store_inv (store (usecase.SetUserActive req w).2).
Proof.
  intros [Ht Hm Hp Hr Ha H2 Hs]. unfold usecase.SetUserActive, bind. rewrite GetUser_run.
  destruct (users (store w) !! setactive_UserID req) as [user|] eqn:Huser; [|done].
  unfold repo.SetUserActive, bind, get_store, put_store. rewrite Huser.
  rewrite GetUser_run. cbn [store users]. rewrite lookup_insert_eq. cbn [snd store].
  split; try done.
  - apply map_Forall_insert_2; [|done]. by apply Hm in Huser.
  - intros prID l Hl. cbn [prReviewers users] in *. apply Hr in Hl.
    eapply Forall_impl; [exact Hl|]. intros id Hid. cbn.
    rewrite lookup_insert_is_Some.
    destruct (decide (setactive_UserID req = id)); [by left|by right].
Qed.

Lemma MergePR_inv_preserves prID w :
  store_inv (store w) → store_inv (store (usecase.MergePR prID w).2).
Proof.
  intros [Ht Hm Hp Hr Ha H2 Hs].
  destruct (prs (store w) !! prID) as [pr|] eqn:Hpr.
  - destruct (decide (Status pr = PRStatusMerged)) as [Hmg|Hmg].
    + by rewrite (MergePR_merged _ _ _ Hpr Hmg).
    + rewrite (MergePR_open _ _ _ Hpr Hmg). cbn [snd store]. split; try done.
      * intros k l Hl. cbn [prs prReviewers] in *. apply Hp in Hl.
        rewrite lookup_insert_is_Some. destruct (decide (prID = k)); [by left|by right].
      * apply map_Forall_insert_2; [|done]. by apply Ha in Hpr.
      * apply map_Forall_insert_2; [|done]. apply Hs in Hpr as [Hc _].
        split; [done|]. right. split; [done|]. by eexists.
  - unfold usecase.MergePR, bind. by rewrite GetPRWithReviewers_run, Hpr.
Qed.

Lemma CreatePR_inv_preserves req w :
  store_wf (store w) → store_inv (store w) →
  store_inv (store (usecase.CreatePR req w).2).
Proof.
  intros [Hu Hpk Hae Hnd] [Ht Hm Hp Hr Ha H2 Hs].
  destruct (usecase.CreatePR req w) as [res w'] eqn:Hrun. cbn [snd].
  destruct res as [resp|e|].
  2,3: by rewrite (CreatePR_fails _ _ _ _ Hrun).
  apply CreatePR_inv in Hrun
    as (author & candidates & reviewers & Hnew & Hau & Hcand & Hlen & Hsub & _ & _ & ->).
  set (prID := createpr_PullRequestID req) in *.
  assert (∀ c, c ∈ reviewers →
               users (store w) !! UserID c = Some c ∧ UserID c ≠ createpr_AuthorID req)
    as Hrev.
  { intros c Hc%Hsub. rewrite Hcand in Hc.
    apply activeTeamMembers_lookup in Hc as (? & _ & _ & ?); done. }
  split; try done.
  - intros k l Hl. cbn [prs prReviewers] in *. rewrite lookup_insert_is_Some.
    destruct (decide (prID = k)) as [|Hne]; [by left|right]. split; [done|].
    rewrite lookup_insert_ne in Hl by done. by apply Hp in Hl.
  - apply map_Forall_insert_2; [|done]. apply Forall_forall.
    intros id (c & -> & Hc)%list_elem_of_fmap. cbn.
    destruct (Hrev c Hc) as [-> _]. by eexists.
  - intros k pr Hpr. cbn [prs] in Hpr. unfold reviewersOf. cbn [prReviewers].
    destruct (decide (prID = k)) as [<-|Hne].
    + rewrite lookup_insert_eq in Hpr. injection Hpr as <-.
      rewrite lookup_insert_eq. cbn.
      intros (c & Heq & Hc)%list_elem_of_fmap. destruct (Hrev c Hc) as [_ Hne]. congruence.
    + rewrite lookup_insert_ne in Hpr by done. rewrite lookup_insert_ne by done.
      by apply Ha in Hpr.
  - apply map_Forall_insert_2; [|done]. rewrite length_fmap, Hlen. lia.
  - apply map_Forall_insert_2; [|done]. split; [by eexists|]. left. done.
Qed.

Lemma remove_first_length (x : string) (l : list string) :
  x ∈ l → S (length (repo.remove_first x l)) = length l.
Proof.
  induction l as [|y l IH]; intros Hin; [by apply elem_of_nil in Hin|].
  cbn [repo.remove_first]. destruct (decide (y = x)) as [|Hne]; [done|].
  apply elem_of_cons in Hin as [->|Hin]; [done|]. cbn [length]. by rewrite IH.
Qed.

Lemma ReassignReviewer_inv_preserves req w :
  store_wf (store w) → store_inv (store w) →
  store_inv (store (usecase.ReassignReviewer req w).2).
Proof.
  intros [Hu Hpk Hae Hnd] [Ht Hm Hp Hr Ha H2 Hs].
  pose proof (ReassignReviewer_run req w) as Hrun. cbv zeta in Hrun.
  set (prID := reassign_PullRequestID req) in *.
  destruct (prs (store w) !! prID) as [pr|] eqn:Hpr; [|by rewrite Hrun].
  destruct (decide (Status pr = PRStatusMerged)); [by rewrite Hrun|].
  destruct (decide (OldUserID req ∈ reviewersOf (store w) prID)) as [Hold|];
    [|by rewrite Hrun].
  destruct (users (store w) !! OldUserID req) as [old|]; [|by rewrite Hrun].
  destruct Hrun as (candidates & Hcand & Hrun).
  destruct (decide _); [by rewrite Hrun|].
  destruct Hrun as (c & Hc & ->). cbn [snd store].
  apply list_elem_of_filter in Hc as [[Hnau Hnew] Hc]. rewrite Hcand in Hc.
  apply activeTeamMembers_lookup in Hc as (Hlook & _ & _ & _); [|done].
  split; try done.
  - intros k l Hl. cbn [prs prReviewers] in *.
    destruct (decide (prID = k)) as [<-|Hne]; [by rewrite Hpr|].
    rewrite lookup_insert_ne in Hl by done. by apply Hp in Hl.
  - apply map_Forall_insert_2; [|done]. apply Forall_app. split.
    + apply Forall_forall. intros id Hin%remove_first_elem_of.
      apply reviewersOf_lookup in Hin as (l & Hl & Hin). apply Hr in Hl.
      by eapply Forall_forall in Hl.
    + constructor; [|done]. cbn. rewrite Hlook. by eexists.
  - intros k pr' Hpr'. cbn [prs] in Hpr'. unfold reviewersOf. cbn [prReviewers].
    destruct (decide (prID = k)) as [<-|Hne].
    + rewrite lookup_insert_eq. cbn. rewrite Hpr in Hpr'. injection Hpr' as <-.
      rewrite elem_of_app, list_elem_of_singleton. intros [Hin%remove_first_elem_of|Heq].
      * by apply Ha in Hpr.
      * by apply Hnau.
    + rewrite lookup_insert_ne by done. by apply Ha in Hpr'.
  - apply map_Forall_insert_2; [|done].
    rewrite length_app. cbn [length].
    pose proof (remove_first_length _ _ Hold) as Hlen.
    apply reviewersOf_lookup in Hold as (l & Hl & _).
    unfold reviewersOf in *. rewrite Hl in Hlen |- *. cbn [default] in *.
    apply H2 in Hl. cbn in Hl. unfold id in *. lia.
Qed.

(** The replacements of a plan are eligible users of the store, at most one
    per removed reviewer. *)
Lemma planned_replacements r prID authorID batch taken removed records :
  users_keyed r →
  planned r prID authorID batch taken removed records →
  length (replacements records) ≤ length removed
  ∧ Forall (λ id, id ≠ authorID ∧ (id ∉ batch)
                  ∧ ∃ c, users r !! id = Some c ∧ IsActive c = true)
           (replacements records).
Proof.
  intros Hk. induction 1 as [|taken x reviewer candidates removed records Hu Hc Hpl [IH1 IH2]].
  - split; [done|]. unfold replacements. rewrite fmap_nil, filter_nil. constructor.
  - rewrite replacements_cons. cbn [NewReviewerID length].
    pose proof (first_eligible_spec authorID taken batch candidates) as Hspec.
    destruct (decide _) as [Hid|Hid]; [|split; [lia|done]].
    split; [cbn [length]; lia|]. constructor; [|done].
    destruct (first_eligible authorID taken batch candidates) as [c|]; [|done].
    destruct Hspec as (before & after & Hsplit & (Hau & _ & Hb) & _). cbn.
    split; [done|]. split; [done|].
    assert (c ∈ activeTeamMembers r (TeamName reviewer) x) as Hin.
    { rewrite <- Hc, Hsplit. apply elem_of_app. right. by left. }
    apply activeTeamMembers_lookup in Hin as (Hl & _ & Hact & _); [|done].
    by exists c.
Qed.

(** What a successful [DeactivateTeamUsers] leaves in the store. *)
Lemma DeactivateTeamUsers_store req w resp w' :
  prs_keyed (store w) → authors_exist (store w) →
  usecase.DeactivateTeamUsers req w = (Ok resp, w') →
  DeactivatedUsers resp = validUserIDs (store w) (deactivate_TeamName req) (UserIDs req)
  ∧ teams (store w') = teams (store w)
  ∧ users (store w') = foldl repo.deactivate (users (store w)) (DeactivatedUsers resp)
  ∧ prs (store w') = prs (store w).
Proof.
  intros Hpk Hau Hok.
  destruct (DeactivateTeamUsers_Ok_inv _ _ _ _ Hok) as [Hteam Hbatch].
  destruct (DeactivateTeamUsers_run req w Hteam Hbatch Hpk Hau)
    as (entries & plans & w2 & _ & _ & _ & _ & Hrun).
  rewrite Hrun in Hok. by injection Hok as <- <-.
Qed.

(** A failing [DeactivateTeamUsers] leaves the store alone. *)
Lemma DeactivateTeamUsers_fails req w :
  prs_keyed (store w) → authors_exist (store w) →
  (∀ resp, (usecase.DeactivateTeamUsers req w).1 ≠ Ok resp) →
  store (usecase.DeactivateTeamUsers req w).2 = store w.
Proof.
  intros Hpk Hau Hno.
  pose proof (getValidTeamUserIDsForDeactivation_run req w) as Hvalid.
  destruct (teams (store w) !! deactivate_TeamName req) as [team|] eqn:Hteam.
  2:{ unfold usecase.DeactivateTeamUsers, bind. by rewrite Hvalid. }
  destruct (decide (validUserIDs (store w) (deactivate_TeamName req) (UserIDs req) = []))
    as [Hnone|Hsome].
  { unfold usecase.DeactivateTeamUsers, bind. by rewrite Hvalid, Hnone. }
  destruct (DeactivateTeamUsers_run req w) as (entries & plans & w2 & _ & _ & _ & _ & Hrun);
    [by rewrite Hteam|done|done|done|].
  rewrite Hrun in Hno. by destruct (Hno _ eq_refl).
Qed.

Lemma DeactivateTeamUsers_inv_preserves req w :
  store_wf (store w) → store_inv (store w) →
  store_inv (store (usecase.DeactivateTeamUsers req w).2).
Proof.
  intros [Hu Hpk Hae Hnd] [Ht Hm Hp Hr Ha H2 Hs].
  destruct (usecase.DeactivateTeamUsers req w) as [res w'] eqn:Hok.
  destruct res as [resp|e|].
  2,3: pose proof (DeactivateTeamUsers_fails req w Hpk Hae) as Hf;
       rewrite Hok in Hf; cbn [fst snd] in *; by rewrite Hf.
  cbn [snd].
  destruct (DeactivateTeamUsers_store _ _ _ _ Hpk Hae Hok) as (Hb & Hteams & Husers & Hprs).
  set (batch := DeactivatedUsers resp) in *.
  assert (∀ id, is_Some (users (store w) !! id) → is_Some (users (store w') !! id)) as Hkeep.
  { intros id [user Huser]. rewrite Husers, deactivate_lookup, Huser.
    destruct (decide _); by eexists. }
  assert (∀ prID l,
            prReviewers (store w') !! prID = Some l →
            prReviewers (store w) !! prID = Some l
            ∨ ∃ pr records,
                prs (store w) !! prID = Some pr
                ∧ planned (store w) prID (AuthorID pr) batch
                    (filter (λ id, id ∉ batch) (reviewersOf (store w) prID))
                    (filter (λ id, id ∈ batch) (reviewersOf (store w) prID))
                    records
                ∧ l = filter (λ id, id ∉ batch) (reviewersOf (store w) prID)
                      ++ replacements records) as Hcases.
  { intros prID l Hl.
    destruct (prs (store w) !! prID) as [pr|] eqn:Hpr.
    - destruct (decide (affected (store w) batch (prID, pr))) as [[Hopen Hex]|Hnot].
      + right.
        destruct (DeactivateTeamUsers_planned req w _ w' prID pr Hu Hpk Hae Hok Hpr Hopen Hex)
          as (records & Hpl & Hrev).
        exists pr, records. split; [done|]. split; [done|].
        unfold reviewersOf at 1 in Hrev. by rewrite Hl in Hrev.
      + left. rewrite <- Hl. symmetry.
        apply (DeactivateTeamUsers_unaffected req w _ w' prID Hpk Hae Hok).
        intros pr' Hpr'. assert (pr' = pr) as -> by congruence. exact Hnot.
    - left. rewrite <- Hl. symmetry.
      apply (DeactivateTeamUsers_unaffected req w _ w' prID Hpk Hae Hok).
      intros pr' Hpr'. congruence. }
  split.
  - unfold teams_keyed. by rewrite Hteams.
  - unfold users_in_teams. rewrite Hteams, Husers. by apply deactivate_Forall.
  - intros prID l Hl. cbn. rewrite Hprs.
    destruct (Hcases _ _ Hl) as [Hold|(pr & records & Hpr & _)]; [|by rewrite Hpr].
    by apply Hp in Hold.
  - intros prID l Hl. cbn.
    destruct (Hcases _ _ Hl) as [Hold|(pr & records & Hpr & Hpl & ->)].
    + apply Hr in Hold. eapply Forall_impl; [exact Hold|]. intros id. apply Hkeep.
    + apply Forall_app. split.
      * apply Forall_forall. intros id [_ Hin]%list_elem_of_filter.
        apply Hkeep. apply reviewersOf_lookup in Hin as (l0 & Hl0 & Hin).
        apply Hr in Hl0. by eapply Forall_forall in Hl0.
      * destruct (planned_replacements _ _ _ _ _ _ _ Hu Hpl) as [_ Hall].
        eapply Forall_impl; [exact Hall|]. intros id (_ & _ & c & Hc & _).
        apply Hkeep. by eexists.
  - intros prID pr Hpr. cbn. rewrite Hprs in Hpr. pose proof (Ha _ _ Hpr) as Hnot. cbn in Hnot.
    unfold reviewersOf at 1.
    destruct (prReviewers (store w') !! prID) as [l|] eqn:Hl; [|apply not_elem_of_nil].
    change (AuthorID pr ∉ l).
    destruct (Hcases _ _ Hl) as [Hold|(pr' & records & Hpr' & Hpl & ->)].
    + unfold reviewersOf in Hnot. by rewrite Hold in Hnot.
    + assert (pr' = pr) as -> by congruence.
      rewrite elem_of_app, list_elem_of_filter. intros [[_ Hin]|Hin]; [done|].
      destruct (planned_replacements _ _ _ _ _ _ _ Hu Hpl) as [_ Hall].
      eapply Forall_forall in Hall; [|exact Hin]. by destruct Hall as [Hne _].
  - intros prID l Hl. cbn.
    destruct (Hcases _ _ Hl) as [Hold|(pr & records & Hpr & Hpl & ->)];
      [by apply H2 in Hold|].
    destruct (planned_replacements _ _ _ _ _ _ _ Hu Hpl) as [Hlen _].
    pose proof (filter_app_complement (λ id, id ∈ batch) (reviewersOf (store w) prID)) as Hpart.
    apply Permutation_length in Hpart. rewrite length_app in Hpart.
    assert (length (reviewersOf (store w) prID) ≤ 2) as Hle.
    { unfold reviewersOf. destruct (prReviewers (store w) !! prID) as [l0|] eqn:Hl0; [|cbn; lia].
      by apply H2 in Hl0. }
    rewrite length_app. lia.
  - by rewrite Hprs.
Qed.

(** The further invariants hold in every world the service reaches. *)
Lemma reachable_store_inv w : reachable w → store_inv (store w).
Proof.
  induction 1 as [| |w req Hw IH|w req Hw IH|w req Hw IH|w prID Hw IH|w req Hw IH|w req Hw IH];
    pose proof store_inv_new;
    try (pose proof (reachable_store_wf _ Hw));
    eauto using CreateTeam_inv_preserves, SetUserActive_inv_preserves,
      CreatePR_inv_preserves, MergePR_inv_preserves, ReassignReviewer_inv_preserves,
      DeactivateTeamUsers_inv_preserves.
Qed.

(** ** What one call leaves in place *)

Lemma CreateTeam_frame req w :
  let w' := (usecase.CreateTeam req w).2 in
  prs (store w') = prs (store w)
  ∧ prReviewers (store w') = prReviewers (store w)
  ∧ teams (store w) ⊆ teams (store w')
  ∧ ∀ id, is_Some (users (store w) !! id) → is_Some (users (store w') !! id).
Proof.
  cbv zeta. rewrite CreateTeam_run.
  destruct (teams (store w) !! createteam_TeamName req) eqn:Hteam; [done|].
  cbn [snd store teams users prs prReviewers]. split; [done|]. split; [done|]. split.
  - by apply insert_subseteq.
  - intros id. apply (foldl_insert_is_Some member_UserID
                (λ m, {| UserID := member_UserID m; Username := member_Username m;
                         TeamName := createteam_TeamName req;
                         IsActive := member_IsActive m |})).
Qed.

(** What [SetUserActive] does, case by case. *)
Lemma SetUserActive_run req w :
  usecase.SetUserActive req w =
  match users (store w) !! setactive_UserID req with
  | None => (Err ErrUserNotFound, w)
  | Some user =>
      (Ok (repo.set_IsActive user (setactive_IsActive req)),
       {| store := {| teams := teams (store w);
                      users := <[setactive_UserID req :=
                                   repo.set_IsActive user (setactive_IsActive req)]>
                                 (users (store w));
                      prs := prs (store w); prReviewers := prReviewers (store w) |};
          tape := tape w; clock := clock w;
          history :=
            history w
            ++ [{| teams := teams (store w);
                   users := <[setactive_UserID req :=
                                repo.set_IsActive user (setactive_IsActive req)]>
                              (users (store w));
                   prs := prs (store w); prReviewers := prReviewers (store w) |}] |})
  end.
Proof.
  unfold usecase.SetUserActive, bind. rewrite GetUser_run.
  destruct (users (store w) !! setactive_UserID req) as [user|] eqn:Huser; [|done].
  unfold repo.SetUserActive, bind, get_store, put_store. rewrite Huser.
  rewrite GetUser_run. cbn [store users]. by rewrite lookup_insert_eq.
Qed.

Lemma SetUserActive_frame req w :
  let w' := (usecase.SetUserActive req w).2 in
  teams (store w') = teams (store w)
  ∧ prs (store w') = prs (store w)
  ∧ prReviewers (store w') = prReviewers (store w)
  ∧ ∀ id, is_Some (users (store w) !! id) → is_Some (users (store w') !! id).
Proof.
  cbv zeta. rewrite SetUserActive_run.
  destruct (users (store w) !! setactive_UserID req) as [user|] eqn:Huser; [|done].
  cbn [snd store teams users prs prReviewers]. repeat split.
  intros id Hid. rewrite lookup_insert_is_Some.
  destruct (decide (setactive_UserID req = id)); [by left|by right].
Qed.

Lemma CreatePR_frame req w :
  let w' := (usecase.CreatePR req w).2 in
  teams (store w') = teams (store w)
  ∧ users (store w') = users (store w)
  ∧ ∀ prID pr, prs (store w) !! prID = Some pr →
               prs (store w') !! prID = Some pr
               ∧ prReviewers (store w') !! prID = prReviewers (store w) !! prID.
Proof.
  cbv zeta. destruct (usecase.CreatePR req w) as [res w'] eqn:Hrun. cbn [snd].
  destruct res as [resp|e|].
  2,3: by rewrite (CreatePR_fails _ _ _ _ Hrun).
  apply CreatePR_inv in Hrun
    as (author & candidates & reviewers & Hnew & _ & _ & _ & _ & _ & _ & ->).
  cbn [teams users prs prReviewers]. split; [done|]. split; [done|].
  intros prID pr Hpr.
  assert (createpr_PullRequestID req ≠ prID) as Hne by congruence.
  by rewrite !lookup_insert_ne.
Qed.

Lemma MergePR_frame prID0 w :
  let w' := (usecase.MergePR prID0 w).2 in
  teams (store w') = teams (store w)
  ∧ users (store w') = users (store w)
  ∧ prReviewers (store w') = prReviewers (store w)
  ∧ ∀ prID pr, prs (store w) !! prID = Some pr →
               prs (store w') !! prID = Some pr
               ∨ (prID = prID0 ∧ Status pr ≠ PRStatusMerged
                  ∧ prs (store w') !! prID = Some (repo.merged pr (clock w))).
Proof.
  cbv zeta. destruct (prs (store w) !! prID0) as [pr0|] eqn:Hpr0.
  - destruct (decide (Status pr0 = PRStatusMerged)) as [Hmg|Hmg].
    + rewrite (MergePR_merged _ _ _ Hpr0 Hmg). repeat split. by left.
    + rewrite (MergePR_open _ _ _ Hpr0 Hmg). cbn [snd store teams users prs prReviewers].
      repeat split. intros prID pr Hpr.
      destruct (decide (prID0 = prID)) as [<-|Hne].
      * right. rewrite lookup_insert_eq. split; [done|]. split; congruence.
      * left. by rewrite lookup_insert_ne.
  - unfold usecase.MergePR, bind. rewrite GetPRWithReviewers_run, Hpr0. cbn [snd].
    repeat split. by left.
Qed.

Lemma ReassignReviewer_frame req w :
  let w' := (usecase.ReassignReviewer req w).2 in
  teams (store w') = teams (store w)
  ∧ users (store w') = users (store w)
  ∧ prs (store w') = prs (store w)
  ∧ ∀ prID, prReviewers (store w') !! prID = prReviewers (store w) !! prID
            ∨ (prID = reassign_PullRequestID req
               ∧ ∃ pr, prs (store w) !! prID = Some pr ∧ Status pr ≠ PRStatusMerged).
Proof.
  cbv zeta.
  pose proof (ReassignReviewer_run req w) as Hrun. cbv zeta in Hrun.
  destruct (prs (store w) !! reassign_PullRequestID req) as [pr|] eqn:Hpr;
    [|rewrite Hrun; repeat split; by left].
  destruct (decide (Status pr = PRStatusMerged)); [rewrite Hrun; repeat split; by left|].
  destruct (decide (OldUserID req ∈ reviewersOf (store w) (reassign_PullRequestID req)));
    [|rewrite Hrun; repeat split; by left].
  destruct (users (store w) !! OldUserID req) as [old|];
    [|rewrite Hrun; repeat split; by left].
  destruct Hrun as (candidates & Hcand & Hrun).
  destruct (decide _); [rewrite Hrun; repeat split; by left|].
  destruct Hrun as (c & Hc & ->). cbn [snd store teams users prs prReviewers].
  repeat split. intros prID.
  destruct (decide (reassign_PullRequestID req = prID)) as [<-|Hne].
  - right. split; [done|]. by exists pr.
  - left. by rewrite lookup_insert_ne.
Qed.

Lemma DeactivateTeamUsers_frame req w :
  prs_keyed (store w) → authors_exist (store w) →
  let w' := (usecase.DeactivateTeamUsers req w).2 in
  teams (store w') = teams (store w)
  ∧ prs (store w') = prs (store w)
  ∧ (∀ id, is_Some (users (store w) !! id) → is_Some (users (store w') !! id))
  ∧ ∀ prID pr, prs (store w) !! prID = Some pr → Status pr ≠ PRStatusOpen →
               prReviewers (store w') !! prID = prReviewers (store w) !! prID.
Proof.
  intros Hpk Hae. cbv zeta.
  destruct (usecase.DeactivateTeamUsers req w) as [res w'] eqn:Hok.
  destruct res as [resp|e|].
  2,3: pose proof (DeactivateTeamUsers_fails req w Hpk Hae) as Hf;
       rewrite Hok in Hf; cbn [fst snd] in *; by rewrite Hf.
  cbn [snd].
  destruct (DeactivateTeamUsers_store _ _ _ _ Hpk Hae Hok) as (Hb & Hteams & Husers & Hprs).
  split; [done|]. split; [done|]. split.
  - intros id [user Huser]. rewrite Husers, deactivate_lookup, Huser.
    destruct (decide _); by eexists.
  - intros prID pr Hpr Hst.
    apply (DeactivateTeamUsers_unaffected req w _ w' prID Hpk Hae Hok).
    intros pr' Hpr' [Hopen _]. cbn in Hopen. congruence.
Qed.

(** ** Properties of every reachable world

    The worlds are those of [reachable]: calls of the service operations,
    one after another, starting from the empty store. *)

(** X1.  No pull request ever lists a reviewer twice. *)
Theorem reviewers_never_repeat w prID :
  reachable w → NoDup (reviewersOf (store w) prID).
Proof. intros Hw. apply reviewersOf_NoDup, reachable_store_wf, Hw. Qed.

Lemma reviewers_never_repeat_witness :
  reviewersOf (store cases.with_pr) "pr-1" = ["u3"; "u4"]
  ∧ NoDup (reviewersOf (store cases.with_pr) "pr-1").
Proof.
  split; [vm_compute; reflexivity|].
  apply (reviewers_never_repeat cases.with_pr "pr-1").
  apply reachable_CreatePR, reachable_CreateTeam, reachable_new.
Defined.

(** X2.  No pull request ever has more than two reviewers. *)
Theorem reviewers_never_exceed_two w prID :
  reachable w → length (reviewersOf (store w) prID) ≤ 2.
Proof.
  intros Hw. apply reachable_store_inv in Hw as [_ _ _ _ _ H2 _].
  unfold reviewersOf. destruct (prReviewers (store w) !! prID) as [l|] eqn:Hl; [|cbn; lia].
  by apply H2 in Hl.
Qed.

Lemma reviewers_never_exceed_two_witness :
  length (reviewersOf (store cases.with_pr) "pr-1") ≤ 2.
Proof.
  apply (reviewers_never_exceed_two cases.with_pr "pr-1").
  apply reachable_CreatePR, reachable_CreateTeam, reachable_new.
Defined.

(** X3.  The author of a pull request is never one of its reviewers. *)
Theorem author_never_reviews w prID pr :
  reachable w →
  prs (store w) !! prID = Some pr →
  AuthorID pr ∉ reviewersOf (store w) prID.
Proof.
  intros Hw Hpr. apply reachable_store_inv in Hw as [_ _ _ _ Ha _ _].
  by apply Ha in Hpr.
Qed.

Lemma author_never_reviews_witness :
  prs (store cases.with_pr) !! "pr-1" = Some examples.pr1
  ∧ "u1" ∉ reviewersOf (store cases.with_pr) "pr-1".
Proof.
  assert (prs (store cases.with_pr) !! "pr-1" = Some examples.pr1) as Hpr
    by (vm_compute; reflexivity).
  split; [exact Hpr|].
  apply (author_never_reviews cases.with_pr "pr-1" examples.pr1); [|exact Hpr].
  apply reachable_CreatePR, reachable_CreateTeam, reachable_new.
Defined.

(** X4.  Every reviewer of a pull request is a stored user, and reviewers
    are recorded for stored pull requests only. *)
Theorem reviewers_are_users w prID id :
  reachable w →
  id ∈ reviewersOf (store w) prID →
  (∃ user, users (store w) !! id = Some user ∧ UserID user = id)
  ∧ is_Some (prs (store w) !! prID).
Proof.
  intros Hw Hin. pose proof (reachable_store_wf _ Hw) as [Hu _ _ _].
  apply reachable_store_inv in Hw as [_ _ Hp Hr _ _ _].
  apply reviewersOf_lookup in Hin as (l & Hl & Hin). split.
  - apply Hr in Hl. eapply Forall_forall in Hl as [user Huser]; [|exact Hin].
    exists user. split; [done|]. by apply Hu in Huser.
  - by apply Hp in Hl.
Qed.

Lemma reviewers_are_users_witness :
  (∃ user, users (store cases.with_pr) !! "u3" = Some user ∧ UserID user = "u3")
  ∧ is_Some (prs (store cases.with_pr) !! "pr-1").
Proof.
  apply (reviewers_are_users cases.with_pr "pr-1" "u3").
  - apply reachable_CreatePR, reachable_CreateTeam, reachable_new.
  - apply (bool_decide_unpack _). vm_compute. exact I.
Defined.

(** X5.  Every user is stored under its own id and belongs to a team that
    exists. *)
Theorem users_belong_to_teams w id user :
  reachable w →
  users (store w) !! id = Some user →
  UserID user = id
  ∧ ∃ team, teams (store w) !! TeamName user = Some team
            ∧ team_TeamName team = TeamName user.
Proof.
  intros Hw Huser. pose proof (reachable_store_wf _ Hw) as [Hu _ _ _].
  apply reachable_store_inv in Hw as [Ht Hm _ _ _ _ _].
  split; [by apply Hu in Huser|].
  apply Hm in Huser as [team Hteam]. exists team. split; [done|]. by apply Ht in Hteam.
Qed.

Lemma users_belong_to_teams_witness :
  users (store cases.with_pr) !! "u2" = Some (examples.user "u2" "backend" true)
  ∧ ∃ team, teams (store cases.with_pr) !! "backend" = Some team
            ∧ team_TeamName team = "backend".
Proof.
  assert (users (store cases.with_pr) !! "u2" = Some (examples.user "u2" "backend" true))
    as Hu by (vm_compute; reflexivity).
  split; [exact Hu|].
  apply (users_belong_to_teams cases.with_pr "u2" (examples.user "u2" "backend" true)); [|exact Hu].
  apply reachable_CreatePR, reachable_CreateTeam, reachable_new.
Defined.

(** X6.  Every pull request is stored under its own id, its author is a
    stored user, it has a creation time, and it is either OPEN without a
    merge time or MERGED with one. *)
Theorem pull_requests_well_formed w prID pr :
  reachable w →
  prs (store w) !! prID = Some pr →
  PullRequestID pr = prID
  ∧ is_Some (users (store w) !! AuthorID pr)
  ∧ is_Some (CreatedAt pr)
  ∧ ((Status pr = PRStatusOpen ∧ MergedAt pr = None)
     ∨ (Status pr = PRStatusMerged ∧ is_Some (MergedAt pr))).
Proof.
  intros Hw Hpr. pose proof (reachable_store_wf _ Hw) as [_ Hpk Hae _].
  apply reachable_store_inv in Hw as [_ _ _ _ _ _ Hs].
  split; [by apply Hpk in Hpr|]. split; [by apply Hae in Hpr|]. by apply Hs in Hpr.
Qed.

Lemma pull_requests_well_formed_witness :
  ∃ pr, prs (store cases.with_merged) !! "pr-1" = Some pr
        ∧ Status pr = PRStatusMerged
        ∧ PullRequestID pr = "pr-1"
        ∧ is_Some (users (store cases.with_merged) !! AuthorID pr)
        ∧ is_Some (CreatedAt pr)
        ∧ ((Status pr = PRStatusOpen ∧ MergedAt pr = None)
           ∨ (Status pr = PRStatusMerged ∧ is_Some (MergedAt pr))).
Proof.
  eexists.
  eassert (prs (store cases.with_merged) !! "pr-1" = Some _) as Hpr
    by (vm_compute; reflexivity).
  split; [exact Hpr|]. split; [reflexivity|].
  apply (pull_requests_well_formed cases.with_merged "pr-1" _); [|exact Hpr].
  apply reachable_MergePR, reachable_CreatePR, reachable_CreateTeam, reachable_new.
Defined.

(** ** Properties of one call *)

(** X7.  No call deletes anything: a team stays as it is, and a user and a
    pull request stay stored. *)
Theorem nothing_is_deleted w w' :
  reachable w → step w w' →
  teams (store w) ⊆ teams (store w')
  ∧ (∀ id, is_Some (users (store w) !! id) → is_Some (users (store w') !! id))
  ∧ (∀ prID, is_Some (prs (store w) !! prID) → is_Some (prs (store w') !! prID)).
Proof.
  intros Hw Hstep. pose proof (reachable_store_wf _ Hw) as [_ Hpk Hae _].
  destruct Hstep as [w req|w req|w req|w prID0|w req|w req].
  - destruct (CreateTeam_frame req w) as (-> & _ & ? & ?). done.
  - destruct (SetUserActive_frame req w) as (-> & -> & _ & ?). done.
  - destruct (CreatePR_frame req w) as (-> & -> & Hprs). split; [done|]. split; [done|].
    intros prID [pr Hpr]. apply Hprs in Hpr as [-> _]. by eexists.
  - destruct (MergePR_frame prID0 w) as (-> & -> & _ & Hprs). split; [done|]. split; [done|].
    intros prID [pr Hpr]. destruct (Hprs _ _ Hpr) as [->|(_ & _ & ->)]; by eexists.
  - destruct (ReassignReviewer_frame req w) as (-> & -> & -> & _). done.
  - destruct (DeactivateTeamUsers_frame req w Hpk Hae) as (-> & -> & ? & _). done.
Qed.

Lemma nothing_is_deleted_witness :
  is_Some (prs (store (usecase.DeactivateTeamUsers examples.deactivate_u3 cases.with_pr).2)
             !! "pr-1")
  ∧ is_Some (users (store (usecase.DeactivateTeamUsers examples.deactivate_u3 cases.with_pr).2)
               !! "u3").
Proof.
  destruct (nothing_is_deleted cases.with_pr
              (usecase.DeactivateTeamUsers examples.deactivate_u3 cases.with_pr).2)
    as (_ & Husers & Hprs).
  - apply reachable_CreatePR, reachable_CreateTeam, reachable_new.
  - apply step_DeactivateTeamUsers.
  - split; [apply Hprs|apply Husers]; vm_compute; eauto.
Defined.

(** X8.  A MERGED pull request is final: no call changes it or its
    reviewers. *)
Theorem merged_is_final w w' prID pr :
  reachable w → step w w' →
  prs (store w) !! prID = Some pr →
  Status pr = PRStatusMerged →
  prs (store w') !! prID = Some pr
  ∧ reviewersOf (store w') prID = reviewersOf (store w) prID.
Proof.
  intros Hw Hstep Hpr Hm. pose proof (reachable_store_wf _ Hw) as [_ Hpk Hae _].
  unfold reviewersOf.
  destruct Hstep as [w req|w req|w req|w prID0|w req|w req].
  - destruct (CreateTeam_frame req w) as (-> & -> & _). done.
  - destruct (SetUserActive_frame req w) as (_ & -> & -> & _). done.
  - destruct (CreatePR_frame req w) as (_ & _ & Hprs).
    destruct (Hprs _ _ Hpr) as [-> ->]. done.
  - destruct (MergePR_frame prID0 w) as (_ & _ & -> & Hprs).
    destruct (Hprs _ _ Hpr) as [->|(_ & ? & _)]; done.
  - destruct (ReassignReviewer_frame req w) as (_ & _ & -> & Hrev). split; [done|].
    destruct (Hrev prID) as [->|(_ & pr' & Hpr' & Hopen)]; [done|]. congruence.
  - destruct (DeactivateTeamUsers_frame req w Hpk Hae) as (_ & -> & _ & Hrev).
    split; [done|]. rewrite (Hrev _ _ Hpr); [done|]. by rewrite Hm.
Qed.

Lemma merged_is_final_witness :
  ∃ pr, prs (store cases.with_merged) !! "pr-1" = Some pr
        ∧ Status pr = PRStatusMerged
        ∧ "u3" ∈ reviewersOf (store cases.with_merged) "pr-1"
        ∧ prs (store (usecase.DeactivateTeamUsers examples.deactivate_u3 cases.with_merged).2)
            !! "pr-1" = Some pr
        ∧ reviewersOf
            (store (usecase.DeactivateTeamUsers examples.deactivate_u3 cases.with_merged).2) "pr-1"
          = reviewersOf (store cases.with_merged) "pr-1".
Proof.
  eexists.
  eassert (prs (store cases.with_merged) !! "pr-1" = Some _) as Hpr
    by (vm_compute; reflexivity).
  split; [exact Hpr|]. split; [reflexivity|].
  split; [apply (bool_decide_unpack _); vm_compute; exact I|].
  apply (merged_is_final cases.with_merged _ "pr-1" _); [| |exact Hpr|reflexivity].
  - apply reachable_MergePR, reachable_CreatePR, reachable_CreateTeam, reachable_new.
  - apply step_DeactivateTeamUsers.
Defined.

(** ** The outcomes of the calls, as a handler sees them *)

Lemma call_Ok {A} (c : M A) w a w' : c w = (Ok a, w') → call c w = (Ok (inl a), w').
Proof. unfold call. by intros ->. Qed.

Lemma call_Err {A} (c : M A) w e w' : c w = (Err e, w') → call c w = (Ok (inr e), w').
Proof. unfold call. by intros ->. Qed.

Lemma CreatePR_exists req w :
  is_Some (prs (store w) !! createpr_PullRequestID req) →
  usecase.CreatePR req w = (Err ErrPRAlreadyExists, w).
Proof.
  intros Hex. unfold usecase.CreatePR, bind at 1. unfold repo.PRExists, bind, get_store, ret.
  by rewrite bool_decide_eq_true_2.
Qed.

Lemma CreatePR_no_author req w :
  prs (store w) !! createpr_PullRequestID req = None →
  users (store w) !! createpr_AuthorID req = None →
  usecase.CreatePR req w = (Err ErrUserNotFound, w).
Proof.
  intros Hnew Hau. unfold usecase.CreatePR, bind at 1.
  unfold repo.PRExists, bind, get_store, ret.
  rewrite bool_decide_eq_false_2 by (rewrite Hnew; by intros [? ?]).
  by rewrite GetUser_run, Hau.
Qed.

(** The errors of [ReassignReviewer]; each leaves the store alone. *)
Lemma ReassignReviewer_errors req w e w' :
  usecase.ReassignReviewer req w = (Err e, w') →
  store w' = store w
  ∧ e ∈ [ErrPRNotFound; ErrPRMerged; ErrReviewerNotAssigned; ErrUserNotFound;
         ErrNoActiveCandidate].
Proof.
  intros He.
  pose proof (ReassignReviewer_run req w) as Hrun. cbv zeta in Hrun.
  destruct (prs (store w) !! reassign_PullRequestID req) as [pr|].
  2:{ rewrite Hrun in He. injection He as <- <-. split; [done|set_solver]. }
  destruct (decide (Status pr = PRStatusMerged)).
  { rewrite Hrun in He. injection He as <- <-. split; [done|set_solver]. }
  destruct (decide (OldUserID req ∈ reviewersOf (store w) (reassign_PullRequestID req))).
  2:{ rewrite Hrun in He. injection He as <- <-. split; [done|set_solver]. }
  destruct (users (store w) !! OldUserID req) as [old|].
  2:{ rewrite Hrun in He. injection He as <- <-. split; [done|set_solver]. }
  destruct Hrun as (candidates & Hcand & Hrun).
  destruct (decide _).
  { rewrite Hrun in He. injection He as <- <-. split; [done|set_solver]. }
  destruct Hrun as (c & Hc & Hrun). congruence.
Qed.

Lemma DeactivateTeamUsers_no_team req w :
  teams (store w) !! deactivate_TeamName req = None →
  usecase.DeactivateTeamUsers req w = (Err ErrTeamNotFound, w).
Proof.
  intros Hteam. pose proof (getValidTeamUserIDsForDeactivation_run req w) as Hrun.
  rewrite Hteam in Hrun. unfold usecase.DeactivateTeamUsers, bind. by rewrite Hrun.
Qed.

Lemma DeactivateTeamUsers_none_valid req w :
  is_Some (teams (store w) !! deactivate_TeamName req) →
  validUserIDs (store w) (deactivate_TeamName req) (UserIDs req) = [] →
  usecase.DeactivateTeamUsers req w
  = (Err (NewAppError ErrCodeBadRequest "no valid users to deactivate"),
     after_range_users w).
Proof.
  intros [team Hteam] Hnone.
  pose proof (getValidTeamUserIDsForDeactivation_run req w) as Hrun.
  rewrite Hteam, Hnone in Hrun. unfold usecase.DeactivateTeamUsers, bind. by rewrite Hrun.
Qed.

(** ** Reading: the reviews of a user *)

Lemma review_of_foldl ps userID (entries : list (string * list string)) found :
  foldl (repo.review_of ps userID) found entries
  = found ++ omap (λ entry : string * list string,
                     if decide (userID ∈ entry.2) then ps !! entry.1 else None) entries.
Proof.
  revert found. induction entries as [|entry entries IH]; intros found.
  - by rewrite app_nil_r.
  - cbn [foldl omap list_omap]. rewrite IH. unfold repo.review_of.
    destruct (decide (userID ∈ entry.2)); [|done].
    destruct (ps !! entry.1); [by rewrite <- app_assoc|done].
Qed.

Lemma omap_keys_sublist {A B} (f : string * A → option B) (key : B → string)
    (entries : list (string * A)) :
  (∀ entry b, f entry = Some b → key b = entry.1) →
  key <$> omap f entries `sublist_of` entries.*1.
Proof.
  intros Hkey. induction entries as [|entry entries IH]; [done|].
  cbn [omap list_omap fmap list_fmap].
  destruct (f entry) as [b|] eqn:Hf.
  - cbn [fmap list_fmap]. rewrite (Hkey _ _ Hf). by constructor.
  - by constructor.
Qed.

(** [GetUserReviews] returns, in the order the runtime lists the reviewer
    lists, the stored pull requests whose reviewers include [userID]. *)
Lemma GetUserReviews_found userID w :
  ∃ found,
    repo.GetUserReviews userID w
    = (Ok found,
       {| store := store w; tape := drop (size (prReviewers (store w))) (tape w);
          clock := clock w; history := history w |})
    ∧ found ≡ₚ omap (λ entry : string * list string,
                       if decide (userID ∈ entry.2) then prs (store w) !! entry.1 else None)
                    (map_to_list (prReviewers (store w))).
Proof.
  unfold repo.GetUserReviews, bind, get_store, range_map, ret.
  eexists. split; [reflexivity|]. rewrite review_of_foldl. cbn [app].
  by rewrite shuffle_Permutation.
Qed.

Lemma GetUserReviews_run userID w :
  ∃ found,
    repo.GetUserReviews userID w
    = (Ok found,
       {| store := store w; tape := drop (size (prReviewers (store w))) (tape w);
          clock := clock w; history := history w |})
    ∧ (∀ pr, pr ∈ found ↔
             ∃ prID, prs (store w) !! prID = Some pr ∧ userID ∈ reviewersOf (store w) prID)
    ∧ (prs_keyed (store w) → NoDup (PullRequestID <$> found)).
Proof.
  destruct (GetUserReviews_found userID w) as (found & Hrun & Hperm).
  exists found. split; [done|]. split.
  - intros pr. rewrite Hperm, list_elem_of_omap. split.
    + intros ([prID l] & Hin & Hf). cbn [fst snd] in Hf.
      destruct (decide (userID ∈ l)) as [Hu|]; [|done].
      apply elem_of_map_to_list in Hin.
      exists prID. split; [done|]. unfold reviewersOf. by rewrite Hin.
    + intros (prID & Hpr & Hin). apply reviewersOf_lookup in Hin as (l & Hl & Hin).
      exists (prID, l). split.
      * by apply elem_of_map_to_list.
      * cbn [fst snd]. by rewrite decide_True.
  - intros Hpk. rewrite Hperm. eapply sublist_NoDup.
    2:{ apply (omap_keys_sublist _ PullRequestID). intros [prID l] pr. cbn [fst snd].
        destruct (decide _); [|done]. intros Hpr. by apply Hpk in Hpr. }
    apply NoDup_fst_map_to_list.
Qed.

(** X9.  For a stored user, [GetUserReviews] lists exactly the stored pull
    requests that have the user among their reviewers, OPEN or MERGED, each
    once, and leaves the store alone. *)
Theorem GetUserReviews_lists_reviews userID w user :
  prs_keyed (store w) →
  users (store w) !! userID = Some user →
  ∃ resp w',
    usecase.GetUserReviews userID w = (Ok resp, w')
    ∧ store w' = store w
    ∧ reviews_UserID resp = userID
    ∧ NoDup (short_PullRequestID <$> PullRequests resp)
    ∧ ∀ s, s ∈ PullRequests resp ↔
           ∃ pr, prs (store w) !! short_PullRequestID s = Some pr
                 ∧ s = usecase.short_of pr
                 ∧ userID ∈ reviewersOf (store w) (short_PullRequestID s).
Proof.
  intros Hpk Huser.
  destruct (GetUserReviews_run userID w) as (found & Hrun & Hfound & Hnd).
  unfold usecase.GetUserReviews, bind. rewrite GetUser_run, Huser, Hrun.
  eexists _, _. split; [reflexivity|]. split; [done|]. split; [done|].
  cbn [PullRequests]. split.
  - rewrite <- list_fmap_compose. by apply Hnd.
  - intros s. rewrite list_elem_of_fmap. split.
    + intros (pr & -> & Hin). apply Hfound in Hin as (prID & Hpr & Hin).
      cbn [short_PullRequestID usecase.short_of].
      pose proof (Hpk _ _ Hpr) as Hid. cbn in Hid. rewrite Hid. by exists pr.
    + intros (pr & Hpr & -> & Hin). exists pr. split; [done|].
      apply Hfound. eauto.
Qed.

Lemma GetUserReviews_lists_reviews_witness :
  ∃ resp w',
    usecase.GetUserReviews "u3" cases.with_merged = (Ok resp, w')
    ∧ PullRequests resp
      = [{| short_PullRequestID := "pr-1"; short_PullRequestName := "x";
            short_AuthorID := "u1"; short_Status := PRStatusMerged |}]
    ∧ store w' = store cases.with_merged
    ∧ NoDup (short_PullRequestID <$> PullRequests resp).
Proof.
  destruct (GetUserReviews_lists_reviews "u3" cases.with_merged
              (examples.user "u3" "backend" true))
    as (resp & w' & Hrun & Hst & _ & Hnd & _).
  - apply (bool_decide_unpack _). vm_compute. exact I.
  - vm_compute. reflexivity.
  - exists resp, w'. split; [exact Hrun|]. split; [|split; [exact Hst|exact Hnd]].
    pose proof Hrun as Hrun'. vm_compute in Hrun'. injection Hrun' as <- _. reflexivity.
Defined.

(** ** Reading: the statistics *)

Lemma sum_list_Permutation (l k : list nat) : l ≡ₚ k → sum_list l = sum_list k.
Proof. induction 1; cbn [sum_list]; lia. Qed.

(** Counting the reviewers of one pull request. *)
Lemma count_reviewer_foldl (reviewers : list string) stats userID :
  stats !! userID ≠ Some 0 →
  foldl repo.count_reviewer stats reviewers !! userID ≠ Some 0
  ∧ default 0 (foldl repo.count_reviewer stats reviewers !! userID)
    = default 0 (stats !! userID) + length (filter (λ x, x = userID) reviewers).
Proof.
  revert stats. induction reviewers as [|x reviewers IH]; intros stats Hpos.
  - cbn [foldl]. rewrite filter_nil. cbn [length]. split; [done|lia].
  - cbn [foldl]. rewrite filter_cons. unfold repo.count_reviewer at 2 4.
    destruct (decide (x = userID)) as [->|Hne].
    + destruct (IH (<[userID := S (default 0 (stats !! userID))]> stats)) as [IH1 IH2].
      { by rewrite lookup_insert_eq. }
      split; [done|]. rewrite IH2, lookup_insert_eq. cbn. unfold id. lia.
    + destruct (IH (<[x := S (default 0 (stats !! x))]> stats)) as [IH1 IH2].
      { by rewrite lookup_insert_ne. }
      split; [done|]. rewrite IH2, lookup_insert_ne by done. done.
Qed.

Lemma count_entries_foldl (entries : list (string * list string)) stats userID :
  stats !! userID ≠ Some 0 →
  let stats' := foldl (λ stats (entry : string * list string),
                         foldl repo.count_reviewer stats entry.2) stats entries in
  stats' !! userID ≠ Some 0
  ∧ default 0 (stats' !! userID)
    = default 0 (stats !! userID)
      + sum_list ((λ entry : string * list string,
                     length (filter (λ x, x = userID) entry.2)) <$> entries).
Proof.
  revert stats. induction entries as [|entry entries IH]; intros stats Hpos.
  - cbn. unfold id. split; [done|lia].
  - cbn [foldl fmap list_fmap sum_list].
    destruct (count_reviewer_foldl entry.2 stats userID Hpos) as [H1 H2].
    destruct (IH _ H1) as [IH1 IH2]. cbv zeta in IH1, IH2.
    split; [done|]. rewrite IH2, H2. unfold id. lia.
Qed.

Lemma GetAssignmentStats_run w :
  ∃ stats w',
    usecase.GetAssignmentStats w = (Ok {[ "reviewer_assignments" := stats ]}, w')
    ∧ store w' = store w
    ∧ ∀ userID,
        stats !! userID
        = if decide (assignments (store w) userID = 0) then None
          else Some (assignments (store w) userID).
Proof.
  unfold usecase.GetAssignmentStats, repo.GetAssignmentStats, bind, get_store, range_map, ret.
  eexists _, _. split; [reflexivity|]. split; [done|].
  intros userID. cbn [store].
  set (entries := shuffle (tape w) (map_to_list (prReviewers (store w)))).
  destruct (count_entries_foldl entries ∅ userID) as [Hpos Hsum].
  { by rewrite lookup_empty. }
  cbv zeta in Hpos, Hsum. rewrite lookup_empty in Hsum. cbn [default from_option] in Hsum.
  assert (sum_list ((λ entry : string * list string,
                       length (filter (λ x, x = userID) entry.2)) <$> entries)
          = assignments (store w) userID) as Heq.
  { unfold assignments. apply sum_list_Permutation, fmap_Permutation, shuffle_Permutation. }
  rewrite Heq in Hsum.
  destruct (foldl _ _ entries !! userID) as [n|]; cbn in Hsum.
  - rewrite <- Hsum. destruct n; [done|]. by rewrite decide_False.
  - by rewrite <- Hsum.
Qed.

(** Where no reviewer is listed twice and every reviewed pull request is
    stored, a user holds as many slots as it reviews pull requests. *)
Lemma assignments_reviews r userID :
  reviewers_NoDup r → reviewed_prs_exist r →
  assignments r userID
  = length (omap (λ entry : string * list string,
                    if decide (userID ∈ entry.2) then prs r !! entry.1 else None)
                 (map_to_list (prReviewers r))).
Proof.
  intros Hnd Hex. unfold assignments.
  assert (Forall (λ entry : string * list string,
                    NoDup entry.2 ∧ is_Some (prs r !! entry.1))
                 (map_to_list (prReviewers r))) as Hall.
  { apply Forall_forall. intros [prID l] Hin%elem_of_map_to_list. cbn [fst snd].
    split; [by apply Hnd in Hin|by apply Hex in Hin]. }
  induction Hall as [|[prID l] entries [Hl [pr Hpr]] _ IH]; [done|].
  cbn [fmap list_fmap sum_list omap list_omap fst snd] in *. rewrite IH, Hpr.
  destruct (decide (userID ∈ l)) as [Hin|Hin].
  - rewrite filter_eq_NoDup by done. done.
  - rewrite filter_none; [done|]. by intros x Hx ->.
Qed.

(** X10.  [GetAssignmentStats] counts, for every user, the reviewer slots
    the user holds over all pull requests, OPEN or MERGED, whatever the order
    the runtime lists them in; a user with none is absent from the
    statistics; the store is left alone.  The handler of GET /stats answers
    200 with these statistics. *)
Theorem GetAssignmentStats_counts w :
  ∃ stats w',
    usecase.GetAssignmentStats w = (Ok {[ "reviewer_assignments" := stats ]}, w')
    ∧ store w' = store w
    ∧ (∀ userID,
         stats !! userID
         = if decide (assignments (store w) userID = 0) then None
           else Some (assignments (store w) userID))
    ∧ ∀ B (r : Request B),
        http.GET_stats r w
        = (Ok (respondJSON StatusOK {[ "reviewer_assignments" := stats ]}), w').
Proof.
  destruct (GetAssignmentStats_run w) as (stats & w' & Hrun & Hst & Hcount).
  exists stats, w'. split; [done|]. split; [done|]. split; [done|].
  intros B r. unfold http.GET_stats, http.getStats, bind. by rewrite (call_Ok _ _ _ _ Hrun).
Qed.

(** X20.  In a reachable world the statistics agree with the reviews: the
    count [GetAssignmentStats] reports for a stored user is the number of
    pull requests [GetUserReviews] lists for that user. *)
Theorem stats_agree_with_reviews w userID user :
  reachable w →
  users (store w) !! userID = Some user →
  ∃ stats w1 reviews w2,
    usecase.GetAssignmentStats w = (Ok {[ "reviewer_assignments" := stats ]}, w1)
    ∧ usecase.GetUserReviews userID w = (Ok reviews, w2)
    ∧ default 0 (stats !! userID) = length (PullRequests reviews).
Proof.
  intros Hw Huser. pose proof (reachable_store_wf _ Hw) as [_ _ _ Hnd].
  pose proof (reachable_store_inv _ Hw) as [_ _ Hex _ _ _ _].
  destruct (GetAssignmentStats_run w) as (stats & w1 & Hstats & _ & Hcount).
  destruct (GetUserReviews_found userID w) as (found & Hrun & Hperm).
  exists stats, w1. eexists _, _. split; [exact Hstats|]. split.
  - unfold usecase.GetUserReviews, bind. rewrite GetUser_run, Huser, Hrun. reflexivity.
  - cbn [PullRequests]. rewrite length_fmap, Hperm, <- assignments_reviews by done.
    rewrite Hcount. by destruct (decide _) as [->|].
Qed.

Lemma stats_agree_with_reviews_witness :
  ∃ stats w1 reviews w2,
    usecase.GetAssignmentStats cases.with_pr = (Ok {[ "reviewer_assignments" := stats ]}, w1)
    ∧ usecase.GetUserReviews "u3" cases.with_pr = (Ok reviews, w2)
    ∧ default 0 (stats !! "u3") = length (PullRequests reviews).
Proof.
  apply (stats_agree_with_reviews cases.with_pr "u3" (examples.user "u3" "backend" true)).
  - apply reachable_CreatePR, reachable_CreateTeam, reachable_new.
  - vm_compute. reflexivity.
Defined.

(** ** Reading: a team *)

(** The members [GetTeam] returns are the users of the team, in the order
    the runtime lists them. *)
Lemma usecase_GetTeam_run teamName w :
  match teams (store w) !! teamName with
  | None => usecase.GetTeam teamName w = (Err ErrTeamNotFound, w)
  | Some team =>
      ∃ members,
        usecase.GetTeam teamName w
        = (Ok {| teamresp_TeamName := team_TeamName team;
                 teamresp_Members := usecase.member_of <$> members |},
           after_range_users w)
        ∧ members ≡ₚ filter (λ user, TeamName user = teamName)
                            (map_to_list (users (store w))).*2
  end.
Proof.
  unfold usecase.GetTeam, repo.GetTeam, bind, get_store, range_map, ret.
  destruct (teams (store w) !! teamName) as [team|]; [|done].
  cbn [Members team_TeamName]. eexists. split; [reflexivity|].
  by rewrite shuffle_Permutation.
Qed.

Lemma team_members_lookup r teamName user :
  users_keyed r →
  user ∈ filter (λ user, TeamName user = teamName) (map_to_list (users r)).*2
  ↔ users r !! UserID user = Some user ∧ TeamName user = teamName.
Proof.
  intros Hk. rewrite list_elem_of_filter, list_elem_of_fmap. split.
  - intros [HP ([id u] & Heq & Hin)]. apply elem_of_map_to_list in Hin.
    simpl in Heq. subst u. pose proof (Hk _ _ Hin) as Hid. simpl in Hid.
    subst id. tauto.
  - intros (Hl & HP). split; [done|].
    exists (UserID user, user). split; [done|]. by apply elem_of_map_to_list.
Qed.

Lemma team_members_NoDup r teamName :
  users_keyed r →
  NoDup (UserID <$> filter (λ user, TeamName user = teamName) (map_to_list (users r)).*2).
Proof.
  intros Hk.
  assert (UserID <$> (map_to_list (users r)).*2 = (map_to_list (users r)).*1) as Heq.
  { rewrite <- list_fmap_compose. apply list_fmap_ext.
    intros i [id u] Hin. simpl. apply list_elem_of_lookup_2 in Hin.
    apply elem_of_map_to_list in Hin. by apply Hk in Hin. }
  eapply sublist_NoDup; [|apply fmap_sublist, sublist_filter].
  rewrite Heq. apply NoDup_fst_map_to_list.
Qed.

(** X11.  For a team that exists, [GetTeam] lists exactly the stored users
    of the team, active or not, each once, and leaves the store alone; they
    are the users [GetUsersByTeam] returns. *)
Theorem GetTeam_lists_members teamName w team :
  users_keyed (store w) →
  teams (store w) !! teamName = Some team →
  ∃ resp w',
    usecase.GetTeam teamName w = (Ok resp, w')
    ∧ store w' = store w
    ∧ teamresp_TeamName resp = team_TeamName team
    ∧ NoDup (member_UserID <$> teamresp_Members resp)
    ∧ (∀ m, m ∈ teamresp_Members resp ↔
            ∃ user, users (store w) !! member_UserID m = Some user
                    ∧ TeamName user = teamName
                    ∧ m = usecase.member_of user)
    ∧ ∃ stored, repo.GetUsersByTeam teamName w = (Ok stored, w')
                ∧ teamresp_Members resp = usecase.member_of <$> stored.
Proof.
  intros Hk Hteam. pose proof (usecase_GetTeam_run teamName w) as Hrun.
  rewrite Hteam in Hrun. destruct Hrun as (members & Hrun & Hperm).
  eexists _, _. split; [exact Hrun|]. split; [done|]. split; [done|].
  cbn [teamresp_Members]. split; [|split].
  3:{ eexists. split; [reflexivity|].
      revert Hrun. unfold usecase.GetTeam, repo.GetTeam, bind, get_store, range_map, ret.
      rewrite Hteam. cbn [Members]. by intros [= <-]. }
  - rewrite <- list_fmap_compose.
    change (member_UserID ∘ usecase.member_of) with UserID.
    rewrite Hperm. by apply team_members_NoDup.
  - intros m. rewrite list_elem_of_fmap. split.
    + intros (user & -> & Hin). rewrite Hperm in Hin.
      apply team_members_lookup in Hin as [Hl Ht]; [|done]. by exists user.
    + intros (user & Hl & Ht & ->). exists user. split; [done|].
      rewrite Hperm. apply team_members_lookup; [done|].
      cbn [member_UserID usecase.member_of] in Hl. done.
Qed.

Lemma GetTeam_lists_members_witness :
  ∃ resp w',
    usecase.GetTeam "backend" examples.world1_idle = (Ok resp, w')
    ∧ store w' = store examples.world1_idle
    ∧ cases.member "u3" false ∈ teamresp_Members resp
    ∧ NoDup (member_UserID <$> teamresp_Members resp).
Proof.
  destruct (GetTeam_lists_members "backend" examples.world1_idle examples.backend)
    as (resp & w' & Hrun & Hst & _ & Hnd & Hmem).
  - apply (bool_decide_unpack _). vm_compute. exact I.
  - vm_compute. reflexivity.
  - exists resp, w'. split; [exact Hrun|]. split; [exact Hst|]. split; [|exact Hnd].
    apply Hmem. exists (examples.user "u3" "backend" false).
    split; [vm_compute; reflexivity|]. split; reflexivity.
Defined.

(** X12.  In a reachable world, creating a team whose members have distinct
    ids and then reading it returns the members of the request, each once,
    in some order. *)
Theorem CreateTeam_then_GetTeam req w :
  reachable w →
  teams (store w) !! createteam_TeamName req = None →
  NoDup (member_UserID <$> createteam_Members req) →
  ∃ resp w1 got w2,
    usecase.CreateTeam req w = (Ok resp, w1)
    ∧ usecase.GetTeam (createteam_TeamName req) w1 = (Ok got, w2)
    ∧ teamresp_TeamName got = createteam_TeamName req
    ∧ teamresp_Members got ≡ₚ createteam_Members req.
Proof.
  intros Hw Hnew Hnd.
  pose proof (reachable_CreateTeam w req Hw) as Hw1.
  pose proof (reachable_store_wf _ Hw1) as [Hk1 _ _ _].
  pose proof (reachable_store_inv _ Hw) as [_ Hm _ _ _ _ _].
  set (name := createteam_TeamName req) in *.
  set (stored := λ m, {| UserID := member_UserID m; Username := member_Username m;
                         TeamName := name; IsActive := member_IsActive m |}).
  revert Hw1 Hk1. rewrite CreateTeam_run. fold name. rewrite Hnew. cbn [snd]. intros Hw1 Hk1.
  eexists _, _. 
  match goal with |- ∃ got w2, (_, ?w1') = _ ∧ _ => set (w1 := w1') in * end.
  pose proof (usecase_GetTeam_run name w1) as Hrun.
  assert (teams (store w1) !! name = Some {| team_TeamName := name; Members := [] |}) as Ht.
  { subst w1. cbn [store teams]. by rewrite lookup_insert_eq. }
  rewrite Ht in Hrun. destruct Hrun as (members & Hrun & Hperm).
  eexists _, _. split; [reflexivity|]. split; [exact Hrun|]. split; [done|].
  cbn [teamresp_Members].
  assert (∀ m, m ∈ createteam_Members req → users (store w1) !! member_UserID m = Some (stored m))
    as Hin.
  { intros m Hm'. subst w1. cbn [store users].
    by apply (foldl_insert_lookup member_UserID stored). }
  assert (∀ id, id ∉ member_UserID <$> createteam_Members req →
                users (store w1) !! id = users (store w) !! id) as Hout.
  { intros id Hid. subst w1. cbn [store users].
    by apply (foldl_insert_lookup_ne member_UserID stored). }
  apply NoDup_Permutation.
  - apply (NoDup_fmap_1 member_UserID). rewrite <- list_fmap_compose.
    change (member_UserID ∘ usecase.member_of) with UserID.
    rewrite Hperm. by apply team_members_NoDup.
  - by apply (NoDup_fmap_1 member_UserID).
  - intros m. rewrite list_elem_of_fmap. split.
    + intros (user & -> & Huser). rewrite Hperm in Huser.
      apply team_members_lookup in Huser as [Hl Hteam]; [|done].
      destruct (decide (UserID user ∈ member_UserID <$> createteam_Members req))
        as [(m & Hid & Hm')%list_elem_of_fmap|Hid].
      * rewrite Hid, (Hin _ Hm') in Hl. injection Hl as <-.
        by destruct m.
      * rewrite (Hout _ Hid) in Hl. apply Hm in Hl as [team Hteam']. cbn in Hteam'.
        rewrite Hteam in Hteam'. congruence.
    + intros Hm'. exists (stored m). split; [by destruct m|].
      rewrite Hperm. apply team_members_lookup; [done|]. split; [|done].
      by apply Hin.
Qed.

Lemma CreateTeam_then_GetTeam_witness :
  ∃ resp w1 got w2,
    usecase.CreateTeam examples.create_mobile cases.with_pr = (Ok resp, w1)
    ∧ usecase.GetTeam "mobile" w1 = (Ok got, w2)
    ∧ teamresp_TeamName got = "mobile"
    ∧ teamresp_Members got ≡ₚ [examples.mobile_member].
Proof.
  apply (CreateTeam_then_GetTeam examples.create_mobile cases.with_pr).
  - apply reachable_CreatePR, reachable_CreateTeam, reachable_new.
  - vm_compute. reflexivity.
  - apply (bool_decide_unpack _). vm_compute. exact I.
Defined.

(** ** Opening a pull request, further *)

(** X13.  [CreatePR] fails with PR_EXISTS when the id is taken, before it
    looks at the author; else with NOT_FOUND when the author is not a user;
    in both cases the world is untouched.  Otherwise it succeeds: the pull
    request is stored OPEN, created at the time of the call and not merged,
    with the reviewers of the response, and the three readers of the
    repository give them back. *)
Theorem CreatePR_outcome req w :
  (is_Some (prs (store w) !! createpr_PullRequestID req) →
   usecase.CreatePR req w = (Err ErrPRAlreadyExists, w))
  ∧ (prs (store w) !! createpr_PullRequestID req = None →
     users (store w) !! createpr_AuthorID req = None →
     usecase.CreatePR req w = (Err ErrUserNotFound, w))
  ∧ (prs (store w) !! createpr_PullRequestID req = None →
     is_Some (users (store w) !! createpr_AuthorID req) →
     ∃ resp w' pr,
       usecase.CreatePR req w = (Ok resp, w')
       ∧ resp = usecase.response pr (AssignedReviewers resp)
       ∧ pr = {| PullRequestID := createpr_PullRequestID req;
                 PullRequestName := createpr_PullRequestName req;
                 AuthorID := createpr_AuthorID req;
                 Status := PRStatusOpen;
                 CreatedAt := Some (clock w);
                 MergedAt := None |}
       ∧ repo.GetPRWithReviewers (createpr_PullRequestID req) w'
         = (Ok (pr, AssignedReviewers resp), w')
       ∧ repo.GetPR (createpr_PullRequestID req) w' = (Ok pr, w')
       ∧ repo.GetPRReviewers (createpr_PullRequestID req) w'
         = (Ok (AssignedReviewers resp), w')).
Proof.
  split; [|split].
  - apply CreatePR_exists.
  - apply CreatePR_no_author.
  - intros Hnew [author Hau].
    destruct (CreatePR_succeeds req w author Hnew Hau) as (resp & w' & Hrun).
    exists resp, w'. eexists. split; [exact Hrun|].
    apply CreatePR_inv in Hrun
      as (author' & candidates & reviewers & _ & _ & _ & _ & _ & _ & -> & Hst).
    cbn [AssignedReviewers usecase.response]. split; [reflexivity|]. split; [reflexivity|].
    rewrite GetPRWithReviewers_run.
    unfold repo.GetPR, repo.GetPRReviewers, bind, get_store, ret.
    rewrite Hst. cbn [prs prReviewers]. by rewrite !lookup_insert_eq.
Qed.

Lemma CreatePR_outcome_witness :
  usecase.CreatePR examples.create_pr1 examples.world1
  = (Err ErrPRAlreadyExists, examples.world1)
  ∧ usecase.CreatePR examples.create_pr1 cases.new_world
    = (Err ErrUserNotFound, cases.new_world)
  ∧ ∃ resp w' pr,
      usecase.CreatePR examples.create_pr1 examples.world0 = (Ok resp, w')
      ∧ resp = usecase.response pr (AssignedReviewers resp)
      ∧ pr = examples.pr1
      ∧ repo.GetPRWithReviewers "pr-1" w' = (Ok (pr, AssignedReviewers resp), w')
      ∧ repo.GetPR "pr-1" w' = (Ok pr, w')
      ∧ repo.GetPRReviewers "pr-1" w' = (Ok (AssignedReviewers resp), w').
Proof.
  split; [|split].
  - apply (proj1 (CreatePR_outcome examples.create_pr1 examples.world1)).
    vm_compute. eauto.
  - apply (proj1 (proj2 (CreatePR_outcome examples.create_pr1 cases.new_world)));
      vm_compute; reflexivity.
  - apply (proj2 (proj2 (CreatePR_outcome examples.create_pr1 examples.world0))).
    + vm_compute. reflexivity.
    + vm_compute. eauto.
Defined.

(** X14.  Every reviewer [CreatePR] assigns is a stored user that is active
    and in the team of the author. *)
Theorem CreatePR_reviewers_active_teammates req w resp w' :
  users_keyed (store w) →
  usecase.CreatePR req w = (Ok resp, w') →
  ∃ author,
    users (store w) !! createpr_AuthorID req = Some author
    ∧ ∀ id, id ∈ AssignedReviewers resp →
            ∃ user, users (store w) !! id = Some user
                    ∧ IsActive user = true
                    ∧ TeamName user = TeamName author.
Proof.
  intros Hk Hrun.
  apply CreatePR_inv in Hrun
    as (author & candidates & reviewers & _ & Hau & Hcand & _ & Hsub & _ & -> & _).
  exists author. split; [done|]. cbn [AssignedReviewers usecase.response].
  intros id (c & -> & Hc%Hsub)%list_elem_of_fmap. rewrite Hcand in Hc.
  apply activeTeamMembers_lookup in Hc as (Hl & Ht & Hact & _); [|done].
  by exists c.
Qed.

Lemma CreatePR_reviewers_active_teammates_witness :
  users_keyed (store cases.with_idle)
  ∧ ∃ resp w',
      usecase.CreatePR examples.create_pr1 cases.with_idle = (Ok resp, w')
      ∧ AssignedReviewers resp = ["u2"; "u4"]
      ∧ ∃ author,
          users (store cases.with_idle) !! "u1" = Some author
          ∧ ∀ id, id ∈ AssignedReviewers resp →
                  ∃ user, users (store cases.with_idle) !! id = Some user
                          ∧ IsActive user = true
                          ∧ TeamName user = TeamName author.
Proof.
  assert (users_keyed (store cases.with_idle)) as Hk.
  { apply (bool_decide_unpack _). vm_compute. exact I. }
  split; [exact Hk|].
  eexists _, _.
  eassert (usecase.CreatePR examples.create_pr1 cases.with_idle = (Ok _, _)) as Hrun.
  { vm_compute. reflexivity. }
  split; [exact Hrun|]. split; [reflexivity|].
  exact (CreatePR_reviewers_active_teammates _ _ _ _ Hk Hrun).
Defined.

(** X15.  [CreatePR] and [ReassignReviewer] never panic: the permutation of
    [selectReviewers] is indexed within its bounds, and [rand.Intn] is called
    with a positive bound and indexes the candidates within theirs. *)
Theorem selection_never_panics :
  (∀ req w, (usecase.CreatePR req w).1 ≠ Panic)
  ∧ (∀ req w, (usecase.ReassignReviewer req w).1 ≠ Panic)
  ∧ (∀ candidates n w, (usecase.selectReviewers candidates n w).1 ≠ Panic).
Proof.
  split; [|split].
  - intros req w.
    destruct (prs (store w) !! createpr_PullRequestID req) as [pr|] eqn:Hpr.
    { unfold usecase.CreatePR, bind at 1. unfold repo.PRExists, bind, get_store, ret.
      by rewrite bool_decide_eq_true_2 by (by rewrite Hpr). }
    destruct (users (store w) !! createpr_AuthorID req) as [author|] eqn:Hau.
    + by destruct (CreatePR_succeeds req w author Hpr Hau) as (resp & w' & ->).
    + unfold usecase.CreatePR, bind at 1. unfold repo.PRExists, bind, get_store, ret.
      rewrite bool_decide_eq_false_2 by (rewrite Hpr; by intros [? ?]).
      by rewrite GetUser_run, Hau.
  - intros req w.
    pose proof (ReassignReviewer_run req w) as Hrun. cbv zeta in Hrun.
    destruct (prs (store w) !! reassign_PullRequestID req) as [pr|]; [|by rewrite Hrun].
    destruct (decide (Status pr = PRStatusMerged)); [by rewrite Hrun|].
    destruct (decide (OldUserID req ∈ reviewersOf (store w) (reassign_PullRequestID req)));
      [|by rewrite Hrun].
    destruct (users (store w) !! OldUserID req) as [old|]; [|by rewrite Hrun].
    destruct Hrun as (candidates & Hcand & Hrun).
    destruct (decide _); [by rewrite Hrun|].
    by destruct Hrun as (c & Hc & ->).
  - intros candidates n w.
    by destruct (selectReviewers_run candidates n w) as (sel & w' & -> & _).
Qed.

(** ** Setting the activity flag of one user *)

(** X16.  [SetUserActive] fails with NOT_FOUND for an unknown user and
    leaves the world untouched.  For a stored user it returns the user with
    the requested flag and stores it; the id, name and team of the user, the
    other users, the teams, the pull requests and every reviewer list stay
    as they were: a user set inactive is still a reviewer. *)
Theorem SetUserActive_only_sets_flag req w :
  (users (store w) !! setactive_UserID req = None →
   usecase.SetUserActive req w = (Err ErrUserNotFound, w))
  ∧ (∀ user,
       users (store w) !! setactive_UserID req = Some user →
       ∃ updated w',
         usecase.SetUserActive req w = (Ok updated, w')
         ∧ users (store w') !! setactive_UserID req = Some updated
         ∧ IsActive updated = setactive_IsActive req
         ∧ UserID updated = UserID user
         ∧ Username updated = Username user
         ∧ TeamName updated = TeamName user
         ∧ (∀ id, id ≠ setactive_UserID req →
                  users (store w') !! id = users (store w) !! id)
         ∧ teams (store w') = teams (store w)
         ∧ prs (store w') = prs (store w)
         ∧ prReviewers (store w') = prReviewers (store w)).
Proof.
  split.
  - intros Hnone. by rewrite SetUserActive_run, Hnone.
  - intros user Huser. rewrite SetUserActive_run, Huser.
    eexists _, _. split; [reflexivity|]. cbn [store users teams prs prReviewers].
    rewrite lookup_insert_eq. repeat split.
    intros id Hne. by rewrite lookup_insert_ne.
Qed.

Lemma SetUserActive_only_sets_flag_witness :
  usecase.SetUserActive cases.idle_u3 cases.new_world = (Err ErrUserNotFound, cases.new_world)
  ∧ ∃ updated w',
      usecase.SetUserActive cases.idle_u3 cases.with_pr = (Ok updated, w')
      ∧ updated = examples.user "u3" "backend" false
      ∧ users (store w') !! "u3" = Some updated
      ∧ "u3" ∈ reviewersOf (store w') "pr-1".
Proof.
  split.
  - apply (proj1 (SetUserActive_only_sets_flag cases.idle_u3 cases.new_world)).
    vm_compute. reflexivity.
  - destruct (proj2 (SetUserActive_only_sets_flag cases.idle_u3 cases.with_pr)
                (examples.user "u3" "backend" true))
      as (updated & w' & Hrun & Hl & _ & _ & _ & _ & _ & _ & _ & Hrev).
    + vm_compute. reflexivity.
    + exists updated, w'. split; [exact Hrun|].
      assert (updated = examples.user "u3" "backend" false) as Hup.
      { pose proof Hrun as Hrun'. vm_compute in Hrun'. by injection Hrun' as <- _. }
      split; [exact Hup|]. split; [exact Hl|].
      unfold reviewersOf. rewrite Hrev.
      apply (bool_decide_unpack _). vm_compute. exact I.
Defined.

(** ** Replacing one reviewer, further *)

Lemma remove_first_other (x y : string) (l : list string) :
  y ≠ x → y ∈ l → y ∈ repo.remove_first x l.
Proof.
  intros Hne. induction l as [|z l IH]; [done|]. cbn [repo.remove_first].
  destruct (decide (z = x)) as [->|Hz].
  - intros [->|Hin]%elem_of_cons; done.
  - intros [->|Hin]%elem_of_cons; [left|right; auto].
Qed.

(** X17.  A successful [ReassignReviewer] swaps one reviewer: the pull
    request has as many reviewers as before, the reviewers other than the
    old one are kept, and the only newcomer is the replacement.  Teams,
    users, pull requests and the reviewers of the other pull requests stay
    as they were. *)
Theorem ReassignReviewer_swaps_one req w resp w' :
  usecase.ReassignReviewer req w = (Ok resp, w') →
  length (AssignedReviewers (PR resp))
  = length (reviewersOf (store w) (reassign_PullRequestID req))
  ∧ (∀ id, id ≠ OldUserID req →
           id ∈ reviewersOf (store w) (reassign_PullRequestID req) →
           id ∈ AssignedReviewers (PR resp))
  ∧ (∀ id, id ∈ AssignedReviewers (PR resp) →
           id ∈ reviewersOf (store w) (reassign_PullRequestID req) ∨ id = ReplacedBy resp)
  ∧ teams (store w') = teams (store w)
  ∧ users (store w') = users (store w)
  ∧ prs (store w') = prs (store w)
  ∧ ∀ prID, prID ≠ reassign_PullRequestID req →
            prReviewers (store w') !! prID = prReviewers (store w) !! prID.
Proof.
  intros Hok. set (prID := reassign_PullRequestID req) in *.
  pose proof (ReassignReviewer_run req w) as Hrun. cbv zeta in Hrun. fold prID in Hrun.
  destruct (prs (store w) !! prID) as [pr|]; [|congruence].
  destruct (decide (Status pr = PRStatusMerged)); [congruence|].
  destruct (decide (OldUserID req ∈ reviewersOf (store w) prID)) as [Hold|]; [|congruence].
  destruct (users (store w) !! OldUserID req) as [old|]; [|congruence].
  destruct Hrun as (candidates & Hcand & Hrun).
  destruct (decide _); [congruence|].
  destruct Hrun as (c & Hc & Hrun). rewrite Hrun in Hok. injection Hok as <- <-.
  cbn [PR ReplacedBy AssignedReviewers usecase.response store teams users prs prReviewers].
  split; [|split; [|split]].
  - rewrite length_app. cbn [length]. pose proof (remove_first_length _ _ Hold). lia.
  - intros id Hne Hin. apply elem_of_app. left. by apply remove_first_other.
  - intros id [Hin%remove_first_elem_of|Heq%list_elem_of_singleton]%elem_of_app; auto.
  - repeat split. intros prID' Hne. by rewrite lookup_insert_ne.
Qed.

Lemma ReassignReviewer_swaps_one_witness :
  ∃ resp w',
    usecase.ReassignReviewer examples.reassign_u3 examples.world1 = (Ok resp, w')
    ∧ reviewersOf (store examples.world1) "pr-1" = ["u3"; "u4"]
    ∧ AssignedReviewers (PR resp) = ["u4"; "u2"]
    ∧ length (AssignedReviewers (PR resp)) = length (reviewersOf (store examples.world1) "pr-1")
    ∧ users (store w') = users (store examples.world1).
Proof.
  eexists _, _.
  eassert (usecase.ReassignReviewer examples.reassign_u3 examples.world1 = (Ok _, _)) as Hrun.
  { vm_compute. reflexivity. }
  split; [exact Hrun|]. split; [vm_compute; reflexivity|]. split; [reflexivity|].
  destruct (ReassignReviewer_swaps_one _ _ _ _ Hrun) as (Hlen & _ & _ & _ & Hus & _).
  split; [exact Hlen|exact Hus].
Defined.

(** ** Deactivating team members, further *)

(** X18.  A successful [DeactivateTeamUsers] returns as deactivated the
    requested ids that name a user of the team, in the order of the request
    and as often as requested.  It sets the activity flag of these users to
    false and changes nothing else of any user, no team and no pull
    request. *)
Theorem DeactivateTeamUsers_touches_only_batch req w resp w' :
  prs_keyed (store w) →
  authors_exist (store w) →
  usecase.DeactivateTeamUsers req w = (Ok resp, w') →
  DeactivatedUsers resp = validUserIDs (store w) (deactivate_TeamName req) (UserIDs req)
  ∧ teams (store w') = teams (store w)
  ∧ prs (store w') = prs (store w)
  ∧ ∀ id, users (store w') !! id
          = if decide (id ∈ DeactivatedUsers resp)
            then (λ user, repo.set_IsActive user false) <$> users (store w) !! id
            else users (store w) !! id.
Proof.
  intros Hpk Hae Hok.
  destruct (DeactivateTeamUsers_store _ _ _ _ Hpk Hae Hok) as (Hb & Hteams & Husers & Hprs).
  split; [done|]. split; [done|]. split; [done|].
  intros id. rewrite Husers. apply deactivate_lookup.
Qed.

Lemma DeactivateTeamUsers_touches_only_batch_witness :
  prs_keyed (store examples.world1)
  ∧ authors_exist (store examples.world1)
  ∧ ∃ resp w',
      usecase.DeactivateTeamUsers cases.deactivate_twice examples.world1 = (Ok resp, w')
      ∧ DeactivatedUsers resp = ["u3"; "u3"]
      ∧ users (store w') !! "u3" = Some (examples.user "u3" "backend" false)
      ∧ users (store w') !! "u4" = Some (examples.user "u4" "backend" true).
Proof.
  assert (prs_keyed (store examples.world1)) as Hpk.
  { apply (bool_decide_unpack _). vm_compute. exact I. }
  assert (authors_exist (store examples.world1)) as Hae.
  { apply (bool_decide_unpack _). vm_compute. exact I. }
  split; [exact Hpk|]. split; [exact Hae|].
  eexists _, _.
  eassert (usecase.DeactivateTeamUsers cases.deactivate_twice examples.world1 = (Ok _, _))
    as Hrun.
  { vm_compute. reflexivity. }
  split; [exact Hrun|].
  destruct (DeactivateTeamUsers_touches_only_batch _ _ _ _ Hpk Hae Hrun)
    as (Hb & _ & _ & Hus).
  split; [rewrite Hb; vm_compute; reflexivity|].
  split; rewrite Hus; vm_compute; reflexivity.
Defined.

(** The records of the plan that bear the id of the pull request at a
    position are the records at that position. *)
Lemma plan_records_lookup (entries : list (string * PullRequest))
    (plans : list (list PRReassignment)) i prID pr records :
  NoDup entries.*1 →
  Forall2 (λ entry records,
             Forall (λ ra, reassignment_PullRequestID ra = entry.1) records)
          entries plans →
  entries !! i = Some (prID, pr) →
  plans !! i = Some records →
  filter (λ ra, reassignment_PullRequestID ra = prID) (concat plans) = records.
Proof.
  intros Hnd HF. revert i.
  induction HF as [|entry records' entries plans Hpid HF IH]; intros i Hi Hr; [done|].
  rewrite fmap_cons in Hnd. apply NoDup_cons in Hnd as [Hfresh Hnd].
  cbn [concat]. rewrite filter_app. destruct i as [|i]; cbn in Hi, Hr.
  - injection Hi as ->. injection Hr as ->. cbn [fst] in *.
    rewrite (plan_records_none entries plans prID) by done.
    rewrite app_nil_r. apply filter_all. intros ra Hra. by eapply Forall_forall in Hpid.
  - rewrite (IH Hnd i Hi Hr). rewrite filter_none; [done|].
    intros ra Hra Hp. eapply Forall_forall in Hpid; [|done].
    apply Hfresh. rewrite <- Hpid, Hp. apply list_elem_of_fmap. exists (prID, pr).
    split; [done|]. by eapply list_elem_of_lookup_2.
Qed.

Lemma zip_with_keys {A B C} (f : A → B → C) (key : C → string) (key' : A → string)
    (l : list A) (k : list B) :
  length l = length k →
  (∀ x y, key (f x y) = key' x) →
  key <$> zip_with f l k = key' <$> l.
Proof.
  intros Hlen Hkey. revert k Hlen. induction l as [|x l IH]; intros [|y k] Hlen; try done.
  cbn [zip_with fmap list_fmap]. rewrite Hkey. f_equal. apply IH. by injection Hlen.
Qed.

(** X19.  The summaries a successful [DeactivateTeamUsers] returns are one
    for each OPEN pull request that had a reviewer among the deactivated
    users, and no other.  A summary lists as old reviewers the deactivated
    reviewers the pull request had, and as new reviewers the reviewers the
    pull request has after the call. *)
Theorem DeactivateTeamUsers_summaries req w resp w' :
  prs_keyed (store w) →
  authors_exist (store w) →
  usecase.DeactivateTeamUsers req w = (Ok resp, w') →
  NoDup (summary_PullRequestID <$> ReassignedPRs resp)
  ∧ (∀ summary,
       summary ∈ ReassignedPRs resp →
       ∃ pr, prs (store w) !! summary_PullRequestID summary = Some pr
             ∧ Status pr = PRStatusOpen
             ∧ OldReviewers summary ≠ []
             ∧ OldReviewers summary
               = filter (λ id, id ∈ DeactivatedUsers resp)
                        (reviewersOf (store w) (summary_PullRequestID summary))
             ∧ NewReviewers summary
               = reviewersOf (store w') (summary_PullRequestID summary))
  ∧ (∀ prID pr,
       prs (store w) !! prID = Some pr →
       Status pr = PRStatusOpen →
       Exists (λ id, id ∈ DeactivatedUsers resp) (reviewersOf (store w) prID) →
       ∃ summary, summary ∈ ReassignedPRs resp ∧ summary_PullRequestID summary = prID).
Proof.
  intros Hpk Hae Hok.
  destruct (DeactivateTeamUsers_Ok_inv _ _ _ _ Hok) as [Hteam Hbatch].
  destruct (DeactivateTeamUsers_run req w Hteam Hbatch Hpk Hae)
    as (entries & plans & w2 & Hperm & HF & Hst2 & _ & Hrun).
  rewrite Hrun in Hok. injection Hok as <- <-.
  set (r := store w) in *.
  set (batch := validUserIDs r (deactivate_TeamName req) (UserIDs req)) in *.
  set (A := filter (affected r batch) entries) in *.
  set (f := λ (entry : string * PullRequest) records,
              summary_of entry.1 (reviewersOf r entry.1) batch records) in *.
  cbn [DeactivatedUsers ReassignedPRs store prReviewers].
  assert (NoDup A.*1) as HndA.
  { eapply sublist_NoDup; [|apply fmap_sublist, sublist_filter].
    rewrite Hperm. apply NoDup_fst_map_to_list. }
  assert (Forall2 (λ entry records,
                     Forall (λ ra, reassignment_PullRequestID ra = entry.1) records)
                  A plans) as Hpid.
  { eapply Forall2_impl; [exact HF|]. intros entry records (author & _ & Hpl).
    by apply planned_records in Hpl as (_ & ? & _). }
  assert (∀ prID pr, (prID, pr) ∈ A →
            prs r !! prID = Some pr ∧ Status pr = PRStatusOpen
            ∧ filter (λ id, id ∈ batch) (reviewersOf r prID) ≠ []) as HA.
  { intros prID pr [[Hopen Hex] Hin]%list_elem_of_filter. cbn [fst snd] in *.
    rewrite Hperm in Hin. apply elem_of_map_to_list in Hin. split; [done|]. split; [done|].
    apply Exists_exists in Hex as (id & Hin' & Hb).
    intros Hnil. assert (id ∈ filter (λ id, id ∈ batch) (reviewersOf r prID)) as Hid
      by (by apply list_elem_of_filter).
    rewrite Hnil in Hid. by apply elem_of_nil in Hid. }
  split; [|split].
  - eapply sublist_NoDup; [|apply fmap_sublist, sublist_filter].
    rewrite (zip_with_keys f summary_PullRequestID fst); [done| |done].
    by eapply Forall2_length.
  - intros summary [_ Hin]%list_elem_of_filter.
    apply list_elem_of_lookup in Hin as [i Hi].
    apply lookup_zip_with_Some in Hi as ([prID pr] & records & -> & Hentry & Hrecords).
    cbn [f fst summary_of summary_PullRequestID OldReviewers NewReviewers].
    destruct (HA prID pr) as (Hpr & Hopen & Hne); [by eapply list_elem_of_lookup_2|].
    exists pr. split; [done|]. split; [done|]. split; [done|]. split; [done|].
    destruct (Forall2_lookup_l _ _ _ _ _ HF Hentry) as (records' & Hr' & author & _ & Hpl).
    assert (records' = records) as -> by congruence. cbn [fst] in Hpl.
    unfold reviewersOf at 2. cbn [prReviewers].
    rewrite reassign_swap, (plan_records_lookup A plans i prID pr records) by done.
    fold (reviewersOf r prID).
    rewrite (planned_swap _ _ _ _ _ _ _ _ Hpl).
    + f_equal. apply filter_ext_elem_of. intros id Hin.
      rewrite list_elem_of_filter. tauto.
    + apply Forall_forall. by intros id [? _]%list_elem_of_filter.
  - intros prID pr Hpr Hopen Hex.
    assert ((prID, pr) ∈ A) as Hin.
    { apply list_elem_of_filter. split; [by split|].
      rewrite Hperm. by apply elem_of_map_to_list. }
    apply list_elem_of_lookup in Hin as [i Hi].
    destruct (Forall2_lookup_l _ _ _ _ _ HF Hi) as (records & Hr & _).
    exists (f (prID, pr) records). split; [|done].
    apply list_elem_of_filter. split.
    + cbn [f fst summary_of OldReviewers].
      destruct (HA prID pr) as (_ & _ & Hne); [by eapply list_elem_of_lookup_2|].
      destruct (filter (λ id, id ∈ batch) (reviewersOf r prID)); [done|]. cbn [length]. lia.
    + apply list_elem_of_lookup. exists i. apply lookup_zip_with_Some.
      by exists (prID, pr), records.
Qed.

Lemma DeactivateTeamUsers_summaries_witness :
  prs_keyed (store examples.world1)
  ∧ authors_exist (store examples.world1)
  ∧ ∃ resp w',
      usecase.DeactivateTeamUsers examples.deactivate_u3 examples.world1 = (Ok resp, w')
      ∧ ReassignedPRs resp
        = [{| summary_PullRequestID := "pr-1"; OldReviewers := ["u3"];
              NewReviewers := ["u4"; "u2"] |}]
      ∧ reviewersOf (store w') "pr-1" = ["u4"; "u2"]
      ∧ NoDup (summary_PullRequestID <$> ReassignedPRs resp).
Proof.
  assert (prs_keyed (store examples.world1)) as Hpk.
  { apply (bool_decide_unpack _). vm_compute. exact I. }
  assert (authors_exist (store examples.world1)) as Hae.
  { apply (bool_decide_unpack _). vm_compute. exact I. }
  split; [exact Hpk|]. split; [exact Hae|].
  eexists _, _.
  eassert (usecase.DeactivateTeamUsers examples.deactivate_u3 examples.world1 = (Ok _, _))
    as Hrun.
  { vm_compute. reflexivity. }
  split; [exact Hrun|]. split; [reflexivity|]. split; [vm_compute; reflexivity|].
  exact (proj1 (DeactivateTeamUsers_summaries _ _ _ _ Hpk Hae Hrun)).
Defined.

(** ** The HTTP layer: authentication *)

Lemma HasPrefix_app (prefix s : string) : HasPrefix (prefix +:+ s) prefix = true.
Proof.
  induction prefix as [|c prefix IH]; [by destruct s|].
  change (String c prefix +:+ s) with (String c (prefix +:+ s)).
  cbn [HasPrefix]. by rewrite decide_True.
Qed.

Lemma slice_from_app (prefix s : string) :
  slice_from (String.length prefix) (prefix +:+ s) = s.
Proof.
  induction prefix as [|c prefix IH]; [by destruct s|].
  change (String c prefix +:+ s) with (String c (prefix +:+ s)). exact IH.
Qed.

Lemma TrimPrefix_app (prefix s : string) : TrimPrefix (prefix +:+ s) prefix = s.
Proof. unfold TrimPrefix. by rewrite HasPrefix_app, slice_from_app. Qed.

Lemma TrimPrefix_bare (s prefix : string) :
  HasPrefix s prefix = false → TrimPrefix s prefix = s.
Proof. unfold TrimPrefix. by intros ->. Qed.

(** What the middleware does with a header that carries a bearer token. *)
Lemma AuthMiddleware_bearer {A} `{Authenticator A} (auth : A) (requireAdmin : bool)
    {B C} (next : Request B → M (Response C)) (r : Request B) (token : string) w :
  Header r !! "Authorization" = Some ("Bearer " +:+ token) →
  http.AuthMiddleware auth requireAdmin next r w
  = if (if requireAdmin then ValidateAdminToken auth token
        else ValidateUserToken auth token)
    then next r w else (Ok respondUnauthorized, w).
Proof.
  intros Hh. unfold http.AuthMiddleware. rewrite Hh. cbn [default from_option].
  unfold id. rewrite decide_False by done. rewrite TrimPrefix_app.
  destruct requireAdmin;
    [destruct (ValidateAdminToken auth token)|destruct (ValidateUserToken auth token)]; done.
Qed.

(** X21.  With the static tokens, a request that carries the user token as
    bearer token reaches the handlers of the two reading routes; on the five
    writing routes it is answered 401 and the world is untouched, when the
    user token is not empty and is not the admin token. *)
Theorem user_token_reads_only (a : StaticTokenAuth) :
  userToken a ≠ "" →
  userToken a ≠ adminToken a →
  (∀ B (r : Request B) w,
     Header r !! "Authorization" = Some ("Bearer " +:+ userToken a) →
     http.GET_team_get a r w = handlers.GetTeam r w
     ∧ http.GET_users_getReview a r w = handlers.GetReviews r w)
  ∧ (∀ r w, Header r !! "Authorization" = Some ("Bearer " +:+ userToken a) →
            http.POST_team_deactivateUsers a r w = (Ok respondUnauthorized, w))
  ∧ (∀ r w, Header r !! "Authorization" = Some ("Bearer " +:+ userToken a) →
            http.POST_users_setIsActive a r w = (Ok respondUnauthorized, w))
  ∧ (∀ r w, Header r !! "Authorization" = Some ("Bearer " +:+ userToken a) →
            http.POST_pullRequest_create a r w = (Ok respondUnauthorized, w))
  ∧ (∀ r w, Header r !! "Authorization" = Some ("Bearer " +:+ userToken a) →
            http.POST_pullRequest_merge a r w = (Ok respondUnauthorized, w))
  ∧ (∀ r w, Header r !! "Authorization" = Some ("Bearer " +:+ userToken a) →
            http.POST_pullRequest_reassign a r w = (Ok respondUnauthorized, w)).
Proof.
  intros Hne Hdiff.
  assert (ValidateUserToken a (userToken a) = true) as Huser.
  { cbn. rewrite bool_decide_eq_true_2 by done.
    rewrite (bool_decide_eq_true_2 (userToken a = userToken a)) by done.
    by rewrite orb_true_r. }
  assert (ValidateAdminToken a (userToken a) = false) as Hadmin.
  { cbn. rewrite (bool_decide_eq_false_2 (userToken a = adminToken a)) by done.
    by rewrite andb_false_r. }
  assert (∀ B (r : Request B) w,
            Header r !! "Authorization" = Some ("Bearer " +:+ userToken a) →
            ∀ C (next : Request B → M (Response C)),
              http.AuthMiddleware a true next r w = (Ok respondUnauthorized, w)) as Hrej.
  { intros B r w Hh C next.
    by rewrite (AuthMiddleware_bearer a true next r (userToken a) w Hh), Hadmin. }
  split; [|repeat split; intros r w Hh; by apply Hrej].
  intros B r w Hh. split.
  - unfold http.GET_team_get.
    by rewrite (AuthMiddleware_bearer a false _ r (userToken a) w Hh), Huser.
  - unfold http.GET_users_getReview.
    by rewrite (AuthMiddleware_bearer a false _ r (userToken a) w Hh), Huser.
Qed.

Lemma user_token_reads_only_witness :
  http.POST_team_deactivateUsers cases.static_auth
    (cases.request "Bearer user-secret-token" examples.deactivate_u3) examples.world1
  = (Ok respondUnauthorized, examples.world1)
  ∧ http.GET_team_get cases.static_auth
      (cases.request "Bearer user-secret-token" tt) examples.world1
    = handlers.GetTeam (cases.request "Bearer user-secret-token" tt) examples.world1.
Proof.
  destruct (user_token_reads_only cases.static_auth) as (Hread & Hdeact & _);
    [discriminate|discriminate|].
  split.
  - apply Hdeact. vm_compute. reflexivity.
  - apply Hread. vm_compute. reflexivity.
Defined.

(** X22.  With the static tokens, a request that carries the admin token as
    bearer token reaches the handler of each of the seven protected routes,
    when the admin token is not empty. *)
Theorem admin_token_opens_all (a : StaticTokenAuth) :
  adminToken a ≠ "" →
  (∀ B (r : Request B) w,
     Header r !! "Authorization" = Some ("Bearer " +:+ adminToken a) →
     http.GET_team_get a r w = handlers.GetTeam r w
     ∧ http.GET_users_getReview a r w = handlers.GetReviews r w)
  ∧ (∀ r w, Header r !! "Authorization" = Some ("Bearer " +:+ adminToken a) →
            http.POST_team_deactivateUsers a r w = handlers.DeactivateTeamUsers r w)
  ∧ (∀ r w, Header r !! "Authorization" = Some ("Bearer " +:+ adminToken a) →
            http.POST_users_setIsActive a r w = handlers.SetIsActive r w)
  ∧ (∀ r w, Header r !! "Authorization" = Some ("Bearer " +:+ adminToken a) →
            http.POST_pullRequest_create a r w = handlers.CreatePR r w)
  ∧ (∀ r w, Header r !! "Authorization" = Some ("Bearer " +:+ adminToken a) →
            http.POST_pullRequest_merge a r w = handlers.MergePR r w)
  ∧ (∀ r w, Header r !! "Authorization" = Some ("Bearer " +:+ adminToken a) →
            http.POST_pullRequest_reassign a r w = handlers.ReassignReviewer r w).
Proof.
  intros Hne.
  assert (ValidateUserToken a (adminToken a) = true) as Huser.
  { cbn. rewrite bool_decide_eq_true_2 by done.
    by rewrite (bool_decide_eq_true_2 (adminToken a = adminToken a)) by done. }
  assert (ValidateAdminToken a (adminToken a) = true) as Hadmin.
  { cbn. rewrite bool_decide_eq_true_2 by done.
    by rewrite (bool_decide_eq_true_2 (adminToken a = adminToken a)) by done. }
  assert (∀ B (r : Request B) w,
            Header r !! "Authorization" = Some ("Bearer " +:+ adminToken a) →
            ∀ C (next : Request B → M (Response C)),
              http.AuthMiddleware a true next r w = next r w) as Hacc.
  { intros B r w Hh C next.
    by rewrite (AuthMiddleware_bearer a true next r (adminToken a) w Hh), Hadmin. }
  split; [|repeat split; intros r w Hh; by apply Hacc].
  intros B r w Hh. split.
  - unfold http.GET_team_get.
    by rewrite (AuthMiddleware_bearer a false _ r (adminToken a) w Hh), Huser.
  - unfold http.GET_users_getReview.
    by rewrite (AuthMiddleware_bearer a false _ r (adminToken a) w Hh), Huser.
Qed.

Lemma admin_token_opens_all_witness :
  http.POST_team_deactivateUsers cases.static_auth
    (cases.request "Bearer admin-secret-token" examples.deactivate_u3) examples.world1
  = handlers.DeactivateTeamUsers
      (cases.request "Bearer admin-secret-token" examples.deactivate_u3) examples.world1.
Proof.
  destruct (admin_token_opens_all cases.static_auth) as (_ & Hdeact & _); [discriminate|].
  apply Hdeact. vm_compute. reflexivity.
Defined.

(** X23.  The prefix "Bearer " is optional: a header that does not start
    with it is taken as the token itself, so the bare admin token opens a
    route that requires the admin. *)
Theorem bare_token_is_accepted (a : StaticTokenAuth) {B C}
    (next : Request B → M (Response C)) (r : Request B) w :
  adminToken a ≠ "" →
  HasPrefix (adminToken a) "Bearer " = false →
  Header r !! "Authorization" = Some (adminToken a) →
  http.AuthMiddleware a true next r w = next r w.
Proof.
  intros Hne Hbare Hh. unfold http.AuthMiddleware. rewrite Hh. cbn [default from_option].
  unfold id. rewrite decide_False by done. rewrite TrimPrefix_bare by done.
  cbn. rewrite bool_decide_eq_true_2 by done.
  by rewrite (bool_decide_eq_true_2 (adminToken a = adminToken a)) by done.
Qed.

Lemma bare_token_is_accepted_witness :
  http.AuthMiddleware cases.static_auth true handlers.DeactivateTeamUsers
    (cases.request "admin-secret-token" examples.deactivate_u3) examples.world1
  = handlers.DeactivateTeamUsers
      (cases.request "admin-secret-token" examples.deactivate_u3) examples.world1.
Proof.
  apply (bare_token_is_accepted cases.static_auth).
  - discriminate.
  - vm_compute. reflexivity.
  - vm_compute. reflexivity.
Defined.

(** X24.  Whatever the configured tokens are, even empty ones, a request
    without [Authorization] header, with an empty one, or with the bearer
    prefix and no token is answered 401 by the middleware, and the handler
    is not run. *)
Theorem empty_token_is_rejected (a : StaticTokenAuth) (requireAdmin : bool) {B C}
    (next : Request B → M (Response C)) (r : Request B) w :
  Header r !! "Authorization" = None
  ∨ Header r !! "Authorization" = Some ""
  ∨ Header r !! "Authorization" = Some "Bearer " →
  http.AuthMiddleware a requireAdmin next r w = (Ok respondUnauthorized, w).
Proof.
  intros [Hh|[Hh|Hh]]; unfold http.AuthMiddleware; rewrite Hh; [done|done|].
  by destruct requireAdmin.
Qed.

Lemma empty_token_is_rejected_witness :
  http.AuthMiddleware (NewStaticTokenAuth "" "") true handlers.DeactivateTeamUsers
    (cases.request "Bearer " examples.deactivate_u3) examples.world1
  = (Ok respondUnauthorized, examples.world1).
Proof.
  apply (empty_token_is_rejected (NewStaticTokenAuth "" "") true).
  right. right. vm_compute. reflexivity.
Defined.

(** ** The HTTP layer: handlers *)

(** X25.  The handler of POST /pullRequest/create answers 400 when the body
    cannot be decoded, 409 with PR_EXISTS when the id is taken and 404 with
    NOT_FOUND when the author is not a user, the world being untouched in
    these cases; otherwise it answers 201 with the pull request [CreatePR]
    returned. *)
Theorem handler_CreatePR_status r w :
  (Body r = None →
   handlers.CreatePR r w
   = (Ok (respondError StatusBadRequest handlers.invalid_request_body), w))
  ∧ (∀ req, Body r = Some req →
            is_Some (prs (store w) !! createpr_PullRequestID req) →
            handlers.CreatePR r w = (Ok (respondError StatusConflict ErrPRAlreadyExists), w))
  ∧ (∀ req, Body r = Some req →
            prs (store w) !! createpr_PullRequestID req = None →
            users (store w) !! createpr_AuthorID req = None →
            handlers.CreatePR r w = (Ok (respondError StatusNotFound ErrUserNotFound), w))
  ∧ (∀ req, Body r = Some req →
            prs (store w) !! createpr_PullRequestID req = None →
            is_Some (users (store w) !! createpr_AuthorID req) →
            ∃ pr w', usecase.CreatePR req w = (Ok pr, w')
                     ∧ handlers.CreatePR r w
                       = (Ok (respondJSON StatusCreated {[ "pr" := pr ]}), w')).
Proof.
  unfold handlers.CreatePR. split; [|split; [|split]].
  - by intros ->.
  - intros req -> Hex. unfold bind.
    by rewrite (call_Err _ _ _ _ (CreatePR_exists req w Hex)).
  - intros req -> Hnew Hau. unfold bind.
    by rewrite (call_Err _ _ _ _ (CreatePR_no_author req w Hnew Hau)).
  - intros req -> Hnew [author Hau].
    destruct (CreatePR_succeeds req w author Hnew Hau) as (pr & w' & Hrun).
    exists pr, w'. split; [done|]. unfold bind. by rewrite (call_Ok _ _ _ _ Hrun).
Qed.

Lemma handler_CreatePR_status_witness :
  handlers.CreatePR {| Header := ∅; Query := ∅; Body := None |} examples.world1
  = (Ok (respondError 400 handlers.invalid_request_body), examples.world1)
  ∧ handlers.CreatePR (cases.request "" examples.create_pr1) examples.world1
    = (Ok (respondError 409 ErrPRAlreadyExists), examples.world1)
  ∧ handlers.CreatePR (cases.request "" examples.create_pr1) cases.new_world
    = (Ok (respondError 404 ErrUserNotFound), cases.new_world)
  ∧ ∃ pr w', usecase.CreatePR examples.create_pr1 examples.world0 = (Ok pr, w')
             ∧ handlers.CreatePR (cases.request "" examples.create_pr1) examples.world0
               = (Ok (respondJSON 201 {[ "pr" := pr ]}), w').
Proof.
  split; [|split; [|split]].
  - by apply (proj1 (handler_CreatePR_status _ examples.world1)).
  - apply (proj1 (proj2 (handler_CreatePR_status
                           (cases.request "" examples.create_pr1) examples.world1))
             examples.create_pr1); [reflexivity|].
    vm_compute. eauto.
  - apply (proj1 (proj2 (proj2 (handler_CreatePR_status
                                  (cases.request "" examples.create_pr1) cases.new_world)))
             examples.create_pr1); [reflexivity| |]; vm_compute; reflexivity.
  - apply (proj2 (proj2 (proj2 (handler_CreatePR_status
                                  (cases.request "" examples.create_pr1) examples.world0)))
             examples.create_pr1); [reflexivity| |].
    + vm_compute. reflexivity.
    + vm_compute. eauto.
Defined.

(** X26.  The handler of POST /pullRequest/reassign answers 200 with the
    response of [ReassignReviewer] when it succeeds.  When it fails the
    error is one of five: the handler answers 404 for the two of code
    NOT_FOUND, a pull request or an old reviewer that is not stored, and 409
    for a merged pull request, a reviewer that is not assigned and a team
    without candidate. *)
Theorem handler_ReassignReviewer_status r w req :
  Body r = Some req →
  (∀ resp w', usecase.ReassignReviewer req w = (Ok resp, w') →
              handlers.ReassignReviewer r w = (Ok (respondJSON StatusOK resp), w'))
  ∧ (∀ e w', usecase.ReassignReviewer req w = (Err e, w') →
             store w' = store w
             ∧ ((e = ErrPRNotFound ∨ e = ErrUserNotFound)
                ∧ handlers.ReassignReviewer r w = (Ok (respondError StatusNotFound e), w')
                ∨ (e = ErrPRMerged ∨ e = ErrReviewerNotAssigned ∨ e = ErrNoActiveCandidate)
                  ∧ handlers.ReassignReviewer r w = (Ok (respondError StatusConflict e), w'))).
Proof.
  intros Hbody. unfold handlers.ReassignReviewer. rewrite Hbody. split.
  - intros resp w' Hrun. unfold bind. by rewrite (call_Ok _ _ _ _ Hrun).
  - intros e w' Hrun.
    destruct (ReassignReviewer_errors _ _ _ _ Hrun) as [Hst He]. split; [done|].
    unfold bind. rewrite (call_Err _ _ _ _ Hrun).
    repeat (apply elem_of_cons in He as [->|He]); [| | | | |by apply elem_of_nil in He].
    + left. split; [by left|done].
    + right. split; [by left|done].
    + right. split; [right; by left|done].
    + left. split; [by right|done].
    + right. split; [right; by right|done].
Qed.

Lemma handler_ReassignReviewer_status_witness :
  handlers.ReassignReviewer (cases.request "" examples.reassign_u2) examples.world1_merged
  = (Ok (respondError 409 ErrPRMerged), examples.world1_merged)
  ∧ handlers.ReassignReviewer (cases.request "" examples.reassign_u3) examples.world0
    = (Ok (respondError 404 ErrPRNotFound), examples.world0).
Proof.
  split.
  - destruct (proj2 (handler_ReassignReviewer_status
                       (cases.request "" examples.reassign_u2) examples.world1_merged
                       examples.reassign_u2 eq_refl)
                ErrPRMerged examples.world1_merged) as [_ [[[H|H] _]|[_ H]]];
      [vm_compute; reflexivity|discriminate H|discriminate H|exact H].
  - destruct (proj2 (handler_ReassignReviewer_status
                       (cases.request "" examples.reassign_u3) examples.world0
                       examples.reassign_u3 eq_refl)
                ErrPRNotFound examples.world0) as [_ [[_ H]|[[H|[H|H]] _]]];
      [vm_compute; reflexivity|exact H|discriminate H|discriminate H|discriminate H].
Defined.

(** X27.  The handler of POST /team/deactivateUsers answers 400 when the
    body cannot be decoded, 404 with NOT_FOUND when the team does not exist,
    and 400 with BAD_REQUEST when the team exists and no requested id names
    one of its users; the store is untouched in these cases.  Otherwise, in
    a store whose pull requests are keyed by their id and have stored
    authors, it answers 200 with the response of [DeactivateTeamUsers]. *)
Theorem handler_DeactivateTeamUsers_status r w :
  (Body r = None →
   handlers.DeactivateTeamUsers r w
   = (Ok (respondError StatusBadRequest handlers.invalid_request_body), w))
  ∧ (∀ req, Body r = Some req →
            teams (store w) !! deactivate_TeamName req = None →
            handlers.DeactivateTeamUsers r w
            = (Ok (respondError StatusNotFound ErrTeamNotFound), w))
  ∧ (∀ req, Body r = Some req →
            is_Some (teams (store w) !! deactivate_TeamName req) →
            validUserIDs (store w) (deactivate_TeamName req) (UserIDs req) = [] →
            ∃ w', handlers.DeactivateTeamUsers r w
                  = (Ok (respondError StatusBadRequest
                           (NewAppError ErrCodeBadRequest "no valid users to deactivate")), w')
                  ∧ store w' = store w)
  ∧ (∀ req, Body r = Some req →
            is_Some (teams (store w) !! deactivate_TeamName req) →
            validUserIDs (store w) (deactivate_TeamName req) (UserIDs req) ≠ [] →
            prs_keyed (store w) →
            authors_exist (store w) →
            ∃ result w', usecase.DeactivateTeamUsers req w = (Ok result, w')
                         ∧ handlers.DeactivateTeamUsers r w
                           = (Ok (respondJSON StatusOK result), w')).
Proof.
  unfold handlers.DeactivateTeamUsers. split; [|split; [|split]].
  - by intros ->.
  - intros req -> Hteam. unfold bind.
    by rewrite (call_Err _ _ _ _ (DeactivateTeamUsers_no_team req w Hteam)).
  - intros req -> Hteam Hnone. unfold bind.
    rewrite (call_Err _ _ _ _ (DeactivateTeamUsers_none_valid req w Hteam Hnone)).
    by eexists.
  - intros req -> Hteam Hsome Hpk Hae.
    destruct (DeactivateTeamUsers_run req w Hteam Hsome Hpk Hae)
      as (entries & plans & w2 & _ & _ & _ & _ & Hrun).
    eexists _, _. split; [exact Hrun|]. unfold bind. by rewrite (call_Ok _ _ _ _ Hrun).
Qed.

Lemma handler_DeactivateTeamUsers_status_witness :
  handlers.DeactivateTeamUsers (cases.request "" examples.deactivate_ghost) examples.world1
  = (Ok (respondError 404 ErrTeamNotFound), examples.world1)
  ∧ (∃ w', handlers.DeactivateTeamUsers
             (cases.request "" examples.deactivate_strangers) examples.world1
           = (Ok (respondError 400
                    (NewAppError ErrCodeBadRequest "no valid users to deactivate")), w')
           ∧ store w' = store examples.world1)
  ∧ ∃ result w',
      usecase.DeactivateTeamUsers examples.deactivate_u3 examples.world1 = (Ok result, w')
      ∧ handlers.DeactivateTeamUsers (cases.request "" examples.deactivate_u3) examples.world1
        = (Ok (respondJSON 200 result), w').
Proof.
  split; [|split].
  - apply (proj1 (proj2 (handler_DeactivateTeamUsers_status
                           (cases.request "" examples.deactivate_ghost) examples.world1))
             examples.deactivate_ghost); [reflexivity|].
    vm_compute. reflexivity.
  - apply (proj1 (proj2 (proj2 (handler_DeactivateTeamUsers_status
                                  (cases.request "" examples.deactivate_strangers)
                                  examples.world1)))
             examples.deactivate_strangers); [reflexivity| |].
    + vm_compute. eauto.
    + vm_compute. reflexivity.
  - apply (proj2 (proj2 (proj2 (handler_DeactivateTeamUsers_status
                                  (cases.request "" examples.deactivate_u3) examples.world1)))
             examples.deactivate_u3); [reflexivity| | | |].
    + vm_compute. eauto.
    + vm_compute. discriminate.
    + apply (bool_decide_unpack _). vm_compute. exact I.
    + apply (bool_decide_unpack _). vm_compute. exact I.
Defined.

(** X28.  The route POST /team/add has no middleware: whatever the
    [Authorization] header is, its handler answers 400 when the body cannot
    be decoded and 400, not 409, with TEAM_EXISTS when the team exists, the
    world being untouched; otherwise it answers 201 with the team of the
    request, and the team is stored. *)
Theorem handler_CreateTeam_status r w :
  (Body r = None →
   http.POST_team_add r w
   = (Ok (respondError StatusBadRequest handlers.invalid_request_body), w))
  ∧ (∀ req, Body r = Some req →
            is_Some (teams (store w) !! createteam_TeamName req) →
            http.POST_team_add r w
            = (Ok (respondError StatusBadRequest ErrTeamAlreadyExists), w))
  ∧ (∀ req, Body r = Some req →
            teams (store w) !! createteam_TeamName req = None →
            ∃ w', http.POST_team_add r w
                  = (Ok (respondJSON StatusCreated
                           {[ "team" := {| teamresp_TeamName := createteam_TeamName req;
                                           teamresp_Members := createteam_Members req |} ]}),
                     w')
                  ∧ is_Some (teams (store w') !! createteam_TeamName req)).
Proof.
  unfold http.POST_team_add, handlers.CreateTeam. split; [|split].
  - by intros ->.
  - intros req -> [team Hteam]. unfold bind, call. by rewrite CreateTeam_run, Hteam.
  - intros req -> Hteam. unfold bind, call. rewrite CreateTeam_run, Hteam.
    eexists. split; [reflexivity|]. cbn [store teams]. rewrite lookup_insert_eq. by eexists.
Qed.

Lemma handler_CreateTeam_status_witness :
  http.POST_team_add (cases.request "" cases.add_backend) examples.world1
  = (Ok (respondError 400 ErrTeamAlreadyExists), examples.world1)
  ∧ ∃ w', http.POST_team_add (cases.request "" cases.add_backend) cases.new_world
          = (Ok (respondJSON 201
                   {[ "team" := {| teamresp_TeamName := "backend";
                                   teamresp_Members := createteam_Members cases.add_backend |} ]}),
             w')
          ∧ is_Some (teams (store w') !! "backend").
Proof.
  split.
  - apply (proj1 (proj2 (handler_CreateTeam_status
                           (cases.request "" cases.add_backend) examples.world1))
             cases.add_backend); [reflexivity|].
    vm_compute. eauto.
  - apply (proj2 (proj2 (handler_CreateTeam_status
                           (cases.request "" cases.add_backend) cases.new_world))
             cases.add_backend); [reflexivity|].
    vm_compute. reflexivity.
Defined.

(** X29.  The handlers of the two reading routes answer 400 when the query
    parameter, [team_name] or [user_id], is missing or empty, whatever the
    store holds, even a team or a user of that empty name; 404 with
    NOT_FOUND when the team or the user is not stored; and 200 with the
    response of [GetTeam] or [GetUserReviews] otherwise. *)
Theorem handler_reads_status {B} (r : Request B) w :
  (default "" (Query r !! "team_name") = "" →
   handlers.GetTeam r w
   = (Ok (respondError StatusBadRequest
            (NewAppError ErrCodeBadRequest "team_name is required")), w))
  ∧ (∀ name, Query r !! "team_name" = Some name → name ≠ "" →
             teams (store w) !! name = None →
             handlers.GetTeam r w = (Ok (respondError StatusNotFound ErrTeamNotFound), w))
  ∧ (∀ name, Query r !! "team_name" = Some name → name ≠ "" →
             is_Some (teams (store w) !! name) →
             ∃ team w', usecase.GetTeam name w = (Ok team, w')
                        ∧ handlers.GetTeam r w = (Ok (respondJSON StatusOK team), w'))
  ∧ (default "" (Query r !! "user_id") = "" →
     handlers.GetReviews r w
     = (Ok (respondError StatusBadRequest
              (NewAppError ErrCodeBadRequest "user_id is required")), w))
  ∧ (∀ userID, Query r !! "user_id" = Some userID → userID ≠ "" →
               users (store w) !! userID = None →
               handlers.GetReviews r w = (Ok (respondError StatusNotFound ErrUserNotFound), w))
  ∧ (∀ userID, Query r !! "user_id" = Some userID → userID ≠ "" →
               is_Some (users (store w) !! userID) →
               ∃ reviews w', usecase.GetUserReviews userID w = (Ok reviews, w')
                             ∧ handlers.GetReviews r w
                               = (Ok (respondJSON StatusOK reviews), w')).
Proof.
  unfold handlers.GetTeam, handlers.GetReviews. repeat split.
  - by intros ->.
  - intros name -> Hne Hteam. cbn [default from_option]. unfold id.
    rewrite decide_False by done. pose proof (usecase_GetTeam_run name w) as Hrun.
    rewrite Hteam in Hrun. unfold bind. by rewrite (call_Err _ _ _ _ Hrun).
  - intros name -> Hne [team Hteam]. cbn [default from_option]. unfold id.
    rewrite decide_False by done. pose proof (usecase_GetTeam_run name w) as Hrun.
    rewrite Hteam in Hrun. destruct Hrun as (members & Hrun & _).
    eexists _, _. split; [exact Hrun|]. unfold bind. by rewrite (call_Ok _ _ _ _ Hrun).
  - by intros ->.
  - intros userID -> Hne Huser. cbn [default from_option]. unfold id.
    rewrite decide_False by done. unfold bind, call, usecase.GetUserReviews, bind.
    by rewrite GetUser_run, Huser.
  - intros userID -> Hne [user Huser]. cbn [default from_option]. unfold id.
    rewrite decide_False by done.
    destruct (GetUserReviews_found userID w) as (found & Hrun & _).
    assert (usecase.GetUserReviews userID w
            = (Ok {| reviews_UserID := userID; PullRequests := usecase.short_of <$> found |},
               {| store := store w; tape := drop (size (prReviewers (store w))) (tape w);
                  clock := clock w; history := history w |})) as Hrun'.
    { unfold usecase.GetUserReviews, bind. by rewrite GetUser_run, Huser, Hrun. }
    eexists _, _. split; [exact Hrun'|]. unfold bind. by rewrite (call_Ok _ _ _ _ Hrun').
Qed.

Lemma handler_reads_status_witness :
  is_Some (teams (store cases.with_nameless) !! "")
  ∧ handlers.GetTeam (cases.query "team_name" "") cases.with_nameless
    = (Ok (respondError 400 (NewAppError ErrCodeBadRequest "team_name is required")),
       cases.with_nameless)
  ∧ handlers.GetTeam (cases.query "team_name" "ghost") cases.with_nameless
    = (Ok (respondError 404 ErrTeamNotFound), cases.with_nameless)
  ∧ handlers.GetReviews (cases.query "user_id" "u9") cases.with_nameless
    = (Ok (respondError 404 ErrUserNotFound), cases.with_nameless).
Proof.
  split; [vm_compute; eauto|]. split; [|split].
  - apply (proj1 (handler_reads_status (cases.query "team_name" "") cases.with_nameless)).
    vm_compute. reflexivity.
  - apply (proj1 (proj2 (handler_reads_status (cases.query "team_name" "ghost")
                           cases.with_nameless)) "ghost");
      [vm_compute; reflexivity|discriminate|vm_compute; reflexivity].
  - apply (proj1 (proj2 (proj2 (proj2 (proj2
             (handler_reads_status (cases.query "user_id" "u9") cases.with_nameless))))) "u9");
      [vm_compute; reflexivity|discriminate|vm_compute; reflexivity].
Defined.

(** X30.  The handlers of POST /pullRequest/merge and POST /users/setIsActive
    answer 400 when the body cannot be decoded and 404 with NOT_FOUND when
    the pull request or the user is not stored, the world being untouched;
    otherwise they answer 200 with the merged pull request or the updated
    user. *)
Theorem handler_updates_status w :
  (∀ r, Body r = None →
        handlers.MergePR r w
        = (Ok (respondError StatusBadRequest handlers.invalid_request_body), w))
  ∧ (∀ r req, Body r = Some req →
              prs (store w) !! merge_PullRequestID req = None →
              handlers.MergePR r w = (Ok (respondError StatusNotFound ErrPRNotFound), w))
  ∧ (∀ r req, Body r = Some req →
              is_Some (prs (store w) !! merge_PullRequestID req) →
              ∃ pr w', usecase.MergePR (merge_PullRequestID req) w = (Ok pr, w')
                       ∧ resp_Status pr = PRStatusMerged
                       ∧ handlers.MergePR r w
                         = (Ok (respondJSON StatusOK {[ "pr" := pr ]}), w'))
  ∧ (∀ r, Body r = None →
          handlers.SetIsActive r w
          = (Ok (respondError StatusBadRequest handlers.invalid_request_body), w))
  ∧ (∀ r req, Body r = Some req →
              users (store w) !! setactive_UserID req = None →
              handlers.SetIsActive r w = (Ok (respondError StatusNotFound ErrUserNotFound), w))
  ∧ (∀ r req, Body r = Some req →
              is_Some (users (store w) !! setactive_UserID req) →
              ∃ user w', usecase.SetUserActive req w = (Ok user, w')
                         ∧ IsActive user = setactive_IsActive req
                         ∧ handlers.SetIsActive r w
                           = (Ok (respondJSON StatusOK {[ "user" := user ]}), w')).
Proof.
  unfold handlers.MergePR, handlers.SetIsActive. repeat split.
  - by intros r ->.
  - intros r req -> Hpr. unfold bind, call, usecase.MergePR, bind.
    by rewrite GetPRWithReviewers_run, Hpr.
  - intros r req -> [pr Hpr].
    destruct (decide (Status pr = PRStatusMerged)) as [Hm|Hm].
    + pose proof (MergePR_merged _ _ _ Hpr Hm) as Hrun.
      eexists _, _. split; [exact Hrun|]. split; [done|].
      unfold bind. by rewrite (call_Ok _ _ _ _ Hrun).
    + pose proof (MergePR_open _ _ _ Hpr Hm) as Hrun.
      eexists _, _. split; [exact Hrun|]. split; [done|].
      unfold bind. by rewrite (call_Ok _ _ _ _ Hrun).
  - by intros r ->.
  - intros r req -> Huser. unfold bind, call. by rewrite SetUserActive_run, Huser.
  - intros r req -> [user Huser]. unfold bind, call. rewrite SetUserActive_run, Huser.
    eexists _, _. split; [reflexivity|]. split; [done|done].
Qed.

Lemma handler_updates_status_witness :
  handlers.MergePR (cases.request "" {| merge_PullRequestID := "pr-9" |}) examples.world1
  = (Ok (respondError 404 ErrPRNotFound), examples.world1)
  ∧ handlers.SetIsActive (cases.request "" cases.idle_u3) cases.new_world
    = (Ok (respondError 404 ErrUserNotFound), cases.new_world)
  ∧ ∃ pr w', usecase.MergePR "pr-1" examples.world1 = (Ok pr, w')
             ∧ resp_Status pr = PRStatusMerged
             ∧ handlers.MergePR (cases.request "" {| merge_PullRequestID := "pr-1" |})
                 examples.world1
               = (Ok (respondJSON 200 {[ "pr" := pr ]}), w').
Proof.
  destruct (handler_updates_status examples.world1) as (_ & Hmiss & Hmerge & _).
  destruct (handler_updates_status cases.new_world) as (_ & _ & _ & _ & Huser & _).
  split; [|split].
  - apply (Hmiss _ {| merge_PullRequestID := "pr-9" |}); [reflexivity|].
    vm_compute. reflexivity.
  - apply (Huser _ cases.idle_u3); [reflexivity|]. vm_compute. reflexivity.
  - apply (Hmerge _ {| merge_PullRequestID := "pr-1" |}); [reflexivity|].
    vm_compute. eauto.
Defined.
